(** * pyrin-stratum-bridge: the node connection and block template feed

    A shallow embedding of [src/pyrinstratum/pyrinapi.go] and the
    properties of its specification.

    The Go code talks to a node over RPC, sleeps, reads a ticker and
    blocks in [select].  Its methods are embedded as computations in a
    state monad over one goroutine's view of the world: the [PyrinApi]
    struct, the clock, the ticker and the notification channel of the
    goroutine, the answers the node is going to give (consumed in call
    order) and the chronological trace of everything the goroutine did.

    Time passes while the goroutine sleeps and while a [select] waits;
    a call on the node and the callback return at the instant they are
    made.  A computation that has not returned when the answers of the
    node or the fuel of a loop run out is [Pending]. *)

From Stdlib Require Import ZArith List String Bool Lia.
Import ListNotations.

Open Scope string_scope.
Open Scope list_scope.
Open Scope Z_scope.

(** ** Values *)

(** [time.Duration] and instants of the clock, both in nanoseconds. *)
Definition Duration := Z.
Definition Second : Duration := 1000000000.

(** A Go [error], by its message. *)
Definition error := string.

(** [errors.Wrap] / [errors.Wrapf]: the message, a colon, the cause. *)
Definition Wrap (err : error) (msg : string) : error :=
  String.append msg (String.append ": " err).

(** A call that returns [(value, error)]. *)
Definition result (A : Type) : Type := (A + error)%type.

(** A [float64] that is only handed on, by its bits. *)
Definition float64 := Z.

(** The handle of [rpcclient.RPCClient]; it remembers what it dialled. *)
Inductive RPCClient : Type := Client (addr : string).

(** The fields of the node's answers that the code reads. *)
Record GetInfoResponse := { IsSynced : bool }.

Record GetBlockDAGInfoResponse := {
  TipHashes : list string;
  BlockCount : Z;
  Difficulty : float64
}.

Record EstimateNetworkHashesPerSecondResponse := {
  NetworkHashesPerSecond : Z
}.

Definition BlockTemplate := string.

(** [gostratum.StratumContext], the two fields [GetBlockTemplate] reads. *)
Record StratumContext := { WalletAddr : string; RemoteApp : string }.

(** The struct of the manager; the logger is the trace. *)
Record PyrinApi := {
  address : string;
  blockWaitTime : Duration;
  pyrind : option RPCClient;
  connected : bool
}.

Definition set_pyrind (c : option RPCClient) (ks : PyrinApi) : PyrinApi :=
  {| address := address ks; blockWaitTime := blockWaitTime ks;
     pyrind := c; connected := connected ks |}.

(** ** The ticker of the Go runtime

    [time.NewTicker d] makes the channel [C] with a buffer of one.  At
    each deadline the runtime sends on [C] without blocking, so a tick
    that finds the buffer full is dropped, and it moves the deadline by
    as many periods as it takes to pass the present.  [Reset d] re-arms
    the deadline [d] ahead; it does not receive from [C], and a tick that
    is in the buffer stays there.  (The module is declared [go 1.18]:
    the timer channels without buffer of Go 1.23 are not in force.) *)
Record Ticker := {
  period : Duration;
  next : Z;          (* when the runtime sends the next tick *)
  slot : bool        (* a tick is waiting in [C] *)
}.

(** What the runtime has done to the ticker by the instant [t]. *)
Definition advance (t : Z) (tk : Ticker) : Ticker :=
  if next tk <=? t
  then {| period := period tk;
          next := next tk + period tk * ((t - next tk) / period tk + 1);
          slot := true |}
  else tk.

(** The ticker made at the instant [t]. *)
Definition newTicker (t : Z) (d : Duration) : Ticker :=
  {| period := d; next := t + d; slot := false |}.

(** The ticker reset at the instant [t]: what was in the buffer, or was
    due by then, is still in it. *)
Definition resetTicker (t : Z) (d : Duration) (tk : Ticker) : Ticker :=
  {| period := d; next := t + d; slot := slot (advance t tk) |}.

(** [<-ticker.C] at the instant [t]: the slot is emptied. *)
Definition drainTicker (t : Z) (tk : Ticker) : Ticker :=
  {| period := period (advance t tk); next := next (advance t tk);
     slot := false |}.

(** ** What a goroutine does *)

Inductive Level := Info | Warn | Error.

Inductive Call :=
| GetInfo
| GetBlockDAGInfo
| EstimateNetworkHashesPerSecond (tip : string) (window : Z)
| GetBlockTemplate (payAddress : string) (extraData : string)
| RegisterForNewBlockTemplateNotifications
| Reconnect
| NewRPCClient (addr : string).

(** The channels of the two [select] statements. *)
Inductive Chan := Done | BlockReadyChan | TickerC.

Inductive Event :=
| Rpc (c : Call)
| Log (l : Level) (msg : string) (err : option error)
| Sleep (d : Duration)
| Recv (c : Chan)
| BlockReadyCb
| TickerReset (d : Duration)
| RecordNetworkStats (hashesPerSecond blockCount : Z) (difficulty : float64)
| Go (f : string).

(** ** The node and the runtime, as the goroutine will meet them

    Each queue holds the answers to one kind of call, in call order.
    [cancelAt] is the instant the context is cancelled, [pushAt] the
    instants at which the node sends a new-block-template notification,
    [pickQ] the draws of [select] among the cases that are ready.

    The handler of the notifications sends on [blockReadyChan], which has
    no buffer, and blocks until the loop receives: the notifications
    wait one behind the other, each from the instant it was sent. *)
Record Node := {
  infoQ : list (result GetInfoResponse);
  dagQ : list (result GetBlockDAGInfoResponse);
  hashQ : list (result EstimateNetworkHashesPerSecondResponse);
  templateQ : list (result BlockTemplate);
  registerQ : list (option error);
  reconnectQ : list (option error);
  dialQ : list (result RPCClient);
  pickQ : list nat;
  cancelAt : option Z;
  pushAt : list Z
}.

Record State := {
  api : PyrinApi;
  node : Node;
  now : Z;
  trace : list (Z * Event);
  ticker : Ticker;              (* the local [ticker] *)
  blockReadyChan : list Z       (* the senders waiting on [blockReadyChan] *)
}.

Definition set_api (a : PyrinApi) (s : State) : State :=
  {| api := a; node := node s; now := now s; trace := trace s;
     ticker := ticker s; blockReadyChan := blockReadyChan s |}.

Definition set_node (n : Node) (s : State) : State :=
  {| api := api s; node := n; now := now s; trace := trace s;
     ticker := ticker s; blockReadyChan := blockReadyChan s |}.

Definition set_now (t : Z) (s : State) : State :=
  {| api := api s; node := node s; now := t; trace := trace s;
     ticker := ticker s; blockReadyChan := blockReadyChan s |}.

Definition set_ticker (tk : Ticker) (s : State) : State :=
  {| api := api s; node := node s; now := now s; trace := trace s;
     ticker := tk; blockReadyChan := blockReadyChan s |}.

Definition set_chan (q : list Z) (s : State) : State :=
  {| api := api s; node := node s; now := now s; trace := trace s;
     ticker := ticker s; blockReadyChan := q |}.

(** Appends an event, stamped with the clock. *)
Definition record (e : Event) (s : State) : State :=
  {| api := api s; node := node s; now := now s;
     trace := trace s ++ [(now s, e)];
     ticker := ticker s; blockReadyChan := blockReadyChan s |}.

(** Setters of the queues of the node. *)
Definition set_infoQ (q : list (result GetInfoResponse)) (n : Node) : Node :=
  {| infoQ := q; dagQ := dagQ n; hashQ := hashQ n; templateQ := templateQ n;
     registerQ := registerQ n; reconnectQ := reconnectQ n; dialQ := dialQ n;
     pickQ := pickQ n; cancelAt := cancelAt n; pushAt := pushAt n |}.

Definition set_dagQ (q : list (result GetBlockDAGInfoResponse)) (n : Node)
  : Node :=
  {| infoQ := infoQ n; dagQ := q; hashQ := hashQ n; templateQ := templateQ n;
     registerQ := registerQ n; reconnectQ := reconnectQ n; dialQ := dialQ n;
     pickQ := pickQ n; cancelAt := cancelAt n; pushAt := pushAt n |}.

Definition set_hashQ
  (q : list (result EstimateNetworkHashesPerSecondResponse)) (n : Node)
  : Node :=
  {| infoQ := infoQ n; dagQ := dagQ n; hashQ := q; templateQ := templateQ n;
     registerQ := registerQ n; reconnectQ := reconnectQ n; dialQ := dialQ n;
     pickQ := pickQ n; cancelAt := cancelAt n; pushAt := pushAt n |}.

Definition set_templateQ (q : list (result BlockTemplate)) (n : Node) : Node :=
  {| infoQ := infoQ n; dagQ := dagQ n; hashQ := hashQ n; templateQ := q;
     registerQ := registerQ n; reconnectQ := reconnectQ n; dialQ := dialQ n;
     pickQ := pickQ n; cancelAt := cancelAt n; pushAt := pushAt n |}.

Definition set_registerQ (q : list (option error)) (n : Node) : Node :=
  {| infoQ := infoQ n; dagQ := dagQ n; hashQ := hashQ n;
     templateQ := templateQ n;
     registerQ := q; reconnectQ := reconnectQ n; dialQ := dialQ n;
     pickQ := pickQ n; cancelAt := cancelAt n; pushAt := pushAt n |}.

Definition set_reconnectQ (q : list (option error)) (n : Node) : Node :=
  {| infoQ := infoQ n; dagQ := dagQ n; hashQ := hashQ n;
     templateQ := templateQ n;
     registerQ := registerQ n; reconnectQ := q; dialQ := dialQ n;
     pickQ := pickQ n; cancelAt := cancelAt n; pushAt := pushAt n |}.

Definition set_dialQ (q : list (result RPCClient)) (n : Node) : Node :=
  {| infoQ := infoQ n; dagQ := dagQ n; hashQ := hashQ n;
     templateQ := templateQ n;
     registerQ := registerQ n; reconnectQ := reconnectQ n; dialQ := q;
     pickQ := pickQ n; cancelAt := cancelAt n; pushAt := pushAt n |}.

Definition set_pickQ (q : list nat) (n : Node) : Node :=
  {| infoQ := infoQ n; dagQ := dagQ n; hashQ := hashQ n;
     templateQ := templateQ n;
     registerQ := registerQ n; reconnectQ := reconnectQ n; dialQ := dialQ n;
     pickQ := q; cancelAt := cancelAt n; pushAt := pushAt n |}.

(** ** The monad

    A computation ends by returning, by a run-time panic, or it is still
    [Pending] where the observation ends: a loop out of fuel, or a call
    whose answer is not in the queue. *)
Inductive Outcome (A : Type) : Type :=
| Ret (a : A)
| Panic (msg : string)
| Pending.

Arguments Ret {A} a.
Arguments Panic {A} msg.
Arguments Pending {A}.

Definition M (A : Type) : Type := State -> Outcome A * State.

Definition ret {A} (a : A) : M A := fun s => (Ret a, s).

Definition bind {A B} (m : M A) (f : A -> M B) : M B :=
  fun s =>
    match m s with
    | (Ret a, s') => f a s'
    | (Panic msg, s') => (Panic msg, s')
    | (Pending, s') => (Pending, s')
    end.

Declare Scope go_scope.
Delimit Scope go_scope with go.
Notation "x <- m ;; k" := (bind m (fun x => k))
  (at level 61, m at next level, right associativity) : go_scope.
Notation "m ;; k" := (bind m (fun _ => k))
  (at level 61, right associativity) : go_scope.
Open Scope go_scope.

Definition panic {A} (msg : string) : M A := fun s => (Panic msg, s).
Definition pending {A} : M A := fun s => (Pending, s).

Definition emit (e : Event) : M unit := fun s => (Ret tt, record e s).

Definition log (l : Level) (msg : string) (err : option error) : M unit :=
  emit (Log l msg err).

Definition getApi : M PyrinApi := fun s => (Ret (api s), s).
Definition putApi (a : PyrinApi) : M unit := fun s => (Ret tt, set_api a s).

(** [time.Sleep d]. *)
Definition sleep (d : Duration) : M unit :=
  fun s => (Ret tt, set_now (now s + d) (record (Sleep d) s)).

(** [for { body }]: the body says whether the loop goes round again. *)
Inductive Step (A : Type) : Type :=
| Continue
| Break (a : A).

Arguments Continue {A}.
Arguments Break {A} a.

Fixpoint for_ {A} (fuel : nat) (body : M (Step A)) : M A :=
  match fuel with
  | O => pending
  | S n => st <- body ;;
           match st with
           | Continue => for_ n body
           | Break a => ret a
           end
  end.

(** ** Calls on the node client

    A method of the client called through the nil pointer panics; on a
    client, the call is recorded and answered from its queue. *)
Definition nilDeref : string :=
  "invalid memory address or nil pointer dereference".

Definition ask {A} (q : Node -> list A) (set : list A -> Node -> Node)
  (c : Call) : M A :=
  fun s =>
    match q (node s) with
    | [] => (Pending, s)
    | r :: rest => (Ret r, record (Rpc c) (set_node (set rest (node s)) s))
    end.

Definition onClient {A} (m : M A) : M A :=
  ks <- getApi ;;
  match pyrind ks with
  | None => panic nilDeref
  | Some _ => m
  end.

Definition pyrind_GetInfo : M (result GetInfoResponse) :=
  onClient (ask infoQ set_infoQ GetInfo).

Definition pyrind_GetBlockDAGInfo : M (result GetBlockDAGInfoResponse) :=
  onClient (ask dagQ set_dagQ GetBlockDAGInfo).

Definition pyrind_EstimateNetworkHashesPerSecond (tip : string) (window : Z)
  : M (result EstimateNetworkHashesPerSecondResponse) :=
  onClient (ask hashQ set_hashQ (EstimateNetworkHashesPerSecond tip window)).

Definition pyrind_GetBlockTemplate (payAddress extraData : string)
  : M (result BlockTemplate) :=
  onClient
    (ask templateQ set_templateQ (GetBlockTemplate payAddress extraData)).

Definition pyrind_Reconnect : M (option error) :=
  onClient (ask reconnectQ set_reconnectQ Reconnect).

Definition rpcclient_NewRPCClient (addr : string) : M (result RPCClient) :=
  ask dialQ set_dialQ (NewRPCClient addr).

(** Registration: when the node accepts it, the handler is installed, and
    each notification of [pushAt] becomes a sender on [blockReadyChan]. *)
Definition pyrind_RegisterForNewBlockTemplateNotifications : M (option error) :=
  onClient (
    r <- ask registerQ set_registerQ RegisterForNewBlockTemplateNotifications ;;
    match r with
    | Some err => ret (Some err)
    | None => fun s => (Ret None, set_chan (pushAt (node s)) s)
    end).

(** ** Ticker and [select] *)

Definition nonPositiveNewTicker : string :=
  "non-positive interval for NewTicker".
Definition nonPositiveReset : string :=
  "non-positive interval for Ticker.Reset".

(** [ticker := time.NewTicker(d)] *)
Definition time_NewTicker (d : Duration) : M unit :=
  fun s =>
    if d <=? 0 then (Panic nonPositiveNewTicker, s)
    else (Ret tt, set_ticker (newTicker (now s) d) s).

(** [ticker.Reset(d)] *)
Definition ticker_Reset (d : Duration) : M unit :=
  fun s =>
    if d <=? 0 then (Panic nonPositiveReset, s)
    else (Ret tt,
          record (TickerReset d)
            (set_ticker (resetTicker (now s) d (ticker s)) s)).

(** Whether the receive of a case can proceed at the instant [t]. *)
Definition isReady (s : State) (t : Z) (c : Chan) : bool :=
  match c with
  | Done =>
      match cancelAt (node s) with
      | Some k => k <=? t
      | None => false
      end
  | BlockReadyChan =>
      match blockReadyChan s with
      | a :: _ => a <=? t
      | [] => false
      end
  | TickerC => slot (advance t (ticker s))
  end.

(** The instant at which a case that is not ready becomes so. *)
Definition due (s : State) (c : Chan) : option Z :=
  match c with
  | Done => cancelAt (node s)
  | BlockReadyChan => hd_error (blockReadyChan s)
  | TickerC => Some (next (ticker s))
  end.

Fixpoint earliest (l : list (option Z)) : option Z :=
  match l with
  | [] => None
  | None :: r => earliest r
  | Some t :: r =>
      match earliest r with
      | None => Some t
      | Some u => Some (Z.min t u)
      end
  end.

(** A [select] without default returns at once when a case is ready, and
    otherwise at the first instant at which one is. *)
Definition wakeAt (cases : list Chan) (s : State) : option Z :=
  if existsb (isReady s (now s)) cases then Some (now s)
  else earliest (map (due s) cases).

(** The receive of the case that was chosen, at the instant [t]: a sender
    of [blockReadyChan] is released, or the slot of the ticker emptied. *)
Definition receive (c : Chan) (t : Z) (s : State) : State :=
  record (Recv c)
    match c with
    | Done => set_now t s
    | BlockReadyChan => set_chan (tl (blockReadyChan s)) (set_now t s)
    | TickerC => set_ticker (drainTicker t (ticker s)) (set_now t s)
    end.

(** [select { case <-c1: ... case <-cn: ... }]: among the cases that can
    proceed the runtime draws one; the draw is the head of [pickQ]. *)
Definition select (cases : list Chan) : M Chan :=
  fun s =>
    match wakeAt cases s, pickQ (node s) with
    | Some t, n :: q =>
        let rs := filter (isReady s t) cases in
        let c := nth (Nat.modulo n (List.length rs)) rs Done in
        (Ret c, receive c t (set_node (set_pickQ q (node s)) s))
    | _, _ => (Pending, s)
    end.

(** ** The methods of [PyrinApi] *)

(** [NewPyrinApi] *)
Definition NewPyrinApi (addr : string) (wait : Duration)
  : M (result PyrinApi) :=
  r <- rpcclient_NewRPCClient addr ;;
  match r with
  | inr err => ret (inr err)
  | inl client =>
      ret (inl {| address := addr; blockWaitTime := wait;
                  pyrind := Some client; connected := true |})
  end.

(** [reconnect] *)
Definition reconnect : M (option error) :=
  ks <- getApi ;;
  match pyrind ks with
  | Some _ => pyrind_Reconnect
  | None =>
      r <- rpcclient_NewRPCClient (address ks) ;;
      match r with
      | inr err => ret (Some err)
      | inl client => putApi (set_pyrind (Some client) ks) ;; ret None
      end
  end.

Definition msgChecking : string := "checking pyrind sync state".
Definition msgNotSynced : string :=
  "Pyrin is not synced, waiting for sync before starting bridge".
Definition msgSynced : string := "pyrind synced, starting server".
Definition msgFetching (addr : string) : string :=
  String.append "error fetching server info from pyrind @ " addr.

(** The body of the loop of [waitForSync]: [Break (Some err)] is the
    [return] inside the loop, [Break None] its [break]. *)
Definition waitForSync_body : M (Step (option error)) :=
  ks <- getApi ;;
  clientInfo <- pyrind_GetInfo ;;
  match clientInfo with
  | inr err => ret (Break (Some (Wrap err (msgFetching (address ks)))))
  | inl info =>
      if IsSynced info then ret (Break None)
      else log Warn msgNotSynced None ;;
           sleep (5 * Second) ;;
           ret Continue
  end.

(** [waitForSync] *)
Definition waitForSync (fuel : nat) (verbose : bool) : M (option error) :=
  (if verbose then log Info msgChecking None else ret tt) ;;
  r <- for_ fuel waitForSync_body ;;
  match r with
  | Some err => ret (Some err)
  | None =>
      (if verbose then log Info msgSynced None else ret tt) ;;
      ret None
  end.

Definition msgRegister : string :=
  "fatal: failed to register for block notifications from pyrin".
Definition msgSyncError : string :=
  "error checking pyrind sync state, attempting reconnect: ".
Definition msgReconnectError : string :=
  "error reconnecting to pyrind, waiting before retry: ".
Definition msgFeedCancelled : string :=
  "context cancelled, stopping block update listener".

(** [blockReadyCb()] *)
Definition blockReadyCb : M unit := emit BlockReadyCb.

(** The [if] that opens an iteration of the feed loop. *)
Definition feed_recover (fuel : nat) : M unit :=
  err <- waitForSync fuel false ;;
  match err with
  | None => ret tt
  | Some e =>
      log Error msgSyncError (Some e) ;;
      err' <- reconnect ;;
      match err' with
      | None => ret tt
      | Some e' =>
          log Error msgReconnectError (Some e') ;;
          sleep (5 * Second)
      end
  end.

(** The [select] that closes it. *)
Definition feed_select : M (Step unit) :=
  c <- select [Done; BlockReadyChan; TickerC] ;;
  match c with
  | Done => log Warn msgFeedCancelled None ;; ret (Break tt)
  | BlockReadyChan =>
      blockReadyCb ;;
      ks <- getApi ;;
      ticker_Reset (blockWaitTime ks) ;;
      ret Continue
  | TickerC => blockReadyCb ;; ret Continue
  end.

(** One iteration of the loop of [startBlockTemplateListener]. *)
Definition feed_body (fuel : nat) : M (Step unit) :=
  feed_recover fuel ;; feed_select.

(** [blockReadyChan := make(chan bool)]: no sender is waiting yet. *)
Definition makeBlockReadyChan : M unit := fun s => (Ret tt, set_chan [] s).

(** [startBlockTemplateListener] *)
Definition startBlockTemplateListener (fuel : nat) : M unit :=
  makeBlockReadyChan ;;
  err <- pyrind_RegisterForNewBlockTemplateNotifications ;;
  match err with
  | Some _ => log Error msgRegister None
  | None => ret tt
  end ;;
  ks <- getApi ;;
  time_NewTicker (blockWaitTime ks) ;;
  for_ fuel (feed_body fuel).

Definition msgStats : string :=
  "failed to get network hashrate from pyrin, prom stats will be out of date".
Definition msgStatsCancelled : string :=
  "context cancelled, stopping stats thread".
Definition indexOutOfRange : string :=
  "index out of range [0] with length 0".

(** The case [<-ticker.C] of the stats loop. *)
Definition stats_tick : M (Step unit) :=
  dagResponse <- pyrind_GetBlockDAGInfo ;;
  match dagResponse with
  | inr err => log Warn msgStats (Some err) ;; ret Continue
  | inl dag =>
      match TipHashes dag with
      | [] => panic indexOutOfRange
      | tip :: _ =>
          response <- pyrind_EstimateNetworkHashesPerSecond tip 1000 ;;
          match response with
          | inr err => log Warn msgStats (Some err) ;; ret Continue
          | inl est =>
              emit (RecordNetworkStats (NetworkHashesPerSecond est)
                      (BlockCount dag) (Difficulty dag)) ;;
              ret Continue
          end
      end
  end.

(** One iteration of the loop of [startStatsThread]. *)
Definition stats_body : M (Step unit) :=
  c <- select [Done; TickerC] ;;
  match c with
  | Done => log Warn msgStatsCancelled None ;; ret (Break tt)
  | _ => stats_tick
  end.

(** [startStatsThread] *)
Definition startStatsThread (fuel : nat) : M unit :=
  time_NewTicker (30 * Second) ;;
  for_ fuel stats_body.

(** [Start]: the result of [waitForSync] is dropped, then the two
    goroutines are launched; [Start] has no result of its own. *)
Definition Start (fuel : nat) : M unit :=
  _ <- waitForSync fuel true ;;
  emit (Go "startBlockTemplateListener") ;;
  emit (Go "startStatsThread").

Definition msgTemplate : string :=
  "failed fetching new block template from pyrin".

(** [GetBlockTemplate]; [version] is a constant of the package that is
    declared in another file. *)
Definition PyrinApi_GetBlockTemplate (version : string)
  (client : StratumContext) : M (result BlockTemplate) :=
  r <- pyrind_GetBlockTemplate (WalletAddr client)
         (String.append "'"
            (String.append (RemoteApp client)
               (String.append "' via pyrin-network/pyrin-stratum-bridge_"
                  version))) ;;
  match r with
  | inr err => ret (inr (Wrap err msgTemplate))
  | inl template => ret (inl template)
  end.

(** ** Running a goroutine *)

(** A node that answers nothing and a context that is never cancelled;
    scenarios are built from it with the setters. *)
Definition silent : Node :=
  {| infoQ := []; dagQ := []; hashQ := []; templateQ := [];
     registerQ := []; reconnectQ := []; dialQ := []; pickQ := [];
     cancelAt := None; pushAt := [] |}.

Definition set_cancelAt (c : option Z) (n : Node) : Node :=
  {| infoQ := infoQ n; dagQ := dagQ n; hashQ := hashQ n;
     templateQ := templateQ n;
     registerQ := registerQ n; reconnectQ := reconnectQ n; dialQ := dialQ n;
     pickQ := pickQ n; cancelAt := c; pushAt := pushAt n |}.

Definition set_pushAt (p : list Z) (n : Node) : Node :=
  {| infoQ := infoQ n; dagQ := dagQ n; hashQ := hashQ n;
     templateQ := templateQ n;
     registerQ := registerQ n; reconnectQ := reconnectQ n; dialQ := dialQ n;
     pickQ := pickQ n; cancelAt := cancelAt n; pushAt := p |}.

(** The goroutine starts at instant 0 with an empty trace; its ticker
    and channel are made by the code. *)
Definition boot (ks : PyrinApi) (n : Node) : State :=
  {| api := ks; node := n; now := 0; trace := [];
     ticker := {| period := 0; next := 0; slot := false |};
     blockReadyChan := [] |}.

(** The manager that [NewPyrinApi addr wait] returns. *)
Definition manager (addr : string) (wait : Duration) : PyrinApi :=
  {| address := addr; blockWaitTime := wait;
     pyrind := Some (Client addr); connected := true |}.

Definition synced : result GetInfoResponse := inl {| IsSynced := true |}.
Definition unsynced : result GetInfoResponse := inl {| IsSynced := false |}.
Definition failed (err : error) : result GetInfoResponse := inr err.

(** ** Reading a trace *)

(** The sleeps of a trace, in order. *)
Definition sleeps (tr : list (Z * Event)) : list Duration :=
  flat_map (fun te => match snd te with Sleep d => [d] | _ => [] end) tr.

(** The calls on the node of a trace, in order. *)
Definition rpcs (tr : list (Z * Event)) : list Call :=
  flat_map (fun te => match snd te with Rpc c => [c] | _ => [] end) tr.

(** The instants of the work-ready callbacks of a trace. *)
Definition callbacks (tr : list (Z * Event)) : list Z :=
  flat_map (fun te => match snd te with BlockReadyCb => [fst te] | _ => [] end)
    tr.

(** The channels the [select]s of a trace received from. *)
Definition recvs (tr : list (Z * Event)) : list Chan :=
  flat_map (fun te => match snd te with Recv c => [c] | _ => [] end) tr.

(** The samples handed to [RecordNetworkStats]. *)
Definition samples (tr : list (Z * Event)) : list (Z * Z * float64) :=
  flat_map (fun te => match snd te with
                      | RecordNetworkStats h b d => [(h, b, d)]
                      | _ => []
                      end) tr.

(** The goroutines launched. *)
Definition launched (tr : list (Z * Event)) : list string :=
  flat_map (fun te => match snd te with Go f => [f] | _ => [] end) tr.

(** * The vocabulary of the properties *)

(** ** States that the methods reach *)

(** The state after a query that found the node unsynced and the
    back-off that follows it. *)
Definition afterUnsynced (q : list (result GetInfoResponse)) (s : State)
  : State :=
  set_now (now s + 5 * Second)
    (record (Sleep (5 * Second))
       (record (Log Warn msgNotSynced None)
          (record (Rpc GetInfo) (set_node (set_infoQ q (node s)) s)))).

(** The state after [m] such rounds, the queue being left at [q]. *)
Fixpoint afterRounds (m : nat) (q : list (result GetInfoResponse)) (s : State)
  : State :=
  match m with
  | O => s
  | S k => afterRounds k q (afterUnsynced (repeat unsynced k ++ q) s)
  end.

(** The log line of a verbose call. *)
Definition noted (verbose : bool) (msg : string) (s : State) : State :=
  if verbose then record (Log Info msg None) s else s.

(** The state after a query that is answered from the queue. *)
Definition answered (q : list (result GetInfoResponse)) (s : State) : State :=
  record (Rpc GetInfo) (set_node (set_infoQ q (node s)) s).

(** The state after the DAG info query of a tick. *)
Definition askedDag (q : list (result GetBlockDAGInfoResponse)) (s : State)
  : State :=
  record (Rpc GetBlockDAGInfo) (set_node (set_dagQ q (node s)) s).

(** The state after the estimate query of a tick. *)
Definition askedHash (tip : string)
  (h : list (result EstimateNetworkHashesPerSecondResponse)) (s : State)
  : State :=
  record (Rpc (EstimateNetworkHashesPerSecond tip 1000))
    (set_node (set_hashQ h (node s)) s).

(** The cases of the select of the feed, in the order of the source. *)
Definition feedCases : list Chan := [Done; BlockReadyChan; TickerC].

(** The state in which the select of an iteration returns, having woken
    up at [t] and drawn the case [c]. *)
Definition woken (c : Chan) (t : Z) (q : list nat) (s : State) : State :=
  receive c t (set_node (set_pickQ q (node s)) s).

(** The state after the push case: the callback, then the reset. *)
Definition afterPush (s : State) : State :=
  record (TickerReset (blockWaitTime (api s)))
    (set_ticker (resetTicker (now s) (blockWaitTime (api s)) (ticker s))
       (record BlockReadyCb s)).

(** The state in which the loop starts when the registration failed with
    the channel just made: the failure is logged, the ticker runs and no
    sender will ever wait on the channel. *)
Definition fallbackOnly (q : list (option error)) (s : State) : State :=
  set_ticker (newTicker (now s) (blockWaitTime (api s)))
    (record (Log Error msgRegister None)
       (record (Rpc RegisterForNewBlockTemplateNotifications)
          (set_node (set_registerQ q (node s)) (set_chan [] s)))).

(** The state after the sleep that follows a failed reconnection. *)
Definition afterFailedReconnect (err : error) (s : State) : State :=
  set_now (now s + 5 * Second)
    (record (Sleep (5 * Second))
       (record (Log Error msgReconnectError (Some err)) s)).

(** ** More readings of a trace *)

(** The instants at which a trace received a tick. *)
Definition ticks (tr : list (Z * Event)) : list Z :=
  flat_map (fun te => match snd te with
                      | Recv TickerC => [fst te]
                      | _ => []
                      end) tr.

(** No receive of a trace is that of the cancellation. *)
Definition noDone (d : list (Z * Event)) : Prop := ~ In Done (recvs d).

(** Events of calls, logs and sleeps. *)
Definition plain (e : Event) : Prop :=
  match e with
  | Rpc _ | Log _ _ _ | Sleep _ => True
  | _ => False
  end.

(** What is added to a trace is driven by the timer alone: callbacks at
    the instants ticks were received, nothing received from the
    notification channel. *)
Definition timerDriven (d : list (Z * Event)) : Prop :=
  callbacks d = ticks d /\ ~ In BlockReadyChan (recvs d).

(** No tick of a trace was received before [T + W]. *)
Definition lateTicks (T W : Z) (d : list (Z * Event)) : Prop :=
  Forall (fun t => T + W <= t) (ticks d).

(** ** Relations between the state before and the state after *)

(** A computation keeps the relation [R] between the state it starts in
    and the state it leaves. *)
Definition preserves (R : State -> State -> Prop) {A} (m : M A) : Prop :=
  forall s, R s (snd (m s)).

(** The field [connected] is what it was. *)
Definition sameConnected (s s' : State) : Prop :=
  connected (api s') = connected (api s).

Abbreviation keepsConnected := (preserves sameConnected).

(** The state moved on by calls, logs and sleeps only: the ticker, the
    channel and the context are as they were, and the client is still
    there if it was. *)
Record Quiet (s s' : State) : Prop := {
  quiet_trace :
    exists d, trace s' = trace s ++ d /\ Forall (fun te => plain (snd te)) d;
  quiet_ticker : ticker s' = ticker s;
  quiet_chan : blockReadyChan s' = blockReadyChan s;
  quiet_cancel : cancelAt (node s') = cancelAt (node s);
  quiet_pick : pickQ (node s') = pickQ (node s);
  quiet_now : now s <= now s';
  quiet_wait : blockWaitTime (api s') = blockWaitTime (api s);
  quiet_client : pyrind (api s) <> None -> pyrind (api s') <> None
}.

Abbreviation quiet := (preserves Quiet).

(** The trace has grown, by no receive and no callback. *)
Definition Silent (s s' : State) : Prop :=
  exists d, trace s' = trace s ++ d /\ recvs d = [] /\ callbacks d = [].

Abbreviation silent_ := (preserves Silent).

(** The loop went on without taking the cancellation. *)
Definition goesOn (s s' : State) : Prop :=
  exists d, trace s' = trace s ++ d /\ noDone d.

(** A goroutine returns exactly when it takes the cancellation, and
    taking it is the last thing it does but for the log line [msg]. *)
Definition returnsOnDone (msg : string) (s : State) (o : Outcome unit)
  (s' : State) : Prop :=
  exists d,
    trace s' = trace s ++ d /\
    ((o = Ret tt /\
      exists d0 t,
        d = d0 ++ [(t, Recv Done); (t, Log Warn msg None)] /\ noDone d0) \/
     (o <> Ret tt /\ noDone d)).

(** A computation that does not panic when the client is there. *)
Definition safe {A} (m : M A) : Prop :=
  forall s msg, pyrind (api s) <> None -> fst (m s) <> Panic msg.

(** The result of a loop, from that of the iteration that ends it. *)
Definition ended {A} (o : Outcome (Step A)) : Outcome A :=
  match o with
  | Ret (Break a) => Ret a
  | Ret Continue => Pending
  | Panic msg => Panic msg
  | Pending => Pending
  end.

(** No sender waits on the channel, the client is there and the period
    of the ticker is positive. *)
Definition timerOnly (s : State) : Prop :=
  blockReadyChan s = [] /\ pyrind (api s) <> None /\
  0 < blockWaitTime (api s).

(** An iteration, and a whole run, of the feed when no sender waits on
    the channel: they are driven by the timer alone, and the run neither
    panics nor returns without having taken the cancellation. *)
Definition TimerLoop (s s' : State) : Prop :=
  timerOnly s ->
  timerOnly s' /\ exists d, trace s' = trace s ++ d /\ timerDriven d.

Definition TimerEnd (s : State) (o : Outcome unit) (s' : State) : Prop :=
  timerOnly s ->
  exists d,
    trace s' = trace s ++ d /\ timerDriven d /\
    (forall msg, o <> Panic msg) /\
    (o = Ret tt -> In Done (recvs d)).

(** A notification was taken at the instant [T], the period being [W].
    From then on: the clock is past [T] and, until the instant [T + W],
    the ticker holds no tick and is due no earlier than [T + W]. *)
Definition rearmed (T W : Z) (s : State) : Prop :=
  blockWaitTime (api s) = W /\ T <= now s /\
  (T + W <= now s \/
   (slot (ticker s) = false /\ T + W <= next (ticker s))).

(** An iteration, and a whole run, of the feed from a re-armed state:
    no tick is received before [T + W]. *)
Definition RearmedLoop (T W : Z) (s s' : State) : Prop :=
  rearmed T W s ->
  rearmed T W s' /\ exists d, trace s' = trace s ++ d /\ lateTicks T W d.

Definition RearmedEnd (T W : Z) (s : State) (o : Outcome unit) (s' : State)
  : Prop :=
  rearmed T W s -> exists d, trace s' = trace s ++ d /\ lateTicks T W d.

(** ** The ways of a tick and of an iteration *)

(** An answer of the node that is not an error. *)
Definition answers (r : result GetInfoResponse) : Prop :=
  match r with inl _ => True | inr _ => False end.

(** The six ways a tick can go, by what the queues hold. *)
Inductive TickCase (s : State) : Outcome (Step unit) * State -> Prop :=
| TickDagUnanswered :
    dagQ (node s) = [] -> TickCase s (Pending, s)
| TickDagFailed err q :
    dagQ (node s) = inr err :: q ->
    TickCase s (Ret Continue,
                record (Log Warn msgStats (Some err)) (askedDag q s))
| TickNoTip dag q :
    dagQ (node s) = inl dag :: q -> TipHashes dag = [] ->
    TickCase s (Panic indexOutOfRange, askedDag q s)
| TickEstimateUnanswered dag q tip tips :
    dagQ (node s) = inl dag :: q -> TipHashes dag = tip :: tips ->
    hashQ (node s) = [] ->
    TickCase s (Pending, askedDag q s)
| TickEstimateFailed dag q tip tips err h :
    dagQ (node s) = inl dag :: q -> TipHashes dag = tip :: tips ->
    hashQ (node s) = inr err :: h ->
    TickCase s (Ret Continue,
                record (Log Warn msgStats (Some err))
                  (askedHash tip h (askedDag q s)))
| TickSample dag q tip tips est h :
    dagQ (node s) = inl dag :: q -> TipHashes dag = tip :: tips ->
    hashQ (node s) = inl est :: h ->
    TickCase s (Ret Continue,
                record (RecordNetworkStats (NetworkHashesPerSecond est)
                          (BlockCount dag) (Difficulty dag))
                  (askedHash tip h (askedDag q s))).

(** The ways an iteration of the feed can go: it does not get through
    its recovery or its select; or its select takes the cancellation,
    a tick, or a notification. *)
Inductive Iter (s : State) : Outcome (Step unit) -> State -> Prop :=
| IterStuck o s1 :
    Quiet s s1 ->
    o = Pending \/ (exists msg, o = Panic msg) ->
    Iter s o s1
| IterDone s1 t n q :
    Quiet s s1 ->
    wakeAt feedCases s1 = Some t -> pickQ (node s1) = n :: q ->
    isReady s1 t Done = true ->
    Iter s (Ret (Break tt))
      (record (Log Warn msgFeedCancelled None) (woken Done t q s1))
| IterTick s1 t n q :
    Quiet s s1 ->
    wakeAt feedCases s1 = Some t -> pickQ (node s1) = n :: q ->
    isReady s1 t TickerC = true ->
    Iter s (Ret Continue) (record BlockReadyCb (woken TickerC t q s1))
| IterPush s1 t n q :
    Quiet s s1 ->
    wakeAt feedCases s1 = Some t -> pickQ (node s1) = n :: q ->
    isReady s1 t BlockReadyChan = true ->
    0 < blockWaitTime (api s1) ->
    Iter s (Ret Continue) (afterPush (woken BlockReadyChan t q s1))
| IterPushPanic s1 t n q :
    Quiet s s1 ->
    wakeAt feedCases s1 = Some t -> pickQ (node s1) = n :: q ->
    isReady s1 t BlockReadyChan = true ->
    blockWaitTime (api s1) <= 0 ->
    Iter s (Panic nonPositiveReset)
      (record BlockReadyCb (woken BlockReadyChan t q s1)).

(** ** Scenarios *)

(** A manager on a node that answers "not synced", then fails. *)
Definition lagThenFailure : State :=
  boot (manager "127.0.0.1:13110" (30 * Second))
    (set_infoQ [unsynced; failed "EOF"; synced] silent).

(** A manager on a node whose first two queries fail and whose third
    says "synced". *)
Definition failsTwiceThenSynced : State :=
  boot (manager "127.0.0.1:13110" (30 * Second))
    (set_infoQ [failed "EOF"; failed "EOF"; synced] silent).

(** A manager on a node that says "not synced" twice, then "synced". *)
Definition unsyncedTwiceThenSynced : State :=
  boot (manager "127.0.0.1:13110" (30 * Second))
    (set_infoQ [unsynced; unsynced; synced] silent).

(** A node that cannot be reached when the bridge starts, and one that is
    synced. *)
Definition unreachableAtStartup : State :=
  boot (manager "127.0.0.1:13110" (30 * Second))
    (set_infoQ [failed "connection refused"] silent).

Definition syncedAtStartup : State :=
  boot (manager "127.0.0.1:13110" (30 * Second))
    (set_infoQ [synced] silent).

(** A manager whose node answers the DAG info and then fails to estimate
    the hash rate. *)
Definition estimateFails : State :=
  boot (manager "127.0.0.1:13110" (30 * Second))
    (set_hashQ [inr "timeout"]
       (set_dagQ [inl {| TipHashes := ["tip0"]; BlockCount := 42;
                         Difficulty := 7 |}] silent)).

(** A manager whose node reports a DAG without tips. *)
Definition noTips : State :=
  boot (manager "127.0.0.1:13110" (30 * Second))
    (set_dagQ [inl {| TipHashes := []; BlockCount := 1; Difficulty := 2 |}]
       silent).

(** A manager whose node refuses the reconnection. *)
Definition reconnectRefused : State :=
  boot (manager "127.0.0.1:13110" (30 * Second))
    (set_reconnectQ [Some "connection refused"] silent).

(** A context cancelled one second after the feed starts, while
    [waitForSync] is waiting for a node that takes thirty-five seconds
    to sync; the ticker of thirty seconds fires meanwhile.  The select
    draws the second of its ready cases. *)
Definition cancelledWhileSyncing : State :=
  boot (manager "127.0.0.1:13110" (30 * Second))
    (set_cancelAt (Some (1 * Second))
       (set_pickQ [1; 0]%nat
          (set_registerQ [None]
             (set_infoQ [unsynced; unsynced; unsynced; unsynced; unsynced;
                         unsynced; unsynced; synced; synced] silent)))).

(** A feed that reaches its select two seconds after the cancellation,
    twenty-eight before the next tick, no notification waiting. *)
Definition cancelledAndIdle : State :=
  set_now (2 * Second)
    (set_ticker (newTicker 0 (30 * Second))
       (boot (manager "127.0.0.1:13110" (30 * Second))
          (set_cancelAt (Some (1 * Second)) (set_pickQ [7%nat] silent)))).

(** A manager whose node rejects the registration and is synced; the
    context is never cancelled and the select is reached twice. *)
Definition registrationRejected : State :=
  boot (manager "127.0.0.1:13110" (30 * Second))
    (set_pickQ [0; 0]%nat
       (set_registerQ [Some "not supported"]
          (set_infoQ [synced; synced; synced] silent))).

(** A feed on a node that cannot be reached: the sync check fails and so
    does the reconnection. *)
Definition nodeDown : State :=
  boot (manager "127.0.0.1:13110" (30 * Second))
    (set_pickQ [0%nat]
       (set_reconnectQ [Some "connection refused"]
          (set_registerQ [None]
             (set_infoQ [failed "EOF"] silent)))).

(** The feed at the head of its loop, its ticker started at instant 0,
    on the node of [nodeDown]. *)
Definition nodeDownInLoop : State :=
  set_ticker (newTicker 0 (30 * Second)) nodeDown.

(** A synced node that sends one notification, at 5 s. *)
Definition pushAtFive : State :=
  boot (manager "127.0.0.1:13110" (30 * Second))
    (set_pushAt [5 * Second]
       (set_pickQ [0; 0; 0]%nat
          (set_registerQ [None]
             (set_infoQ [synced; synced; synced] silent)))).

(** A feed with a period of 3 s.  The node is not synced at first, so
    the first [waitForSync] sleeps until 5 s; the ticker fires at 3 s
    and a notification is sent at 4 s.  At 5 s the select finds both
    ready and draws the first of them, the notification. *)
Definition pushAfterTick : State :=
  boot (manager "127.0.0.1:13110" (3 * Second))
    (set_pushAt [4 * Second]
       (set_pickQ [0; 0]%nat
          (set_registerQ [None]
             (set_infoQ [unsynced; synced; synced] silent)))).

(** * The vocabulary of further properties *)

(** ** Further readings of a trace *)

(** The instants at which a trace received a notification. *)
Definition pushes (tr : list (Z * Event)) : list Z :=
  flat_map (fun te => match snd te with
                      | Recv BlockReadyChan => [fst te]
                      | _ => []
                      end) tr.

(** The instants at which a select of a trace took a notification or a
    tick, in order. *)
Definition wakes (tr : list (Z * Event)) : list Z :=
  flat_map (fun te => match snd te with
                      | Recv BlockReadyChan | Recv TickerC => [fst te]
                      | _ => []
                      end) tr.

(** The instants at which a trace reset the ticker. *)
Definition resets (tr : list (Z * Event)) : list Z :=
  flat_map (fun te => match snd te with
                      | TickerReset _ => [fst te]
                      | _ => []
                      end) tr.

(** A trace without the lines logged at the level Info. *)
Definition withoutInfo (tr : list (Z * Event)) : list (Z * Event) :=
  filter (fun te => match snd te with
                    | Log Info _ _ => false
                    | _ => true
                    end) tr.

(** The calls of the stats poller on the node. *)
Definition statsCall (c : Call) : Prop :=
  match c with
  | GetBlockDAGInfo => True
  | EstimateNetworkHashesPerSecond _ window => window = 1000
  | _ => False
  end.

(** The instants [t + w], [t + 2w], ..., [t + n w]. *)
Definition everyPeriod (t w : Z) (n : nat) : list Z :=
  map (fun k => t + w * Z.of_nat k) (seq 1 n).

(** The addresses a trace dialled. *)
Definition dials (tr : list (Z * Event)) : list string :=
  flat_map (fun te => match snd te with
                      | Rpc (NewRPCClient a) => [a]
                      | _ => []
                      end) tr.

(** ** Further relations between the state before and the state after *)

(** The manager is what it was, if it had its client. *)
Definition Kept (s s' : State) : Prop :=
  pyrind (api s) <> None -> api s' = api s.

(** The manager has a client and nothing was dialled on the way. *)
Definition noDial (s s' : State) : Prop :=
  pyrind (api s') <> None /\
  exists d, trace s' = trace s ++ d /\ dials d = [].

(** So it is, if the manager had its client. *)
Definition Undialled (s s' : State) : Prop :=
  pyrind (api s) <> None -> noDial s s'.

(** Two states that differ by their Info lines at most. *)
Definition sameButInfo (s1 s2 : State) : Prop :=
  api s1 = api s2 /\ node s1 = node s2 /\ now s1 = now s2 /\
  ticker s1 = ticker s2 /\ blockReadyChan s1 = blockReadyChan s2 /\
  withoutInfo (trace s1) = withoutInfo (trace s2).

(** A DAG info answer that is an error or has a tip. *)
Definition tipped (r : result GetBlockDAGInfoResponse) : Prop :=
  match r with
  | inl dag => TipHashes dag <> []
  | inr _ => True
  end.

(** ** Further states *)

(** The state of the feed after its registration was answered [r]: a
    failure is logged, a success lets the notifications of the node
    wait on the channel. *)
Definition registered (r : option error) (q : list (option error))
  (s : State) : State :=
  let s1 := record (Rpc RegisterForNewBlockTemplateNotifications)
              (set_node (set_registerQ q (node s)) (set_chan [] s)) in
  match r with
  | Some _ => record (Log Error msgRegister None) s1
  | None => set_chan (pushAt (node s1)) s1
  end.

(** The state in which the loop of the feed starts. *)
Definition feedReady (r : option error) (q : list (option error))
  (s : State) : State :=
  set_ticker (newTicker (now s) (blockWaitTime (api s))) (registered r q s).

(** The instants of the sync checks of a trace. *)
Definition syncChecks (tr : list (Z * Event)) : list Z :=
  flat_map (fun te => match snd te with
                      | Rpc GetInfo => [fst te]
                      | _ => []
                      end) tr.

(** What the stats poller adds to a trace: no callback and no sleep, no
    call but its two queries, two calls and one sample a tick at most. *)
Definition polling (d : list (Z * Event)) : Prop :=
  callbacks d = [] /\ sleeps d = [] /\ Forall statsCall (rpcs d) /\
  (List.length (samples d) <= List.length (ticks d))%nat /\
  (List.length (rpcs d) <= 2 * List.length (ticks d))%nat.

(** A feed in its loop whose ticker was just armed for the period [w],
    on a node that passes the next [n] sync checks, sends no
    notification and whose context is not cancelled. *)
Definition steady (w : Duration) (n : nat) (s : State) : Prop :=
  pyrind (api s) <> None /\
  (exists rest, infoQ (node s) = repeat synced n ++ rest) /\
  (n <= List.length (pickQ (node s)))%nat /\
  cancelAt (node s) = None /\
  blockReadyChan s = [] /\
  ticker s = newTicker (now s) w.

(** ** Further scenarios *)

(** A node that accepts the connection and is synced. *)
Definition nodeAccepts : State :=
  boot (manager "127.0.0.1:13110" (30 * Second))
    (set_dialQ [inl (Client "127.0.0.1:13110")]
       (set_infoQ [synced] silent)).

(** A manager that lost its client, on a node that refuses one dial and
    accepts the next. *)
Definition clientLost : State :=
  boot (set_pyrind None (manager "127.0.0.1:13110" (30 * Second)))
    (set_reconnectQ [None]
       (set_dialQ [inr "connection refused";
                   inl (Client "127.0.0.1:13110")] silent)).

(** A manager whose node fails to hand out a template. *)
Definition templateFails : State :=
  boot (manager "127.0.0.1:13110" (30 * Second))
    (set_templateQ [inr "timeout"] silent).

(** A feed in its loop whose node fails the sync check and then accepts
    the reconnection. *)
Definition nodeComesBack : State :=
  set_ticker (newTicker 0 (30 * Second))
    (boot (manager "127.0.0.1:13110" (30 * Second))
       (set_pickQ [0%nat]
          (set_reconnectQ [None]
             (set_infoQ [failed "EOF"] silent)))).

(** A feed whose manager was given a wait time of zero. *)
Definition zeroWait : State :=
  boot (manager "127.0.0.1:13110" 0)
    (set_registerQ [None] (set_infoQ [synced] silent)).


(** A stats poller that takes two ticks: the first DAG query fails, the
    second is answered with a tip and so is the estimate. *)
Definition pollsTwice : State :=
  boot (manager "127.0.0.1:13110" (30 * Second))
    (set_pickQ [0; 0]%nat
       (set_hashQ [inl {| NetworkHashesPerSecond := 1000000 |}]
          (set_dagQ [inr "timeout";
                     inl {| TipHashes := ["tip0"]; BlockCount := 42;
                            Difficulty := 7 |}] silent))).

(** A synced node that sends no notification, with a feed that is never
    cancelled and a wait time of two seconds. *)
Definition quietNode : State :=
  boot (manager "127.0.0.1:13110" (2 * Second))
    (set_pickQ [0; 1; 2]%nat
       (set_registerQ [None]
          (set_infoQ [synced; synced; synced] silent))).

(** * Properties *)

(** ** The monad and the loop *)

Lemma bind_Ret {A B} (m : M A) (f : A -> M B) s a s' :
  m s = (Ret a, s') -> bind m f s = f a s'.
Proof. unfold bind; intros ->; reflexivity. Qed.

Lemma bind_Panic {A B} (m : M A) (f : A -> M B) s msg s' :
  m s = (Panic msg, s') -> bind m f s = (Panic msg, s').
Proof. unfold bind; intros ->; reflexivity. Qed.

Lemma bind_Pending {A B} (m : M A) (f : A -> M B) s s' :
  m s = (Pending, s') -> bind m f s = (Pending, s').
Proof. unfold bind; intros ->; reflexivity. Qed.

Lemma for_Continue {A} n (body : M (Step A)) s s' :
  body s = (Ret Continue, s') -> for_ (S n) body s = for_ n body s'.
Proof. intros H; cbn [for_]; rewrite (bind_Ret _ _ _ _ _ H); reflexivity. Qed.

Lemma for_Break {A} n (body : M (Step A)) s a s' :
  body s = (Ret (Break a), s') -> for_ (S n) body s = (Ret a, s').
Proof. intros H; cbn [for_]; rewrite (bind_Ret _ _ _ _ _ H); reflexivity. Qed.

(** ** waitForSync *)

Lemma waitForSync_body_unsynced s c q :
  pyrind (api s) = Some c ->
  infoQ (node s) = unsynced :: q ->
  waitForSync_body s = (Ret Continue, afterUnsynced q s).
Proof.
  intros Hc Hq.
  unfold waitForSync_body, pyrind_GetInfo, onClient, ask, bind, getApi.
  rewrite Hc, Hq. reflexivity.
Qed.

Lemma waitForSync_body_synced s c q :
  pyrind (api s) = Some c ->
  infoQ (node s) = synced :: q ->
  waitForSync_body s
  = (Ret (Break None),
     record (Rpc GetInfo) (set_node (set_infoQ q (node s)) s)).
Proof.
  intros Hc Hq.
  unfold waitForSync_body, pyrind_GetInfo, onClient, ask, bind, getApi.
  rewrite Hc, Hq. reflexivity.
Qed.

Lemma waitForSync_body_failed s c err q :
  pyrind (api s) = Some c ->
  infoQ (node s) = failed err :: q ->
  waitForSync_body s
  = (Ret (Break (Some (Wrap err (msgFetching (address (api s)))))),
     record (Rpc GetInfo) (set_node (set_infoQ q (node s)) s)).
Proof.
  intros Hc Hq.
  unfold waitForSync_body, pyrind_GetInfo, onClient, ask, bind, getApi.
  rewrite Hc, Hq. reflexivity.
Qed.

Lemma for_unsynced_rounds m : forall n q s c,
  pyrind (api s) = Some c ->
  infoQ (node s) = repeat unsynced m ++ q ->
  for_ (m + n) waitForSync_body s = for_ n waitForSync_body (afterRounds m q s).
Proof.
  induction m as [|m IH]; intros n q s c Hc Hq; [reflexivity|].
  cbn [repeat app] in Hq.
  replace (S m + n)%nat with (S (m + n)) by lia.
  rewrite (for_Continue _ _ _ _ (waitForSync_body_unsynced s c _ Hc Hq)).
  cbn [afterRounds].
  apply IH with (c := c); reflexivity || exact Hc.
Qed.

Lemma sleeps_app a b : sleeps (a ++ b) = sleeps a ++ sleeps b.
Proof. apply flat_map_app. Qed.

Lemma rpcs_app a b : rpcs (a ++ b) = rpcs a ++ rpcs b.
Proof. apply flat_map_app. Qed.

Lemma callbacks_app a b : callbacks (a ++ b) = callbacks a ++ callbacks b.
Proof. apply flat_map_app. Qed.

Lemma recvs_app a b : recvs (a ++ b) = recvs a ++ recvs b.
Proof. apply flat_map_app. Qed.

Lemma samples_app a b : samples (a ++ b) = samples a ++ samples b.
Proof. apply flat_map_app. Qed.

Lemma launched_app a b : launched (a ++ b) = launched a ++ launched b.
Proof. apply flat_map_app. Qed.

Lemma repeat_snoc {A} (x : A) n : repeat x n ++ [x] = x :: repeat x n.
Proof. induction n as [|n IH]; cbn; [reflexivity | now rewrite IH]. Qed.

(** What [m] rounds leave behind: the manager untouched, the queue at
    [q], [m] sleeps of five seconds and [m] queries. *)
Lemma afterRounds_spec m : forall q s,
  infoQ (node s) = repeat unsynced m ++ q ->
  api (afterRounds m q s) = api s /\
  infoQ (node (afterRounds m q s)) = q /\
  now (afterRounds m q s) = now s + 5 * Second * Z.of_nat m /\
  sleeps (trace (afterRounds m q s))
  = sleeps (trace s) ++ repeat (5 * Second) m /\
  rpcs (trace (afterRounds m q s)) = rpcs (trace s) ++ repeat GetInfo m /\
  callbacks (trace (afterRounds m q s)) = callbacks (trace s).
Proof.
  induction m as [|m IH]; intros q s Hq.
  - cbn [afterRounds repeat] in *. rewrite !app_nil_r.
    repeat split; try assumption; lia.
  - cbn [afterRounds].
    destruct (IH q (afterUnsynced (repeat unsynced m ++ q) s) eq_refl)
      as (Ha & Hq' & Hn & Hs & Hr & Hcb).
    rewrite Ha, Hq', Hn, Hs, Hr, Hcb.
    unfold afterUnsynced; cbn [api set_now record set_node now trace].
    rewrite !sleeps_app, !rpcs_app, !callbacks_app.
    cbn [sleeps rpcs callbacks flat_map snd fst app repeat].
    rewrite !app_nil_r, <- !app_assoc.
    cbn [app].
    repeat split; try reflexivity. lia.
Qed.

Lemma waitForSync_unfold fuel verbose s :
  waitForSync fuel verbose s
  = match for_ fuel waitForSync_body (noted verbose msgChecking s) with
    | (Ret (Some err), s') => (Ret (Some err), s')
    | (Ret None, s') => (Ret None, noted verbose msgSynced s')
    | (Panic msg, s') => (Panic msg, s')
    | (Pending, s') => (Pending, s')
    end.
Proof.
  unfold waitForSync, bind, noted, log, emit, ret.
  destruct verbose;
    (destruct (for_ fuel waitForSync_body _) as [[[e|]| |] s']; reflexivity).
Qed.

Lemma noted_api verbose msg s : api (noted verbose msg s) = api s.
Proof. destruct verbose; reflexivity. Qed.

Lemma noted_node verbose msg s : node (noted verbose msg s) = node s.
Proof. destruct verbose; reflexivity. Qed.

Lemma noted_now verbose msg s : now (noted verbose msg s) = now s.
Proof. destruct verbose; reflexivity. Qed.

Lemma noted_sleeps verbose msg s :
  sleeps (trace (noted verbose msg s)) = sleeps (trace s).
Proof.
  destruct verbose; [|reflexivity].
  cbn [noted record trace]. rewrite sleeps_app. apply app_nil_r.
Qed.

Lemma noted_rpcs verbose msg s :
  rpcs (trace (noted verbose msg s)) = rpcs (trace s).
Proof.
  destruct verbose; [|reflexivity].
  cbn [noted record trace]. rewrite rpcs_app. apply app_nil_r.
Qed.

(** [waitForSync] when the first answer that is not "unsynced" says
    "synced": it returns nil after that answer. *)
Lemma waitForSync_until_synced fuel verbose s c m q :
  pyrind (api s) = Some c ->
  (m < fuel)%nat ->
  infoQ (node s) = repeat unsynced m ++ synced :: q ->
  waitForSync fuel verbose s
  = (Ret None,
     noted verbose msgSynced
       (answered q
          (afterRounds m (synced :: q) (noted verbose msgChecking s)))).
Proof.
  intros Hc Hm Hq. rewrite waitForSync_unfold.
  replace fuel with (m + S (fuel - m - 1))%nat by lia.
  rewrite (for_unsynced_rounds m _ (synced :: q) _ c);
    [| now rewrite noted_api | now rewrite noted_node].
  set (s0 := noted verbose msgChecking s).
  assert (Hq0 : infoQ (node s0) = repeat unsynced m ++ synced :: q)
    by (unfold s0; now rewrite noted_node).
  destruct (afterRounds_spec m (synced :: q) s0 Hq0) as (Ha & Hq' & _).
  assert (Hb : waitForSync_body (afterRounds m (synced :: q) s0)
               = (Ret (Break None),
                  answered q (afterRounds m (synced :: q) s0))).
  { apply waitForSync_body_synced with (c := c); [|exact Hq'].
    rewrite Ha. unfold s0. now rewrite noted_api. }
  rewrite (for_Break _ _ _ _ _ Hb). reflexivity.
Qed.

(** [waitForSync] when the first answer that is not "unsynced" is an
    error: it returns that error, wrapped, after that answer. *)
Lemma waitForSync_until_failed fuel verbose s c m err q :
  pyrind (api s) = Some c ->
  (m < fuel)%nat ->
  infoQ (node s) = repeat unsynced m ++ failed err :: q ->
  waitForSync fuel verbose s
  = (Ret (Some (Wrap err (msgFetching (address (api s))))),
     answered q
       (afterRounds m (failed err :: q) (noted verbose msgChecking s))).
Proof.
  intros Hc Hm Hq. rewrite waitForSync_unfold.
  replace fuel with (m + S (fuel - m - 1))%nat by lia.
  rewrite (for_unsynced_rounds m _ (failed err :: q) _ c);
    [| now rewrite noted_api | now rewrite noted_node].
  set (s0 := noted verbose msgChecking s).
  assert (Hq0 : infoQ (node s0) = repeat unsynced m ++ failed err :: q)
    by (unfold s0; now rewrite noted_node).
  destruct (afterRounds_spec m (failed err :: q) s0 Hq0) as (Ha & Hq' & _).
  assert (Hb : waitForSync_body (afterRounds m (failed err :: q) s0)
               = (Ret (Break (Some (Wrap err (msgFetching (address (api s)))))),
                  answered q (afterRounds m (failed err :: q) s0))).
  { rewrite (waitForSync_body_failed _ c err q); [| |exact Hq'].
    - rewrite Ha. unfold s0. now rewrite noted_api.
    - rewrite Ha. unfold s0. now rewrite noted_api. }
  rewrite (for_Break _ _ _ _ _ Hb). reflexivity.
Qed.

(** What is observed of the state [answered q (afterRounds m ...)]. *)
Lemma answered_rounds_spec verbose s m r q :
  infoQ (node s) = repeat unsynced m ++ r :: q ->
  let s' := answered q (afterRounds m (r :: q) (noted verbose msgChecking s)) in
  api s' = api s /\
  infoQ (node s') = q /\
  now s' = now s + 5 * Second * Z.of_nat m /\
  rpcs (trace s') = rpcs (trace s) ++ repeat GetInfo (S m) /\
  sleeps (trace s') = sleeps (trace s) ++ repeat (5 * Second) m.
Proof.
  intros Hq s'.
  assert (Hq0 : infoQ (node (noted verbose msgChecking s))
                = repeat unsynced m ++ r :: q) by now rewrite noted_node.
  destruct (afterRounds_spec m (r :: q) _ Hq0) as (Ha & _ & Hn & Hs & Hr & _).
  unfold s', answered; cbn [api record set_node node now trace set_infoQ infoQ].
  rewrite Ha, Hn, rpcs_app, sleeps_app, Hs, Hr.
  rewrite noted_api, noted_now, noted_sleeps, noted_rpcs.
  cbn [rpcs sleeps flat_map snd app].
  rewrite app_nil_r, <- app_assoc, repeat_snoc.
  repeat split; reflexivity.
Qed.

(** As long as the node answers, the loop of [waitForSync] cannot end
    with an error nor panic. *)
Lemma for_waitForSync_body_no_error fuel : forall s c,
  pyrind (api s) = Some c ->
  Forall answers (infoQ (node s)) ->
  fst (for_ fuel waitForSync_body s) = Ret None \/
  fst (for_ fuel waitForSync_body s) = Pending.
Proof.
  induction fuel as [|fuel IH]; intros s c Hc Hq; [right; reflexivity|].
  destruct (infoQ (node s)) as [|r q] eqn:E.
  - right. cbn [for_]. unfold bind, waitForSync_body, bind, getApi,
      pyrind_GetInfo, onClient, bind, getApi, ask.
    rewrite Hc, E. reflexivity.
  - inversion Hq as [|r' q' Hr Hq']; subst.
    destruct r as [[[|]]|err]; [| |contradiction].
    + left.
      rewrite (for_Break _ _ _ _ _ (waitForSync_body_synced s c q Hc E)).
      reflexivity.
    + rewrite (for_Continue _ _ _ _ (waitForSync_body_unsynced s c q Hc E)).
      apply IH with (c := c); [exact Hc | exact Hq'].
Qed.

(** C4.  [waitForSync] queries the node in a loop.  The first query that
    fails ends the call at once with that error (wrapped with the
    address): no further query, no sleep after it.  A query answered
    "not synced" is followed by a sleep of five seconds and another
    query.  So a call during which the node always answers cannot end
    with an error: it returns nil, or it is still waiting. *)
Theorem waitForSync_propagates_errors_absorbs_lag :
  forall (fuel : nat) (verbose : bool) (s : State) (c : RPCClient)
         (m : nat) (q : list (result GetInfoResponse)),
    pyrind (api s) = Some c ->
    (m < fuel)%nat ->
    (forall err,
        infoQ (node s) = repeat unsynced m ++ failed err :: q ->
        exists s',
          waitForSync fuel verbose s
          = (Ret (Some (Wrap err (msgFetching (address (api s))))), s') /\
          infoQ (node s') = q /\
          rpcs (trace s') = rpcs (trace s) ++ repeat GetInfo (S m) /\
          sleeps (trace s') = sleeps (trace s) ++ repeat (5 * Second) m /\
          now s' = now s + 5 * Second * Z.of_nat m) /\
    (infoQ (node s) = repeat unsynced m ++ synced :: q ->
     exists s',
       waitForSync fuel verbose s = (Ret None, s') /\
       infoQ (node s') = q /\
       rpcs (trace s') = rpcs (trace s) ++ repeat GetInfo (S m) /\
       sleeps (trace s') = sleeps (trace s) ++ repeat (5 * Second) m /\
       now s' = now s + 5 * Second * Z.of_nat m) /\
    (Forall answers (infoQ (node s)) ->
     fst (waitForSync fuel verbose s) = Ret None \/
     fst (waitForSync fuel verbose s) = Pending).
Proof.
  intros fuel verbose s c m q Hc Hm. split; [|split].
  - intros err Hq.
    rewrite (waitForSync_until_failed fuel verbose s c m err q Hc Hm Hq).
    eexists; split; [reflexivity|].
    destruct (answered_rounds_spec verbose s m _ q Hq)
      as (_ & H1 & H2 & H3 & H4).
    auto.
  - intros Hq.
    rewrite (waitForSync_until_synced fuel verbose s c m q Hc Hm Hq).
    eexists; split; [reflexivity|].
    destruct (answered_rounds_spec verbose s m _ q Hq)
      as (_ & H1 & H2 & H3 & H4).
    rewrite noted_node, noted_rpcs, noted_sleeps, noted_now. auto.
  - intros Hq. rewrite waitForSync_unfold.
    destruct (for_waitForSync_body_no_error
                fuel (noted verbose msgChecking s) c) as [H|H].
    + now rewrite noted_api.
    + now rewrite noted_node.
    + destruct (for_ fuel waitForSync_body _) as [[[e|]| |] s']; cbn in *;
        try discriminate; auto.
    + destruct (for_ fuel waitForSync_body _) as [[[e|]| |] s']; cbn in *;
        try discriminate; auto.
Qed.

Lemma waitForSync_propagates_errors_absorbs_lag_witness :
  exists s',
    waitForSync 2 false lagThenFailure
    = (Ret (Some (Wrap "EOF" (msgFetching "127.0.0.1:13110"))), s') /\
    infoQ (node s') = [synced] /\
    rpcs (trace s') = [GetInfo; GetInfo] /\
    sleeps (trace s') = [5 * Second] /\
    now s' = 5 * Second.
Proof.
  assert (Hm : (1 < 2)%nat) by lia.
  exact (proj1 (waitForSync_propagates_errors_absorbs_lag
                  2 false lagThenFailure (Client "127.0.0.1:13110") 1 [synced]
                  eq_refl Hm) "EOF" eq_refl).
Defined.

(** ** Scenario C *)

(** C5, as stated, fails: when the first query fails, [waitForSync]
    returns that error after this one query; the two other answers are
    still in the queue and nothing was slept. *)
Lemma waitForSync_first_failure_returns :
  fst (waitForSync 3 false failsTwiceThenSynced)
  = Ret (Some (Wrap "EOF" (msgFetching "127.0.0.1:13110"))) /\
  infoQ (node (snd (waitForSync 3 false failsTwiceThenSynced)))
  = [failed "EOF"; synced] /\
  rpcs (trace (snd (waitForSync 3 false failsTwiceThenSynced))) = [GetInfo] /\
  sleeps (trace (snd (waitForSync 3 false failsTwiceThenSynced))) = [].
Proof. repeat split; reflexivity. Qed.

(** C5, amended.  If [GetInfo] answers "not synced" twice and then
    "synced" during one call of [waitForSync], the call returns nil, and
    only after the third query; two sleeps of five seconds precede the
    return. *)
Theorem waitForSync_unsynced_twice_then_synced :
  forall (fuel : nat) (verbose : bool) (s : State) (c : RPCClient)
         (q : list (result GetInfoResponse)),
    pyrind (api s) = Some c ->
    (2 < fuel)%nat ->
    infoQ (node s) = unsynced :: unsynced :: synced :: q ->
    exists s',
      waitForSync fuel verbose s = (Ret None, s') /\
      infoQ (node s') = q /\
      rpcs (trace s') = rpcs (trace s) ++ [GetInfo; GetInfo; GetInfo] /\
      sleeps (trace s') = sleeps (trace s) ++ [5 * Second; 5 * Second] /\
      now s' = now s + 10 * Second.
Proof.
  intros fuel verbose s c q Hc Hf Hq.
  change (unsynced :: unsynced :: synced :: q)
    with (repeat unsynced 2 ++ synced :: q) in Hq.
  rewrite (waitForSync_until_synced fuel verbose s c 2 q Hc Hf Hq).
  eexists; split; [reflexivity|].
  destruct (answered_rounds_spec verbose s 2 _ q Hq) as (_ & H1 & H2 & H3 & H4).
  rewrite noted_node, noted_rpcs, noted_sleeps, noted_now.
  repeat split; assumption.
Qed.

Lemma waitForSync_unsynced_twice_then_synced_witness :
  exists s',
    waitForSync 3 true unsyncedTwiceThenSynced = (Ret None, s') /\
    infoQ (node s') = [] /\
    rpcs (trace s') = rpcs [] ++ [GetInfo; GetInfo; GetInfo] /\
    sleeps (trace s') = sleeps [] ++ [5 * Second; 5 * Second] /\
    now s' = 0 + 10 * Second.
Proof.
  apply (waitForSync_unsynced_twice_then_synced
           3 true unsyncedTwiceThenSynced (Client "127.0.0.1:13110") []
           eq_refl); [lia | reflexivity].
Defined.

(** ** Start *)

(** C3, as stated, fails: with the node unreachable, [waitForSync]
    returns the connectivity error, and [Start] returns to its caller
    exactly what it returns on a synced node, with both goroutines
    launched. *)
Lemma Start_hides_unreachable_node :
  fst (waitForSync 1 true unreachableAtStartup)
  = Ret (Some (Wrap "connection refused" (msgFetching "127.0.0.1:13110"))) /\
  fst (Start 1 unreachableAtStartup) = Ret tt /\
  fst (Start 1 unreachableAtStartup) = fst (Start 1 syncedAtStartup) /\
  launched (trace (snd (Start 1 unreachableAtStartup)))
  = ["startBlockTemplateListener"; "startStatsThread"].
Proof. repeat split; reflexivity. Qed.

(** C3, amended.  [Start] first performs one blocking
    [waitForSync(verbose=true)] call and launches the two background
    tasks only once it has returned; what the call returned, nil or a
    connectivity error, is dropped: the tasks are launched all the same
    and [Start] returns nothing to its caller. *)
Theorem Start_waits_for_sync_then_launches :
  forall (fuel : nat) (s : State),
    match waitForSync fuel true s with
    | (Ret _, s1) =>
        Start fuel s
        = (Ret tt,
           record (Go "startStatsThread")
             (record (Go "startBlockTemplateListener") s1))
    | (Panic msg, s1) => Start fuel s = (Panic msg, s1)
    | (Pending, s1) => Start fuel s = (Pending, s1)
    end.
Proof.
  intros fuel s. unfold Start.
  destruct (waitForSync fuel true s) as [[r| |] s1] eqn:E.
  - rewrite (bind_Ret _ _ _ _ _ E). reflexivity.
  - apply bind_Panic, E.
  - apply bind_Pending, E.
Qed.

(** ** Calls on the client *)

Lemma onClient_ask {A} (q : Node -> list A) set call s c r rest :
  pyrind (api s) = Some c ->
  q (node s) = r :: rest ->
  onClient (ask q set call) s
  = (Ret r, record (Rpc call) (set_node (set rest (node s)) s)).
Proof.
  intros Hc Hq. unfold onClient, bind, getApi, ask. rewrite Hc, Hq.
  reflexivity.
Qed.

Lemma onClient_ask_empty {A} (q : Node -> list A) set call s c :
  pyrind (api s) = Some c ->
  q (node s) = [] ->
  onClient (ask q set call) s = (Pending, s).
Proof.
  intros Hc Hq. unfold onClient, bind, getApi, ask. rewrite Hc, Hq.
  reflexivity.
Qed.

Lemma onClient_nil {A} (m : M A) s :
  pyrind (api s) = None -> onClient m s = (Panic nilDeref, s).
Proof. intros Hc. unfold onClient, bind, getApi. rewrite Hc. reflexivity. Qed.

(** ** The stats poller *)

Lemma stats_tick_dag_failed s c err q :
  pyrind (api s) = Some c ->
  dagQ (node s) = inr err :: q ->
  stats_tick s
  = (Ret Continue, record (Log Warn msgStats (Some err)) (askedDag q s)).
Proof.
  intros Hc Hq. unfold stats_tick, pyrind_GetBlockDAGInfo.
  rewrite (bind_Ret _ _ _ _ _ (onClient_ask dagQ _ _ s c _ _ Hc Hq)).
  reflexivity.
Qed.

Lemma stats_tick_no_tip s c dag q :
  pyrind (api s) = Some c ->
  dagQ (node s) = inl dag :: q ->
  TipHashes dag = [] ->
  stats_tick s = (Panic indexOutOfRange, askedDag q s).
Proof.
  intros Hc Hq Ht. unfold stats_tick, pyrind_GetBlockDAGInfo.
  rewrite (bind_Ret _ _ _ _ _ (onClient_ask dagQ _ _ s c _ _ Hc Hq)).
  rewrite Ht. reflexivity.
Qed.

Lemma stats_tick_estimate_failed s c dag q tip tips err h :
  pyrind (api s) = Some c ->
  dagQ (node s) = inl dag :: q ->
  TipHashes dag = tip :: tips ->
  hashQ (node s) = inr err :: h ->
  stats_tick s
  = (Ret Continue,
     record (Log Warn msgStats (Some err)) (askedHash tip h (askedDag q s))).
Proof.
  intros Hc Hq Ht Hh. unfold stats_tick, pyrind_GetBlockDAGInfo.
  rewrite (bind_Ret _ _ _ _ _ (onClient_ask dagQ _ _ s c _ _ Hc Hq)).
  rewrite Ht. unfold pyrind_EstimateNetworkHashesPerSecond.
  erewrite bind_Ret
    by (apply (onClient_ask hashQ) with (c := c); [exact Hc | exact Hh]).
  reflexivity.
Qed.

Lemma stats_tick_sample s c dag q tip tips est h :
  pyrind (api s) = Some c ->
  dagQ (node s) = inl dag :: q ->
  TipHashes dag = tip :: tips ->
  hashQ (node s) = inl est :: h ->
  stats_tick s
  = (Ret Continue,
     record (RecordNetworkStats (NetworkHashesPerSecond est)
               (BlockCount dag) (Difficulty dag))
       (askedHash tip h (askedDag q s))).
Proof.
  intros Hc Hq Ht Hh. unfold stats_tick, pyrind_GetBlockDAGInfo.
  rewrite (bind_Ret _ _ _ _ _ (onClient_ask dagQ _ _ s c _ _ Hc Hq)).
  rewrite Ht. unfold pyrind_EstimateNetworkHashesPerSecond.
  erewrite bind_Ret
    by (apply (onClient_ask hashQ) with (c := c); [exact Hc | exact Hh]).
  reflexivity.
Qed.

Lemma stats_tick_dag_unanswered s c :
  pyrind (api s) = Some c ->
  dagQ (node s) = [] ->
  stats_tick s = (Pending, s).
Proof.
  intros Hc Hq. unfold stats_tick, pyrind_GetBlockDAGInfo.
  apply bind_Pending, onClient_ask_empty with (c := c); assumption.
Qed.

Lemma stats_tick_estimate_unanswered s c dag q tip tips :
  pyrind (api s) = Some c ->
  dagQ (node s) = inl dag :: q ->
  TipHashes dag = tip :: tips ->
  hashQ (node s) = [] ->
  stats_tick s = (Pending, askedDag q s).
Proof.
  intros Hc Hq Ht Hh. unfold stats_tick, pyrind_GetBlockDAGInfo.
  rewrite (bind_Ret _ _ _ _ _ (onClient_ask dagQ _ _ s c _ _ Hc Hq)).
  rewrite Ht. unfold pyrind_EstimateNetworkHashesPerSecond.
  apply bind_Pending, onClient_ask_empty with (c := c); assumption.
Qed.

Lemma stats_tick_cases s c :
  pyrind (api s) = Some c -> TickCase s (stats_tick s).
Proof.
  intros Hc.
  destruct (dagQ (node s)) as [|[dag|err] q] eqn:Ed.
  - rewrite (stats_tick_dag_unanswered s c Hc Ed).
    now apply TickDagUnanswered.
  - destruct (TipHashes dag) as [|tip tips] eqn:Et.
    + rewrite (stats_tick_no_tip s c dag q Hc Ed Et).
      now apply TickNoTip with (dag := dag).
    + destruct (hashQ (node s)) as [|[est|err] h] eqn:Eh.
      * rewrite (stats_tick_estimate_unanswered s c dag q tip tips Hc Ed Et Eh).
        now apply TickEstimateUnanswered
          with (dag := dag) (tip := tip) (tips := tips).
      * rewrite (stats_tick_sample s c dag q tip tips est h Hc Ed Et Eh).
        now apply TickSample with (tips := tips).
      * rewrite (stats_tick_estimate_failed
                   s c dag q tip tips err h Hc Ed Et Eh).
        now apply TickEstimateFailed with (dag := dag) (tips := tips).
  - rewrite (stats_tick_dag_failed s c err q Hc Ed). now apply TickDagFailed.
Qed.

(** C8.  A tick of the stats poller asks for the DAG info and then for
    the hash-rate estimate.  If either query fails, the failure is
    logged, nothing is asked again and the loop goes on to its next
    iteration; the tick has no error to return.  Only when both succeed
    is one sample (hashes per second, block count, difficulty) handed to
    [RecordNetworkStats].  The tick leaves the manager, the clock and
    the ticker as they were. *)
Theorem stats_tick_best_effort :
  forall (s : State) (c : RPCClient),
    pyrind (api s) = Some c ->
    (forall err q,
        dagQ (node s) = inr err :: q ->
        fst (stats_tick s) = Ret Continue /\
        trace (snd (stats_tick s))
        = trace s ++ [(now s, Rpc GetBlockDAGInfo);
                      (now s, Log Warn msgStats (Some err))]) /\
    (forall dag q tip tips err h,
        dagQ (node s) = inl dag :: q ->
        TipHashes dag = tip :: tips ->
        hashQ (node s) = inr err :: h ->
        fst (stats_tick s) = Ret Continue /\
        trace (snd (stats_tick s))
        = trace s ++ [(now s, Rpc GetBlockDAGInfo);
                      (now s, Rpc (EstimateNetworkHashesPerSecond tip 1000));
                      (now s, Log Warn msgStats (Some err))]) /\
    (forall dag q tip tips est h,
        dagQ (node s) = inl dag :: q ->
        TipHashes dag = tip :: tips ->
        hashQ (node s) = inl est :: h ->
        fst (stats_tick s) = Ret Continue /\
        trace (snd (stats_tick s))
        = trace s ++ [(now s, Rpc GetBlockDAGInfo);
                      (now s, Rpc (EstimateNetworkHashesPerSecond tip 1000));
                      (now s, RecordNetworkStats (NetworkHashesPerSecond est)
                                (BlockCount dag) (Difficulty dag))]) /\
    (samples (trace (snd (stats_tick s))) <> samples (trace s) ->
     exists dag q tip tips est h,
       dagQ (node s) = inl dag :: q /\
       TipHashes dag = tip :: tips /\
       hashQ (node s) = inl est :: h) /\
    api (snd (stats_tick s)) = api s /\
    now (snd (stats_tick s)) = now s /\
    ticker (snd (stats_tick s)) = ticker s.
Proof.
  intros s c Hc. repeat apply conj.
  - intros err q Hq. rewrite (stats_tick_dag_failed s c err q Hc Hq).
    split; [reflexivity|].
    cbn [snd record askedDag trace set_node now]. now rewrite <- app_assoc.
  - intros dag q tip tips err h Hq Ht Hh.
    rewrite (stats_tick_estimate_failed s c dag q tip tips err h Hc Hq Ht Hh).
    split; [reflexivity|].
    cbn [snd record askedDag askedHash trace set_node now].
    now rewrite <- !app_assoc.
  - intros dag q tip tips est h Hq Ht Hh.
    rewrite (stats_tick_sample s c dag q tip tips est h Hc Hq Ht Hh).
    split; [reflexivity|].
    cbn [snd record askedDag askedHash trace set_node now].
    now rewrite <- !app_assoc.
  - intros Hs.
    destruct (stats_tick_cases s c Hc)
      as [E|err q E|dag q E Et|dag q tip tips E Et Eh
          |dag q tip tips err h E Et Eh|dag q tip tips est h E Et Eh];
      cbn [snd record askedDag askedHash trace set_node] in Hs;
      try (exfalso; apply Hs; rewrite ?samples_app; cbn [samples flat_map snd];
           now rewrite ?app_nil_r).
    exists dag, q, tip, tips, est, h. auto.
  - destruct (stats_tick_cases s c Hc); reflexivity.
  - destruct (stats_tick_cases s c Hc); reflexivity.
  - destruct (stats_tick_cases s c Hc); reflexivity.
Qed.

Lemma stats_tick_best_effort_witness :
  fst (stats_tick estimateFails) = Ret Continue /\
  trace (snd (stats_tick estimateFails))
  = [] ++ [(0, Rpc GetBlockDAGInfo);
           (0, Rpc (EstimateNetworkHashesPerSecond "tip0" 1000));
           (0, Log Warn msgStats (Some "timeout"))].
Proof.
  exact (proj1 (proj2 (stats_tick_best_effort estimateFails
                         (Client "127.0.0.1:13110") eq_refl))
           _ [] "tip0" [] "timeout" [] eq_refl eq_refl eq_refl).
Defined.

(** C10.  A tick that got the DAG info takes [TipHashes[0]] without
    looking at the length of the list.  With at least one tip, the first
    one is what the estimate is asked for.  With no tip the tick has no
    result: it panics on the index right after the DAG info query, and
    the loop of the stats poller panics with it. *)
Theorem stats_tick_indexes_first_tip_unguarded :
  forall (s : State) (c : RPCClient) (dag : GetBlockDAGInfoResponse)
         (q : list (result GetBlockDAGInfoResponse)),
    pyrind (api s) = Some c ->
    dagQ (node s) = inl dag :: q ->
    (TipHashes dag = [] ->
     fst (stats_tick s) = Panic indexOutOfRange /\
     trace (snd (stats_tick s)) = trace s ++ [(now s, Rpc GetBlockDAGInfo)] /\
     forall n s0,
       select [Done; TickerC] s0 = (Ret TickerC, s) ->
       fst (for_ (S n) stats_body s0) = Panic indexOutOfRange) /\
    (forall tip tips r h,
        TipHashes dag = tip :: tips ->
        hashQ (node s) = r :: h ->
        fst (stats_tick s) = Ret Continue /\
        rpcs (trace (snd (stats_tick s)))
        = rpcs (trace s)
          ++ [GetBlockDAGInfo; EstimateNetworkHashesPerSecond tip 1000]).
Proof.
  intros s c dag q Hc Hq. split.
  - intros Ht. rewrite (stats_tick_no_tip s c dag q Hc Hq Ht).
    repeat split.
    intros n s0 Hsel. cbn [for_].
    assert (Hb : stats_body s0 = (Panic indexOutOfRange, askedDag q s)).
    { unfold stats_body. rewrite (bind_Ret _ _ _ _ _ Hsel).
      apply (stats_tick_no_tip s c dag q Hc Hq Ht). }
    rewrite (bind_Panic _ _ _ _ _ Hb). reflexivity.
  - intros tip tips [est|err] h Ht Hh.
    + rewrite (stats_tick_sample s c dag q tip tips est h Hc Hq Ht Hh).
      split; [reflexivity|].
      cbn [snd record askedDag askedHash trace set_node].
      rewrite !rpcs_app. cbn [rpcs flat_map snd app].
      now rewrite app_nil_r, <- app_assoc.
    + rewrite (stats_tick_estimate_failed s c dag q tip tips err h Hc Hq Ht Hh).
      split; [reflexivity|].
      cbn [snd record askedDag askedHash trace set_node].
      rewrite !rpcs_app. cbn [rpcs flat_map snd app].
      now rewrite app_nil_r, <- app_assoc.
Qed.

Lemma stats_tick_indexes_first_tip_unguarded_witness :
  fst (stats_tick noTips) = Panic indexOutOfRange /\
  trace (snd (stats_tick noTips)) = [] ++ [(0, Rpc GetBlockDAGInfo)].
Proof.
  destruct (proj1 (stats_tick_indexes_first_tip_unguarded noTips
                     (Client "127.0.0.1:13110") _ [] eq_refl eq_refl) eq_refl)
    as (H1 & H2 & _).
  exact (conj H1 H2).
Defined.

(** ** What a computation leaves in place

    A relation between the state before and the state after, reflexive
    and transitive, is kept by a computation when every step keeps it. *)
Section Preserves.

Variable R : State -> State -> Prop.
Hypothesis R_refl : forall s, R s s.
Hypothesis R_trans : forall s1 s2 s3, R s1 s2 -> R s2 s3 -> R s1 s3.

Lemma preserves_ret {A} (a : A) : preserves R (ret a).
Proof. intros s; apply R_refl. Qed.

Lemma preserves_panic {A} msg : preserves R (@panic A msg).
Proof. intros s; apply R_refl. Qed.

Lemma preserves_pending {A} : preserves R (@pending A).
Proof. intros s; apply R_refl. Qed.

Lemma preserves_getApi : preserves R getApi.
Proof. intros s; apply R_refl. Qed.

Lemma preserves_bind {A B} (m : M A) (f : A -> M B) :
  preserves R m -> (forall a, preserves R (f a)) -> preserves R (bind m f).
Proof.
  intros Hm Hf s. unfold bind. specialize (Hm s).
  destruct (m s) as [[a|msg|] s1]; cbn [snd] in *; [|exact Hm|exact Hm].
  apply R_trans with s1; [exact Hm | apply Hf].
Qed.

Lemma preserves_for {A} (body : M (Step A)) :
  preserves R body -> forall n, preserves R (for_ n body).
Proof.
  intros Hb n; induction n as [|n IH]; cbn [for_].
  - apply preserves_pending.
  - apply preserves_bind; [exact Hb|].
    intros [|a]; [exact IH | apply preserves_ret].
Qed.

Lemma preserves_onClient {A} (m : M A) :
  preserves R m -> preserves R (onClient m).
Proof.
  intros Hm. unfold onClient. apply preserves_bind; [apply preserves_getApi|].
  intros ks. destruct (pyrind ks); [exact Hm | apply preserves_panic].
Qed.

Lemma preserves_if {A} (b : bool) (m1 m2 : M A) :
  preserves R m1 -> preserves R m2 -> preserves R (if b then m1 else m2).
Proof. destruct b; auto. Qed.

End Preserves.

(** ** The field [connected] *)

Lemma sameConnected_refl s : sameConnected s s.
Proof. reflexivity. Qed.

Lemma sameConnected_trans s1 s2 s3 :
  sameConnected s1 s2 -> sameConnected s2 s3 -> sameConnected s1 s3.
Proof. unfold sameConnected; congruence. Qed.

Lemma keepsConnected_emit e : keepsConnected (emit e).
Proof. intros s; reflexivity. Qed.

Lemma keepsConnected_sleep d : keepsConnected (sleep d).
Proof. intros s; reflexivity. Qed.

Lemma keepsConnected_ask {A} (q : Node -> list A) set call :
  keepsConnected (ask q set call).
Proof. intros s; unfold ask. destruct (q (node s)); reflexivity. Qed.

Lemma keepsConnected_select cases : keepsConnected (select cases).
Proof.
  intros s; unfold select.
  destruct (wakeAt cases s); [|reflexivity].
  destruct (pickQ (node s)); [reflexivity|].
  cbn [snd]. destruct (nth _ _ _); reflexivity.
Qed.

Lemma keepsConnected_NewTicker d : keepsConnected (time_NewTicker d).
Proof. intros s; unfold time_NewTicker. destruct (d <=? 0); reflexivity. Qed.

Lemma keepsConnected_Reset d : keepsConnected (ticker_Reset d).
Proof. intros s; unfold ticker_Reset. destruct (d <=? 0); reflexivity. Qed.

Create HintDb connected.

#[local] Hint Resolve keepsConnected_emit keepsConnected_sleep
  keepsConnected_ask
  keepsConnected_select keepsConnected_NewTicker keepsConnected_Reset
  : connected.

(** Combinators are taken apart, primitives closed by [prim]. *)
Ltac frame refl trans prim :=
  repeat first
    [ solve [prim]
    | apply (preserves_bind _ trans)
    | apply (preserves_for _ refl trans)
    | apply (preserves_onClient _ refl trans)
    | apply (preserves_ret _ refl)
    | apply (preserves_panic _ refl)
    | apply (preserves_pending _ refl)
    | apply (preserves_getApi _ refl)
    | apply preserves_if
    | match goal with
      | |- preserves _ (match ?x with _ => _ end) => destruct x
      | |- forall _, _ => intro
      end ].

Ltac keeps :=
  frame sameConnected_refl sameConnected_trans ltac:(auto with connected).

Lemma keepsConnected_reconnect : keepsConnected reconnect.
Proof.
  intros s. unfold reconnect, bind, getApi, pyrind_Reconnect, onClient, bind,
    getApi, rpcclient_NewRPCClient, ask.
  destruct (pyrind (api s)) eqn:E.
  - rewrite E. destruct (reconnectQ (node s)); reflexivity.
  - destruct (dialQ (node s)) as [|[client|err] q]; reflexivity.
Qed.

#[local] Hint Resolve keepsConnected_reconnect : connected.

Lemma keepsConnected_waitForSync fuel verbose :
  keepsConnected (waitForSync fuel verbose).
Proof.
  unfold waitForSync, waitForSync_body, pyrind_GetInfo, log. keeps.
Qed.

#[local] Hint Resolve keepsConnected_waitForSync : connected.

Lemma keepsConnected_feed fuel :
  keepsConnected (startBlockTemplateListener fuel).
Proof.
  unfold startBlockTemplateListener, feed_body, feed_recover, feed_select,
    pyrind_RegisterForNewBlockTemplateNotifications, blockReadyCb, log,
    makeBlockReadyChan.
  keeps.
Qed.

Lemma keepsConnected_stats fuel : keepsConnected (startStatsThread fuel).
Proof.
  unfold startStatsThread, stats_body, stats_tick, pyrind_GetBlockDAGInfo,
    pyrind_EstimateNetworkHashesPerSecond, log.
  keeps.
Qed.

Lemma keepsConnected_Start fuel : keepsConnected (Start fuel).
Proof. unfold Start. keeps. Qed.

Lemma keepsConnected_GetBlockTemplate version client :
  keepsConnected (PyrinApi_GetBlockTemplate version client).
Proof. unfold PyrinApi_GetBlockTemplate, pyrind_GetBlockTemplate. keeps. Qed.

(** C7, as stated, fails: a call of [reconnect] that fails leaves the
    field at [true], and the whole struct as it was. *)
Lemma reconnect_does_not_update_connected :
  fst (reconnect reconnectRefused) = Ret (Some "connection refused") /\
  connected (api reconnectRefused) = true /\
  connected (api (snd (reconnect reconnectRefused))) = true /\
  api (snd (reconnect reconnectRefused)) = api reconnectRefused.
Proof. repeat split; reflexivity. Qed.

(** C7, amended.  The field [connected] is set to [true] when the manager
    is constructed, and no operation of the manager changes it
    afterwards: [reconnect] leaves it as it is, whether it succeeds or
    fails, and so do [waitForSync], [Start], the two loops and
    [GetBlockTemplate]. *)
Theorem connected_is_set_once_and_never_changed :
  forall (fuel : nat) (verbose : bool) (version : string)
         (client : StratumContext) (addr : string) (wait : Duration)
         (s : State),
    match fst (NewPyrinApi addr wait s) with
    | Ret (inl ks) => connected ks = true
    | _ => True
    end /\
    connected (api (snd (reconnect s))) = connected (api s) /\
    connected (api (snd (waitForSync fuel verbose s))) = connected (api s) /\
    connected (api (snd (Start fuel s))) = connected (api s) /\
    connected (api (snd (startBlockTemplateListener fuel s)))
    = connected (api s) /\
    connected (api (snd (startStatsThread fuel s))) = connected (api s) /\
    connected (api (snd (PyrinApi_GetBlockTemplate version client s)))
    = connected (api s).
Proof.
  intros fuel verbose version client addr wait s. repeat apply conj.
  - unfold NewPyrinApi, bind, rpcclient_NewRPCClient, ask.
    destruct (dialQ (node s)) as [|[c|err] q]; cbn; auto.
  - apply keepsConnected_reconnect.
  - apply keepsConnected_waitForSync.
  - apply keepsConnected_Start.
  - apply keepsConnected_feed.
  - apply keepsConnected_stats.
  - apply keepsConnected_GetBlockTemplate.
Qed.

(** ** What the recovery of an iteration leaves in place *)

Lemma Quiet_refl s : Quiet s s.
Proof.
  constructor; try reflexivity; auto.
  exists []. split; [now rewrite app_nil_r | constructor].
Qed.

Lemma Quiet_trans s1 s2 s3 : Quiet s1 s2 -> Quiet s2 s3 -> Quiet s1 s3.
Proof.
  intros [(d1 & E1 & P1) T1 C1 K1 Q1 N1 W1 L1]
         [(d2 & E2 & P2) T2 C2 K2 Q2 N2 W2 L2].
  constructor; try congruence; try lia; auto.
  exists (d1 ++ d2). split.
  - rewrite E2, E1. now rewrite app_assoc.
  - apply Forall_app; auto.
Qed.

(** One event appended, the locals in place. *)
Ltac quiet_step e :=
  apply Build_Quiet;
  [ exists [e]; split; [reflexivity | repeat constructor; auto]
  | reflexivity | reflexivity | reflexivity | reflexivity
  | cbn; lia | reflexivity | cbn; auto; try discriminate ].

Lemma quiet_record e s : plain e -> Quiet s (record e s).
Proof. intros He. quiet_step (now s, e). Qed.

Lemma quiet_emit e : plain e -> quiet (emit e).
Proof. intros He s. now apply quiet_record. Qed.

Lemma quiet_log l msg err : quiet (log l msg err).
Proof. now apply quiet_emit. Qed.

Lemma quiet_sleep d : 0 <= d -> quiet (sleep d).
Proof. intros Hd s. unfold sleep; cbn [snd]. quiet_step (now s, Sleep d). Qed.

Lemma quiet_ask_infoQ : quiet (ask infoQ set_infoQ GetInfo).
Proof.
  intros s. unfold ask. destruct (infoQ (node s)); [apply Quiet_refl|].
  cbn [snd]. quiet_step (now s, Rpc GetInfo).
Qed.

Lemma quiet_reconnect : quiet reconnect.
Proof.
  intros s. unfold reconnect, bind, getApi, pyrind_Reconnect, onClient, bind,
    getApi, rpcclient_NewRPCClient, ask.
  destruct (pyrind (api s)) eqn:E.
  - rewrite E. destruct (reconnectQ (node s)); [apply Quiet_refl|].
    cbn [snd]. quiet_step (now s, Rpc Reconnect).
  - destruct (dialQ (node s)) as [|[client|err] q]; [apply Quiet_refl| |];
      cbn [snd]; quiet_step (now s, Rpc (NewRPCClient (address (api s)))).
Qed.

Lemma five_seconds : 0 <= 5 * Second.
Proof. unfold Second. lia. Qed.

Create HintDb quiet.

#[local] Hint Resolve quiet_log quiet_sleep quiet_ask_infoQ quiet_reconnect
  five_seconds : quiet.

Ltac quiets := frame Quiet_refl Quiet_trans ltac:(auto with quiet).

Lemma quiet_waitForSync fuel verbose : quiet (waitForSync fuel verbose).
Proof. unfold waitForSync, waitForSync_body, pyrind_GetInfo. quiets. Qed.

#[local] Hint Resolve quiet_waitForSync : quiet.

Lemma quiet_feed_recover fuel : quiet (feed_recover fuel).
Proof. unfold feed_recover. quiets. Qed.

(** ** select *)

Lemma earliest_In l t : earliest l = Some t -> In (Some t) l.
Proof.
  revert t; induction l as [|[u|] l IH]; intros t H; cbn in H;
    [discriminate| |right; auto].
  destruct (earliest l) as [v|] eqn:E.
  - injection H as <-. destruct (Z.min_spec u v) as [[_ ->]|[_ ->]];
      [left; reflexivity | right; auto].
  - injection H as <-. left; reflexivity.
Qed.

(** A case is ready at the instant it is due. *)
Lemma isReady_due s c t : due s c = Some t -> isReady s t c = true.
Proof.
  destruct c; cbn [due isReady].
  - intros ->. apply Z.leb_refl.
  - destruct (blockReadyChan s); cbn; [discriminate|].
    intros H; injection H as ->. apply Z.leb_refl.
  - intros H; injection H as <-. unfold advance.
    rewrite Z.leb_refl. reflexivity.
Qed.

(** When a [select] wakes up, one of its cases is ready. *)
Lemma wakeAt_ready cases s t :
  wakeAt cases s = Some t -> filter (isReady s t) cases <> [].
Proof.
  unfold wakeAt. destruct (existsb (isReady s (now s)) cases) eqn:E.
  - intros H; injection H as <-.
    apply existsb_exists in E as (c & Hin & Hc).
    intros Hnil.
    assert (Hf : In c (filter (isReady s (now s)) cases))
      by (apply filter_In; auto).
    rewrite Hnil in Hf. destruct Hf.
  - intros H. apply earliest_In in H. apply in_map_iff in H as (c & Hd & Hin).
    intros Hnil.
    assert (Hf : In c (filter (isReady s t) cases))
      by (apply filter_In; split; [exact Hin | now apply isReady_due]).
    rewrite Hnil in Hf. destruct Hf.
Qed.

Lemma nth_mod_In {A} (n : nat) (l : list A) (d : A) :
  l <> [] -> In (nth (Nat.modulo n (List.length l)) l d) l.
Proof.
  intros Hl. apply nth_In. apply Nat.mod_upper_bound.
  destruct l; [congruence | discriminate].
Qed.

(** What a [select] that returned has done. *)
Lemma select_Ret cases s c s' :
  select cases s = (Ret c, s') ->
  exists t n q,
    wakeAt cases s = Some t /\
    pickQ (node s) = n :: q /\
    In c cases /\
    isReady s t c = true /\
    s' = receive c t (set_node (set_pickQ q (node s)) s).
Proof.
  unfold select. destruct (wakeAt cases s) as [t|] eqn:Ew; [|discriminate].
  destruct (pickQ (node s)) as [|n q] eqn:Eq; [discriminate|].
  intros H; injection H as Hc Hs.
  exists t, n, q. repeat split; auto.
  - rewrite <- Hc.
    pose proof (nth_mod_In n _ Done (wakeAt_ready cases s t Ew)) as Hin.
    apply filter_In in Hin. tauto.
  - rewrite <- Hc.
    pose proof (nth_mod_In n _ Done (wakeAt_ready cases s t Ew)) as Hin.
    apply filter_In in Hin. tauto.
  - rewrite <- Hs, <- Hc. reflexivity.
Qed.

(** A [select] that did not return did nothing. *)
Lemma select_not_Ret cases s o s' :
  select cases s = (o, s') -> (forall c, o <> Ret c) -> o = Pending /\ s' = s.
Proof.
  unfold select. destruct (wakeAt cases s) as [t|].
  - destruct (pickQ (node s)) as [|n q].
    + intros H; injection H as <- <-; auto.
    + intros H Ho; injection H as <- <-. now contradiction (Ho _ eq_refl).
  - intros H; injection H as <- <-; auto.
Qed.

Lemma receive_trace c t s : trace (receive c t s) = trace s ++ [(t, Recv c)].
Proof. destruct c; reflexivity. Qed.

Lemma receive_api c t s : api (receive c t s) = api s.
Proof. destruct c; reflexivity. Qed.

Lemma receive_now c t s : now (receive c t s) = t.
Proof. destruct c; reflexivity. Qed.

(** A cancelled [select] with no other case ready takes [Done]. *)
Lemma select_only_Done cases s k n q :
  cancelAt (node s) = Some k ->
  k <= now s ->
  In Done cases ->
  (forall c, In c cases -> c <> Done -> isReady s (now s) c = false) ->
  pickQ (node s) = n :: q ->
  select cases s
  = (Ret Done, receive Done (now s) (set_node (set_pickQ q (node s)) s)).
Proof.
  intros Hk Hle Hin Hothers Hq.
  assert (Hd : isReady s (now s) Done = true).
  { cbn [isReady]. rewrite Hk. now apply Z.leb_le. }
  assert (Hw : wakeAt cases s = Some (now s)).
  { unfold wakeAt.
    replace (existsb (isReady s (now s)) cases) with true; [reflexivity|].
    symmetry. apply existsb_exists. exists Done; auto. }
  assert (Hpick :
            nth (Nat.modulo n
                   (List.length (filter (isReady s (now s)) cases)))
              (filter (isReady s (now s)) cases) Done = Done).
  { pose proof (nth_mod_In n _ Done (wakeAt_ready cases s _ Hw)) as H.
    apply filter_In in H as [H1 H2].
    destruct (nth _ _ _) eqn:E; [reflexivity| |];
      rewrite (Hothers _ H1) in H2; discriminate. }
  unfold select. rewrite Hw, Hq. cbv zeta. rewrite Hpick. reflexivity.
Qed.

(** ** The select of the feed *)

Lemma feed_select_Done s s1 :
  select feedCases s = (Ret Done, s1) ->
  feed_select s = (Ret (Break tt), record (Log Warn msgFeedCancelled None) s1).
Proof.
  intros H. unfold feed_select. fold feedCases.
  rewrite (bind_Ret _ _ _ _ _ H). reflexivity.
Qed.

Lemma feed_select_TickerC s s1 :
  select feedCases s = (Ret TickerC, s1) ->
  feed_select s = (Ret Continue, record BlockReadyCb s1).
Proof.
  intros H. unfold feed_select. fold feedCases.
  rewrite (bind_Ret _ _ _ _ _ H). reflexivity.
Qed.

Lemma feed_select_BlockReadyChan s s1 :
  select feedCases s = (Ret BlockReadyChan, s1) ->
  feed_select s
  = if blockWaitTime (api s1) <=? 0
    then (Panic nonPositiveReset, record BlockReadyCb s1)
    else (Ret Continue, afterPush s1).
Proof.
  intros H. unfold feed_select. fold feedCases.
  rewrite (bind_Ret _ _ _ _ _ H).
  unfold blockReadyCb, emit, bind, getApi, ticker_Reset, ret, afterPush.
  cbn [api record].
  destruct (blockWaitTime (api s1) <=? 0); reflexivity.
Qed.

Lemma feed_select_Pending s o s1 :
  select feedCases s = (o, s1) -> (forall c, o <> Ret c) ->
  feed_select s = (Pending, s).
Proof.
  intros H Ho. destruct (select_not_Ret _ _ _ _ H Ho) as [-> ->].
  unfold feed_select. fold feedCases. now apply bind_Pending.
Qed.

(** An iteration is the recovery, quiet, and then the select. *)
Lemma feed_body_inv fuel s :
  exists s1,
    Quiet s s1 /\
    ((exists o, feed_recover fuel s = (o, s1) /\ (forall u, o <> Ret u) /\
                (o = Pending \/ exists msg, o = Panic msg) /\
                feed_body fuel s
                = (match o with Panic msg => Panic msg | _ => Pending end,
                   s1)) \/
     (feed_recover fuel s = (Ret tt, s1) /\
      feed_body fuel s = feed_select s1)).
Proof.
  pose proof (quiet_feed_recover fuel s) as Hq.
  destruct (feed_recover fuel s) as [[[]|msg|] s1] eqn:E; cbn [snd] in Hq;
    exists s1; (split; [exact Hq|]).
  - right. split; [reflexivity|]. unfold feed_body.
    now rewrite (bind_Ret _ _ _ _ _ E).
  - left. exists (Panic msg). repeat split; try discriminate.
    + right; eauto.
    + unfold feed_body. now apply bind_Panic.
  - left. exists Pending. repeat split; try discriminate.
    + left; reflexivity.
    + unfold feed_body. now apply bind_Pending.
Qed.

(** ** Loops *)

(** If every iteration that continues is in [R], and [Q] holds of every
    iteration that ends the loop and of a loop that is cut short, then
    [Q] holds of the loop, [R] being absorbed by [Q] on its left. *)
Lemma for_rule {A} (body : M (Step A))
  (R : State -> State -> Prop) (Q : State -> Outcome A -> State -> Prop) :
  (forall s s', body s = (Ret Continue, s') -> R s s') ->
  (forall s o s', body s = (o, s') -> o <> Ret Continue -> Q s (ended o) s') ->
  (forall s, Q s Pending s) ->
  (forall s1 s2 o s3, R s1 s2 -> Q s2 o s3 -> Q s1 o s3) ->
  forall n s, Q s (fst (for_ n body s)) (snd (for_ n body s)).
Proof.
  intros HR HQ Hcut Habs n.
  induction n as [|n IH]; intros s; cbn [for_]; [apply Hcut|].
  unfold bind. destruct (body s) as [[[|a]|msg|] s1] eqn:E.
  - apply Habs with s1; [now apply HR | apply IH].
  - apply (HQ s (Ret (Break a)) s1 E). discriminate.
  - apply (HQ s (Panic msg) s1 E). discriminate.
  - apply (HQ s Pending s1 E). discriminate.
Qed.

(** ** The iterations of the feed *)

Lemma feed_body_Iter fuel s o s' : feed_body fuel s = (o, s') -> Iter s o s'.
Proof.
  intros Hb.
  destruct (feed_body_inv fuel s) as (s1 & Hq & [(o1 & _ & _ & Ho1 & E)|[_ E]]).
  - rewrite E in Hb. injection Hb as <- <-.
    apply IterStuck; [exact Hq|].
    destruct Ho1 as [->|[msg ->]]; [left; reflexivity | right; eauto].
  - rewrite E in Hb.
    destruct (select feedCases s1) as [[c| |] s2] eqn:Es.
    + destruct (select_Ret _ _ _ _ Es) as (t & n & q & Hw & Hp & _ & Hr & ->).
      fold (woken c t q s1) in *.
      destruct c.
      * rewrite (feed_select_Done _ _ Es) in Hb. injection Hb as <- <-.
        now apply IterDone with (n := n).
      * rewrite (feed_select_BlockReadyChan _ _ Es) in Hb.
        unfold woken in Hb at 1. rewrite receive_api in Hb.
        cbn [api set_node] in Hb.
        destruct (blockWaitTime (api s1) <=? 0) eqn:Ew; injection Hb as <- <-.
        -- apply IterPushPanic with (n := n); auto. now apply Z.leb_le.
        -- apply IterPush with (n := n); auto. now apply Z.leb_gt.
      * rewrite (feed_select_TickerC _ _ Es) in Hb. injection Hb as <- <-.
        now apply IterTick with (n := n).
    + assert (Ho : forall c, @Panic Chan msg <> Ret c) by discriminate.
      destruct (select_not_Ret _ _ _ _ Es Ho) as [Habs _]. discriminate.
    + assert (Ho : forall c, @Pending Chan <> Ret c) by discriminate.
      rewrite (feed_select_Pending _ _ _ Es Ho) in Hb. injection Hb as <- <-.
      apply IterStuck; [exact Hq | left; reflexivity].
Qed.

(** Calls, logs and sleeps are neither receives nor callbacks. *)
Lemma plain_recvs d : Forall (fun te => plain (snd te)) d -> recvs d = [].
Proof.
  induction 1 as [|[t e] d He _ IH]; [reflexivity|].
  cbn [recvs flat_map snd] in *. fold (recvs d). rewrite IH.
  destruct e; cbn in He; try contradiction; reflexivity.
Qed.

Lemma plain_callbacks d :
  Forall (fun te => plain (snd te)) d -> callbacks d = [].
Proof.
  induction 1 as [|[t e] d He _ IH]; [reflexivity|].
  cbn [callbacks flat_map snd] in *. fold (callbacks d). rewrite IH.
  destruct e; cbn in He; try contradiction; reflexivity.
Qed.

Lemma woken_trace c t q s : trace (woken c t q s) = trace s ++ [(t, Recv c)].
Proof. unfold woken. now rewrite receive_trace. Qed.

Lemma woken_now c t q s : now (woken c t q s) = t.
Proof. unfold woken. now rewrite receive_now. Qed.

Lemma woken_api c t q s : api (woken c t q s) = api s.
Proof. unfold woken. now rewrite receive_api. Qed.

(** ** Steps without receive and without callback *)

Lemma Silent_refl s : Silent s s.
Proof. exists []. now rewrite app_nil_r. Qed.

Lemma Silent_trans s1 s2 s3 : Silent s1 s2 -> Silent s2 s3 -> Silent s1 s3.
Proof.
  intros (d1 & E1 & R1 & C1) (d2 & E2 & R2 & C2). exists (d1 ++ d2).
  rewrite E2, E1, recvs_app, callbacks_app, R1, R2, C1, C2.
  now rewrite app_assoc.
Qed.

Lemma Quiet_Silent s s' : Quiet s s' -> Silent s s'.
Proof.
  intros [(d & E & P) _ _ _ _ _ _ _]. exists d.
  auto using plain_recvs, plain_callbacks.
Qed.

Lemma silent_emit e :
  recvs [(0, e)] = [] -> callbacks [(0, e)] = [] -> silent_ (emit e).
Proof.
  intros Hr Hc s. exists [(now s, e)]. split; [reflexivity|].
  destruct e; cbn in *; auto; discriminate.
Qed.

Lemma silent_log l msg err : silent_ (log l msg err).
Proof. now apply silent_emit. Qed.

Lemma silent_ask {A} (q : Node -> list A) set call : silent_ (ask q set call).
Proof.
  intros s. unfold ask. destruct (q (node s)); [apply Silent_refl|].
  exists [(now s, Rpc call)]. auto.
Qed.

Lemma silent_NewTicker d : silent_ (time_NewTicker d).
Proof.
  intros s. unfold time_NewTicker.
  destruct (d <=? 0); exists []; cbn; now rewrite app_nil_r.
Qed.

Lemma silent_RecordNetworkStats h b d :
  silent_ (emit (RecordNetworkStats h b d)).
Proof. now apply silent_emit. Qed.

Lemma silent_set_chan {A} (a : A) (f : State -> list Z) :
  silent_ (fun s => (Ret a, set_chan (f s) s)).
Proof. intros s. exists []. cbn. now rewrite app_nil_r. Qed.

Create HintDb silent.

#[local] Hint Resolve silent_log silent_ask silent_NewTicker
  silent_RecordNetworkStats silent_set_chan : silent.

Ltac silents := frame Silent_refl Silent_trans ltac:(auto with silent).

Lemma silent_stats_tick : silent_ stats_tick.
Proof.
  unfold stats_tick, pyrind_GetBlockDAGInfo,
    pyrind_EstimateNetworkHashesPerSecond.
  silents.
Qed.

Lemma silent_register :
  silent_ pyrind_RegisterForNewBlockTemplateNotifications.
Proof.
  unfold pyrind_RegisterForNewBlockTemplateNotifications. silents.
Qed.

(** A tick of the stats poller never ends the loop by a return. *)
Lemma stats_tick_no_Break s a : fst (stats_tick s) <> Ret (Break a).
Proof.
  destruct (pyrind (api s)) as [c|] eqn:Ec.
  - destruct (stats_tick_cases s c Ec); discriminate.
  - unfold stats_tick, pyrind_GetBlockDAGInfo.
    rewrite (bind_Panic _ _ _ _ _ (onClient_nil _ s Ec)). discriminate.
Qed.

(** ** Cancellation *)

Lemma goesOn_refl s : goesOn s s.
Proof. exists []. split; [now rewrite app_nil_r | intros []]. Qed.

Lemma Silent_goesOn s s' : Silent s s' -> goesOn s s'.
Proof.
  intros (d & E & R & _). exists d. split; [exact E|].
  unfold noDone. rewrite R. intros [].
Qed.

Lemma noDone_app d1 d2 : noDone d1 -> noDone d2 -> noDone (d1 ++ d2).
Proof.
  unfold noDone. rewrite recvs_app. intros H1 H2 H.
  apply in_app_or in H. tauto.
Qed.

Lemma goesOn_trans s1 s2 s3 : goesOn s1 s2 -> goesOn s2 s3 -> goesOn s1 s3.
Proof.
  intros (d1 & E1 & N1) (d2 & E2 & N2). exists (d1 ++ d2). split.
  - rewrite E2, E1. now rewrite app_assoc.
  - now apply noDone_app.
Qed.

Lemma goesOn_returnsOnDone msg s1 s2 o s3 :
  goesOn s1 s2 -> returnsOnDone msg s2 o s3 -> returnsOnDone msg s1 o s3.
Proof.
  intros (d1 & E1 & N1) (d2 & E2 & H). exists (d1 ++ d2). split.
  - rewrite E2, E1. now rewrite app_assoc.
  - destruct H as [(Ho & d0 & t & -> & N0)|(Ho & N2)].
    + left. split; [exact Ho|]. exists (d1 ++ d0), t. split.
      * now rewrite app_assoc.
      * now apply noDone_app.
    + right. split; [exact Ho | now apply noDone_app].
Qed.

Lemma returnsOnDone_cut msg s o :
  o <> Ret tt -> returnsOnDone msg s o s.
Proof.
  intros Ho. exists []. split; [now rewrite app_nil_r|].
  right. split; [exact Ho | intros []].
Qed.

Lemma returnsOnDone_goesOn msg s o s' :
  o <> Ret tt -> goesOn s s' -> returnsOnDone msg s o s'.
Proof.
  intros Ho (d & E & N). exists d. split; [exact E|]. right. auto.
Qed.

(** A silent computation before a goroutine that returns on [Done]. *)
Lemma returnsOnDone_bind {A} msg (m : M A) (f : A -> M unit) :
  silent_ m ->
  (forall a s, returnsOnDone msg s (fst (f a s)) (snd (f a s))) ->
  forall s, returnsOnDone msg s (fst (bind m f s)) (snd (bind m f s)).
Proof.
  intros Hm Hf s. specialize (Hm s). unfold bind.
  destruct (m s) as [[a|e|] s1]; cbn [fst snd] in *.
  - apply goesOn_returnsOnDone with s1; [now apply Silent_goesOn | apply Hf].
  - apply returnsOnDone_goesOn; [discriminate | now apply Silent_goesOn].
  - apply returnsOnDone_goesOn; [discriminate | now apply Silent_goesOn].
Qed.

Lemma feed_body_goesOn fuel s s' :
  feed_body fuel s = (Ret Continue, s') -> goesOn s s'.
Proof.
  intros Hb. apply feed_body_Iter in Hb.
  inversion Hb as [o s1 Hq [Ho|[msg Ho]]|
                   |s1 t n q Hq Hw Hp Hr|s1 t n q Hq Hw Hp Hr Hpos|]; subst;
    try discriminate;
    (apply goesOn_trans with s1; [now apply Silent_goesOn, Quiet_Silent|]).
  - exists [(t, Recv TickerC); (t, BlockReadyCb)]. split.
    + cbn [record trace now]. rewrite woken_trace, woken_now.
      now rewrite <- app_assoc.
    + cbn. intros [H|[]]; discriminate.
  - exists [(t, Recv BlockReadyChan); (t, BlockReadyCb);
            (t, TickerReset (blockWaitTime (api s1)))]. split.
    + unfold afterPush. cbn [record trace now set_ticker api].
      rewrite woken_trace, woken_now, woken_api.
      now rewrite <- !app_assoc.
    + cbn. intros [H|[]]; discriminate.
Qed.

Lemma feed_body_returnsOnDone fuel s o s' :
  feed_body fuel s = (o, s') -> o <> Ret Continue ->
  returnsOnDone msgFeedCancelled s (ended o) s'.
Proof.
  intros Hb Hne. apply feed_body_Iter in Hb.
  inversion Hb as [o1 s1 Hq [Ho|[msg Ho]]|s1 t n q Hq Hw Hp Hr
                   | | |s1 t n q Hq Hw Hp Hr Hpos]; subst;
    try (now contradiction Hne).
  - apply returnsOnDone_goesOn; [discriminate|].
    now apply Silent_goesOn, Quiet_Silent.
  - apply returnsOnDone_goesOn; [discriminate|].
    now apply Silent_goesOn, Quiet_Silent.
  - apply goesOn_returnsOnDone with s1;
      [now apply Silent_goesOn, Quiet_Silent|].
    exists [(t, Recv Done); (t, Log Warn msgFeedCancelled None)]. split.
    + cbn [record trace now]. rewrite woken_trace, woken_now.
      now rewrite <- app_assoc.
    + left. split; [reflexivity|]. exists [], t. split; [reflexivity|].
      intros [].
  - apply returnsOnDone_goesOn; [discriminate|].
    apply goesOn_trans with s1; [now apply Silent_goesOn, Quiet_Silent|].
    exists [(t, Recv BlockReadyChan); (t, BlockReadyCb)]. split.
    + cbn [record trace now]. rewrite woken_trace, woken_now.
      now rewrite <- app_assoc.
    + cbn. intros [H|[]]; discriminate.
Qed.

Lemma feed_loop_returnsOnDone fuel n s :
  returnsOnDone msgFeedCancelled s
    (fst (for_ n (feed_body fuel) s)) (snd (for_ n (feed_body fuel) s)).
Proof.
  apply (for_rule (feed_body fuel) goesOn (returnsOnDone msgFeedCancelled)).
  - apply feed_body_goesOn.
  - apply feed_body_returnsOnDone.
  - intros s0. apply returnsOnDone_cut. discriminate.
  - apply goesOn_returnsOnDone.
Qed.

Lemma feed_returnsOnDone fuel s :
  returnsOnDone msgFeedCancelled s
    (fst (startBlockTemplateListener fuel s))
    (snd (startBlockTemplateListener fuel s)).
Proof.
  unfold startBlockTemplateListener, makeBlockReadyChan.
  apply returnsOnDone_bind; [silents|]. intros _ s0.
  apply returnsOnDone_bind; [apply silent_register|]. intros err s1.
  apply returnsOnDone_bind; [destruct err; silents|]. intros _ s2.
  apply returnsOnDone_bind; [silents|]. intros ks s3.
  apply returnsOnDone_bind; [silents|]. intros _ s4.
  apply feed_loop_returnsOnDone.
Qed.

(** The iterations of the stats poller. *)
Lemma stats_body_inv s o s' :
  stats_body s = (o, s') ->
  (exists t q,
      o = Ret (Break tt) /\
      s' = record (Log Warn msgStatsCancelled None) (woken Done t q s)) \/
  ((forall a, o <> Ret (Break a)) /\ goesOn s s').
Proof.
  intros Hb. unfold stats_body in Hb.
  destruct (select [Done; TickerC] s) as [[c| |] s1] eqn:Es.
  - rewrite (bind_Ret _ _ _ _ _ Es) in Hb.
    destruct (select_Ret _ _ _ _ Es) as (t & n & q & Hw & Hp & _ & Hr & ->).
    fold (woken c t q s) in *.
    assert (Htick :
              stats_tick (woken c t q s) = (o, s') -> c <> Done ->
              (forall a, o <> Ret (Break a)) /\ goesOn s s').
    { intros Ht Hc. split.
      - intros a Ha. apply (stats_tick_no_Break (woken c t q s) a).
        now rewrite Ht.
      - apply goesOn_trans with (woken c t q s).
        + exists [(t, Recv c)]. split; [apply woken_trace|].
          cbn. intros [H|[]]. congruence.
        + apply Silent_goesOn.
          pose proof (silent_stats_tick (woken c t q s)) as H.
          now rewrite Ht in H. }
    destruct c.
    + left. exists t, q. injection Hb as <- <-. auto.
    + right. apply Htick; [exact Hb | discriminate].
    + right. apply Htick; [exact Hb | discriminate].
  - assert (Ho : forall c, @Panic Chan msg <> Ret c) by discriminate.
    destruct (select_not_Ret _ _ _ _ Es Ho) as [Habs _]. discriminate.
  - rewrite (bind_Pending _ _ _ _ Es) in Hb. injection Hb as <- <-.
    assert (Ho : forall c, @Pending Chan <> Ret c) by discriminate.
    destruct (select_not_Ret _ _ _ _ Es Ho) as [_ ->].
    right. split; [discriminate | apply goesOn_refl].
Qed.

Lemma stats_loop_returnsOnDone n s :
  returnsOnDone msgStatsCancelled s
    (fst (for_ n stats_body s)) (snd (for_ n stats_body s)).
Proof.
  apply (for_rule stats_body goesOn (returnsOnDone msgStatsCancelled)).
  - intros s0 s' Hb.
    destruct (stats_body_inv _ _ _ Hb) as [(t & q & Ho & _)|[_ Hg]];
      [discriminate | exact Hg].
  - intros s0 o s' Hb Hne.
    destruct (stats_body_inv _ _ _ Hb) as [(t & q & -> & ->)|[Ho Hg]].
    + exists [(t, Recv Done); (t, Log Warn msgStatsCancelled None)]. split.
      * cbn [record trace now]. rewrite woken_trace, woken_now.
        now rewrite <- app_assoc.
      * left. split; [reflexivity|]. exists [], t. split; [reflexivity|].
        intros [].
    + apply returnsOnDone_goesOn; [|exact Hg].
      destruct o as [[|[]]| |]; cbn; try discriminate.
      now contradiction (Ho tt).
  - intros s0. apply returnsOnDone_cut. discriminate.
  - apply goesOn_returnsOnDone.
Qed.

Lemma stats_returnsOnDone fuel s :
  returnsOnDone msgStatsCancelled s
    (fst (startStatsThread fuel s)) (snd (startStatsThread fuel s)).
Proof.
  unfold startStatsThread.
  apply returnsOnDone_bind; [silents|]. intros _ s1.
  apply stats_loop_returnsOnDone.
Qed.

(** C6, as stated, fails: the cancellation fires at 1 s; at 35 s the
    select finds both it and the tick of 30 s ready, the draw takes the
    tick, and the callback is invoked, 34 s after the cancellation.
    The next select takes the cancellation and the loop returns. *)
Lemma callback_after_cancellation :
  cancelAt (node cancelledWhileSyncing) = Some (1 * Second) /\
  fst (startBlockTemplateListener 8 cancelledWhileSyncing) = Ret tt /\
  recvs (trace (snd (startBlockTemplateListener 8 cancelledWhileSyncing)))
  = [TickerC; Done] /\
  callbacks (trace (snd (startBlockTemplateListener 8 cancelledWhileSyncing)))
  = [35 * Second].
Proof. repeat split; vm_compute; reflexivity. Qed.

(** C6, amended.  Once the select of a loop takes the cancellation
    signal, the loop logs it and returns, and nothing, so no callback,
    follows; a loop returns in no other way.  A select that is reached
    after the signal fired, with no notification and no tick ready,
    takes it.  (With a notification or a tick ready as well, the select
    draws among the ready cases, and [waitForSync] does not look at the
    signal.) *)
Theorem loops_return_once_cancellation_is_taken :
  forall (fuel : nat) (s : State),
    returnsOnDone msgFeedCancelled s
      (fst (startBlockTemplateListener fuel s))
      (snd (startBlockTemplateListener fuel s)) /\
    returnsOnDone msgStatsCancelled s
      (fst (startStatsThread fuel s)) (snd (startStatsThread fuel s)) /\
    (forall k n q,
        cancelAt (node s) = Some k -> k <= now s ->
        pickQ (node s) = n :: q ->
        isReady s (now s) BlockReadyChan = false ->
        isReady s (now s) TickerC = false ->
        feed_select s
        = (Ret (Break tt),
           record (Log Warn msgFeedCancelled None) (woken Done (now s) q s)) /\
        stats_body s
        = (Ret (Break tt),
           record (Log Warn msgStatsCancelled None) (woken Done (now s) q s))).
Proof.
  intros fuel s. split; [apply feed_returnsOnDone|].
  split; [apply stats_returnsOnDone|].
  intros k n q Hk Hle Hq Hpush Htick. split.
  - apply feed_select_Done. unfold woken.
    apply select_only_Done with (k := k) (n := n);
      [exact Hk | exact Hle | left; reflexivity | | exact Hq].
    intros c _ Hc.
    destruct c; [now contradiction Hc | exact Hpush | exact Htick].
  - assert (Hothers : forall c, In c [Done; TickerC] -> c <> Done ->
                                isReady s (now s) c = false).
    { intros c Hin Hc. destruct c;
        [now contradiction Hc | exact Hpush | exact Htick]. }
    unfold stats_body.
    rewrite (bind_Ret _ _ _ _ _
               (select_only_Done [Done; TickerC] s k n q Hk Hle
                  (or_introl eq_refl) Hothers Hq)).
    reflexivity.
Qed.

Lemma loops_return_once_cancellation_is_taken_witness :
  feed_select cancelledAndIdle
  = (Ret (Break tt),
     record (Log Warn msgFeedCancelled None)
       (woken Done (2 * Second) [] cancelledAndIdle)) /\
  stats_body cancelledAndIdle
  = (Ret (Break tt),
     record (Log Warn msgStatsCancelled None)
       (woken Done (2 * Second) [] cancelledAndIdle)).
Proof.
  assert (Hle : 1 * Second <= now cancelledAndIdle)
    by (vm_compute; discriminate).
  exact (proj2 (proj2 (loops_return_once_cancellation_is_taken
                         0 cancelledAndIdle))
           (1 * Second) 7%nat [] eq_refl Hle eq_refl eq_refl eq_refl).
Defined.

(** ** No panic while the client is there *)

Lemma safe_ret {A} (a : A) : safe (ret a).
Proof. intros s msg _. discriminate. Qed.

Lemma safe_emit e : safe (emit e).
Proof. intros s msg _. discriminate. Qed.

Lemma safe_sleep d : safe (sleep d).
Proof. intros s msg _. discriminate. Qed.

Lemma safe_bind {A B} (m : M A) (f : A -> M B) :
  quiet m -> safe m -> (forall a, safe (f a)) -> safe (bind m f).
Proof.
  intros Hq Hm Hf s msg Hc. unfold bind.
  specialize (Hq s). specialize (Hm s).
  destruct (m s) as [[a|e|] s1]; cbn [fst snd] in *.
  - apply Hf. now apply (quiet_client _ _ Hq).
  - now contradiction (Hm e Hc).
  - discriminate.
Qed.

Lemma safe_for {A} (body : M (Step A)) :
  quiet body -> safe body -> forall n, safe (for_ n body).
Proof.
  intros Hq Hb n. induction n as [|n IH]; cbn [for_].
  - intros s msg _. discriminate.
  - apply safe_bind; [exact Hq | exact Hb|].
    intros [|a]; [exact IH | apply safe_ret].
Qed.

Lemma safe_onClient_ask {A} (q : Node -> list A) set call :
  safe (onClient (ask q set call)).
Proof.
  intros s msg Hc. unfold onClient, bind, getApi, ask.
  destruct (pyrind (api s)); [|now contradiction Hc].
  destruct (q (node s)); discriminate.
Qed.

Lemma quiet_waitForSync_body : quiet waitForSync_body.
Proof. unfold waitForSync_body, pyrind_GetInfo. quiets. Qed.

Lemma safe_waitForSync_body : safe waitForSync_body.
Proof.
  unfold waitForSync_body.
  apply safe_bind; [quiets | intros s msg _; discriminate|]. intros ks.
  apply safe_bind;
    [unfold pyrind_GetInfo; quiets | apply safe_onClient_ask|].
  intros [[[|]]|err]; intros s msg _; discriminate.
Qed.

Lemma safe_waitForSync fuel verbose : safe (waitForSync fuel verbose).
Proof.
  unfold waitForSync.
  apply safe_bind;
    [quiets | destruct verbose; [apply safe_emit | apply safe_ret]|].
  intros _.
  apply safe_bind;
    [ apply (preserves_for _ Quiet_refl Quiet_trans), quiet_waitForSync_body
    | apply safe_for;
      [apply quiet_waitForSync_body | apply safe_waitForSync_body]
    | ].
  intros [err|]; [apply safe_ret|].
  apply safe_bind;
    [quiets | destruct verbose; [apply safe_emit | apply safe_ret]
    | intros _; apply safe_ret].
Qed.

Lemma safe_reconnect : safe reconnect.
Proof.
  intros s msg Hc. unfold reconnect, bind, getApi, pyrind_Reconnect, onClient,
    bind, getApi, ask.
  destruct (pyrind (api s)) eqn:E; [|now contradiction Hc].
  rewrite E. destruct (reconnectQ (node s)); discriminate.
Qed.

Lemma safe_feed_recover fuel : safe (feed_recover fuel).
Proof.
  unfold feed_recover.
  apply safe_bind; [quiets | apply safe_waitForSync|].
  intros [e|]; [|apply safe_ret].
  apply safe_bind; [quiets | apply safe_emit|]. intros _.
  apply safe_bind; [quiets | apply safe_reconnect|].
  intros [e'|]; [|apply safe_ret].
  apply safe_bind; [quiets | apply safe_emit | intros _; apply safe_sleep].
Qed.

(** An iteration that panics in its recovery had lost its client. *)
Lemma feed_body_Iter_safe fuel s o s' :
  pyrind (api s) <> None ->
  0 < blockWaitTime (api s) ->
  feed_body fuel s = (o, s') ->
  forall msg, o <> Panic msg.
Proof.
  intros Hc Hpos Hb msg ->.
  destruct (feed_body_inv fuel s)
    as (s1 & Hq & [(o1 & Hr & _ & Ho1 & E)|[Hr E]]).
  - rewrite E in Hb. destruct Ho1 as [->|[e ->]]; [discriminate|].
    apply (safe_feed_recover fuel s e Hc). now rewrite Hr.
  - rewrite E in Hb.
    destruct (select feedCases s1) as [[c| |] s2] eqn:Es.
    + destruct c.
      * rewrite (feed_select_Done _ _ Es) in Hb. discriminate.
      * rewrite (feed_select_BlockReadyChan _ _ Es) in Hb.
        destruct (select_Ret _ _ _ _ Es) as (t & n & q & _ & _ & _ & _ & ->).
        rewrite receive_api in Hb. cbn [api set_node] in Hb.
        rewrite (quiet_wait _ _ Hq) in Hb.
        destruct (Z.leb_spec (blockWaitTime (api s)) 0); [lia | discriminate].
      * rewrite (feed_select_TickerC _ _ Es) in Hb. discriminate.
    + assert (Ho : forall c, @Panic Chan msg0 <> Ret c) by discriminate.
      destruct (select_not_Ret _ _ _ _ Es Ho) as [Habs _]. discriminate.
    + assert (Ho : forall c, @Pending Chan <> Ret c) by discriminate.
      rewrite (feed_select_Pending _ _ _ Es Ho) in Hb. discriminate.
Qed.

(** ** The feed without notifications *)

Lemma ticks_app a b : ticks (a ++ b) = ticks a ++ ticks b.
Proof. apply flat_map_app. Qed.

Lemma plain_ticks d : Forall (fun te => plain (snd te)) d -> ticks d = [].
Proof.
  induction 1 as [|[t e] d He _ IH]; [reflexivity|].
  cbn [ticks flat_map snd] in *. fold (ticks d). rewrite IH.
  destruct e; cbn in He; try contradiction; reflexivity.
Qed.

Lemma register_failed s c err q :
  pyrind (api s) = Some c ->
  registerQ (node s) = Some err :: q ->
  pyrind_RegisterForNewBlockTemplateNotifications s
  = (Ret (Some err),
     record (Rpc RegisterForNewBlockTemplateNotifications)
       (set_node (set_registerQ q (node s)) s)).
Proof.
  intros Hc Hq.
  unfold pyrind_RegisterForNewBlockTemplateNotifications, onClient.
  unfold bind, getApi, ask. rewrite Hc, Hq. reflexivity.
Qed.

Lemma NewTicker_positive d s :
  0 < d -> time_NewTicker d s = (Ret tt, set_ticker (newTicker (now s) d) s).
Proof.
  intros Hd. unfold time_NewTicker.
  destruct (Z.leb_spec d 0); [lia | reflexivity].
Qed.

Lemma feed_registration_failed fuel s c err q :
  pyrind (api s) = Some c ->
  0 < blockWaitTime (api s) ->
  registerQ (node s) = Some err :: q ->
  startBlockTemplateListener fuel s
  = for_ fuel (feed_body fuel) (fallbackOnly q s).
Proof.
  intros Hc Hpos Hq. unfold startBlockTemplateListener.
  rewrite (bind_Ret _ _ s tt (set_chan [] s) eq_refl).
  rewrite (bind_Ret _ _ _ _ _ (register_failed (set_chan [] s) c err q Hc Hq)).
  erewrite bind_Ret by reflexivity.
  erewrite bind_Ret by reflexivity.
  erewrite bind_Ret by (apply NewTicker_positive; exact Hpos).
  reflexivity.
Qed.

Lemma timerDriven_app d1 d2 :
  timerDriven d1 -> timerDriven d2 -> timerDriven (d1 ++ d2).
Proof.
  intros [C1 N1] [C2 N2]. split.
  - now rewrite callbacks_app, ticks_app, C1, C2.
  - rewrite recvs_app. intros H. apply in_app_or in H. tauto.
Qed.

Lemma timerDriven_plain d :
  Forall (fun te => plain (snd te)) d -> timerDriven d.
Proof.
  intros H. split.
  - now rewrite plain_callbacks, plain_ticks.
  - rewrite plain_recvs by assumption. intros [].
Qed.

Lemma timerOnly_Quiet s s1 : timerOnly s -> Quiet s s1 -> timerOnly s1.
Proof.
  intros (Hch & Hc & Hpos) Hq. repeat split.
  - now rewrite (quiet_chan _ _ Hq).
  - now apply (quiet_client _ _ Hq).
  - now rewrite (quiet_wait _ _ Hq).
Qed.

Lemma timerOnly_no_push s1 t :
  timerOnly s1 -> isReady s1 t BlockReadyChan = true -> False.
Proof.
  intros (Hch & _) H. cbn [isReady] in H. rewrite Hch in H. discriminate.
Qed.

Lemma feed_body_TimerLoop fuel s s' :
  feed_body fuel s = (Ret Continue, s') -> TimerLoop s s'.
Proof.
  intros Hb Hinv. apply feed_body_Iter in Hb.
  inversion Hb as [o s1 Hq [Ho|[msg Ho]]|
                   |s1 t n q Hq Hw Hp Hr|s1 t n q Hq Hw Hp Hr Hpos|]; subst;
    try discriminate.
  - pose proof (timerOnly_Quiet _ _ Hinv Hq) as (Hch & Hc & Hpos).
    destruct Hq as [(d1 & E1 & P1) _ _ _ _ _ _ _]. split.
    + repeat split; assumption.
    + exists (d1 ++ [(t, Recv TickerC); (t, BlockReadyCb)]). split.
      * cbn [record trace now]. rewrite woken_trace, woken_now, E1.
        now rewrite <- !app_assoc.
      * apply timerDriven_app; [now apply timerDriven_plain|].
        split; [reflexivity|]. cbn. intros [H|[]]; discriminate.
  - exfalso. apply (timerOnly_no_push s1 t); [|exact Hr].
    now apply timerOnly_Quiet with s.
Qed.

Lemma feed_body_TimerEnd fuel s o s' :
  feed_body fuel s = (o, s') -> o <> Ret Continue -> TimerEnd s (ended o) s'.
Proof.
  intros Hb Hne Hinv.
  pose proof (feed_body_Iter_safe fuel s o s' (proj1 (proj2 Hinv))
                (proj2 (proj2 Hinv)) Hb) as Hsafe.
  apply feed_body_Iter in Hb.
  inversion Hb as [o1 s1 Hq Ho|s1 t n q Hq Hw Hp Hr
                   | | |s1 t n q Hq Hw Hp Hr Hpos]; subst;
    try (now contradiction Hne).
  - destruct Hq as [(d1 & E1 & P1) _ _ _ _ _ _ _].
    exists d1. repeat split; try (now apply timerDriven_plain); auto.
    + intros msg H. destruct Ho as [->|[e ->]]; [discriminate|].
      now apply (Hsafe e).
    + destruct Ho as [->|[e ->]]; discriminate.
  - destruct Hq as [(d1 & E1 & P1) _ _ _ _ _ _ _].
    exists (d1 ++ [(t, Recv Done); (t, Log Warn msgFeedCancelled None)]).
    repeat split.
    + cbn [record trace now]. rewrite woken_trace, woken_now, E1.
      now rewrite <- !app_assoc.
    + rewrite callbacks_app, ticks_app, plain_callbacks, plain_ticks
        by assumption.
      reflexivity.
    + rewrite recvs_app, plain_recvs by assumption.
      cbn. intros [H|[]]; discriminate.
    + discriminate.
    + intros _. rewrite recvs_app. apply in_or_app. right. left. reflexivity.
  - exfalso. apply (timerOnly_no_push s1 t); [|exact Hr].
    now apply timerOnly_Quiet with s.
Qed.

Lemma feed_loop_TimerEnd fuel n s :
  TimerEnd s
    (fst (for_ n (feed_body fuel) s)) (snd (for_ n (feed_body fuel) s)).
Proof.
  apply (for_rule (feed_body fuel) TimerLoop TimerEnd).
  - apply feed_body_TimerLoop.
  - apply feed_body_TimerEnd.
  - intros s0 _. exists []. repeat split; try discriminate.
    + now rewrite app_nil_r.
    + intros [].
  - intros s1 s2 o s3 H12 H23 Hinv.
    destruct (H12 Hinv) as (Hinv2 & d1 & E1 & T1).
    destruct (H23 Hinv2) as (d2 & E2 & T2 & Hp & Hr).
    exists (d1 ++ d2). repeat split.
    + rewrite E2, E1. now rewrite app_assoc.
    + apply (timerDriven_app _ _ T1 T2).
    + apply (timerDriven_app _ _ T1 T2).
    + exact Hp.
    + intros Ho. rewrite recvs_app. apply in_or_app. right. auto.
Qed.

(** C9.  If the registration for notifications fails, the failure is
    logged at the level Error and the loop of the feed is entered all the
    same.  From then on it runs on the fallback timer alone: the callback
    is invoked at every tick it receives and at no other moment, nothing
    ever arrives on the notification channel, the loop does not panic,
    and it returns only by taking the cancellation. *)
Theorem feed_runs_on_timer_when_registration_fails :
  forall (fuel : nat) (s : State) (c : RPCClient) (err : error)
         (q : list (option error)),
    pyrind (api s) = Some c ->
    0 < blockWaitTime (api s) ->
    registerQ (node s) = Some err :: q ->
    startBlockTemplateListener fuel s
    = for_ fuel (feed_body fuel) (fallbackOnly q s) /\
    exists d,
      trace (snd (startBlockTemplateListener fuel s))
      = trace s
        ++ [(now s, Rpc RegisterForNewBlockTemplateNotifications);
            (now s, Log Error msgRegister None)]
        ++ d /\
      callbacks d = ticks d /\
      ~ In BlockReadyChan (recvs d) /\
      (forall msg, fst (startBlockTemplateListener fuel s) <> Panic msg) /\
      (fst (startBlockTemplateListener fuel s) = Ret tt -> In Done (recvs d)).
Proof.
  intros fuel s c err q Hc Hpos Hq.
  rewrite (feed_registration_failed fuel s c err q Hc Hpos Hq).
  split; [reflexivity|].
  destruct (feed_loop_TimerEnd fuel fuel (fallbackOnly q s))
    as (d & E & [T1 T2] & Hp & Hr).
  { repeat split; cbn; [congruence | exact Hpos]. }
  exists d. repeat split; auto.
  rewrite E. cbn [fallbackOnly set_ticker record trace set_node set_chan now].
  now rewrite <- !app_assoc.
Qed.

Lemma feed_runs_on_timer_when_registration_fails_witness :
  startBlockTemplateListener 2 registrationRejected
  = for_ 2 (feed_body 2) (fallbackOnly [] registrationRejected) /\
  callbacks (trace (snd (startBlockTemplateListener 2 registrationRejected)))
  = [30 * Second; 60 * Second].
Proof.
  assert (Hpos : 0 < blockWaitTime (api registrationRejected))
    by (vm_compute; reflexivity).
  split.
  - exact (proj1 (feed_runs_on_timer_when_registration_fails
                    2 registrationRejected (Client "127.0.0.1:13110")
                    "not supported" [] eq_refl Hpos eq_refl)).
  - vm_compute. reflexivity.
Defined.

(** ** An iteration whose recovery fails *)

(** C2, as stated, fails: in the iteration in which [waitForSync] and
    then [reconnect] fail, the loop sleeps five seconds and goes on to
    the select of that same iteration, which takes the tick of 30 s and
    invokes the callback; no reconnection has succeeded. *)
Lemma callback_after_failed_reconnect :
  trace (snd (startBlockTemplateListener 1 nodeDown))
  = [(0, Rpc RegisterForNewBlockTemplateNotifications);
     (0, Rpc GetInfo);
     (0, Log Error msgSyncError
           (Some (Wrap "EOF" (msgFetching "127.0.0.1:13110"))));
     (0, Rpc Reconnect);
     (0, Log Error msgReconnectError (Some "connection refused"));
     (0, Sleep (5 * Second));
     (30 * Second, Recv TickerC);
     (30 * Second, BlockReadyCb)] /\
  callbacks (trace (snd (startBlockTemplateListener 1 nodeDown)))
  = [30 * Second].
Proof. split; vm_compute; reflexivity. Qed.

(** C2, amended.  In an iteration of the feed loop in which
    [waitForSync] fails and the reconnection fails too, the loop logs
    both errors and sleeps the fixed five seconds, and no callback is
    invoked up to the end of that sleep.  It does not start a new
    iteration then: it goes on to the select of the same iteration,
    where the callback is invoked if the notification or the tick is
    taken, and not if the cancellation is. *)
Theorem feed_iteration_with_failed_recovery :
  forall (fuel : nat) (s : State) (e : error) (s1 : State) (e' : error)
         (s2 : State),
    waitForSync fuel false s = (Ret (Some e), s1) ->
    reconnect (record (Log Error msgSyncError (Some e)) s1)
    = (Ret (Some e'), s2) ->
    feed_body fuel s = feed_select (afterFailedReconnect e' s2) /\
    callbacks (trace (afterFailedReconnect e' s2)) = callbacks (trace s) /\
    recvs (trace (afterFailedReconnect e' s2)) = recvs (trace s) /\
    now (afterFailedReconnect e' s2) = now s2 + 5 * Second /\
    forall c s3,
      select feedCases (afterFailedReconnect e' s2) = (Ret c, s3) ->
      callbacks (trace (snd (feed_body fuel s)))
      = callbacks (trace s)
        ++ match c with Done => [] | _ => [now s3] end.
Proof.
  intros fuel s e s1 e' s2 Hw Hr.
  assert (Hbody : feed_body fuel s = feed_select (afterFailedReconnect e' s2)).
  { assert (Hrec : feed_recover fuel s
                   = (Ret tt, afterFailedReconnect e' s2)).
    { unfold feed_recover. rewrite (bind_Ret _ _ _ _ _ Hw).
      erewrite bind_Ret by reflexivity.
      rewrite (bind_Ret _ _ _ _ _ Hr).
      erewrite bind_Ret by reflexivity.
      reflexivity. }
    unfold feed_body. now rewrite (bind_Ret _ _ _ _ _ Hrec). }
  assert (Hsil : Silent s (afterFailedReconnect e' s2)).
  { apply Silent_trans with s1.
    - pose proof (quiet_waitForSync fuel false s) as H. rewrite Hw in H.
      now apply Quiet_Silent.
    - apply Silent_trans with (record (Log Error msgSyncError (Some e)) s1).
      + exists [(now s1, Log Error msgSyncError (Some e))]. auto.
      + apply Silent_trans with s2.
        * pose proof (quiet_reconnect
                        (record (Log Error msgSyncError (Some e)) s1)) as H.
          rewrite Hr in H. now apply Quiet_Silent.
        * exists [(now s2, Log Error msgReconnectError (Some e'));
                  (now s2, Sleep (5 * Second))].
          split; [|auto]. unfold afterFailedReconnect.
          cbn [set_now record trace now]. now rewrite <- app_assoc. }
  destruct Hsil as (d & Ed & Rd & Cd).
  split; [exact Hbody|]. split; [|split; [|split; [reflexivity|]]].
  - rewrite Ed, callbacks_app, Cd. apply app_nil_r.
  - rewrite Ed, recvs_app, Rd. apply app_nil_r.
  - intros c s3 Hs. rewrite Hbody.
    destruct (select_Ret _ _ _ _ Hs) as (t & n & q & _ & _ & _ & _ & Es3).
    assert (Ht : trace s3
                 = trace (afterFailedReconnect e' s2) ++ [(now s3, Recv c)]).
    { rewrite Es3, receive_trace, receive_now. reflexivity. }
    assert (Hcb : callbacks (trace s3) = callbacks (trace s)).
    { rewrite Ht, callbacks_app, Ed, callbacks_app, Cd. cbn.
      now rewrite !app_nil_r. }
    destruct c.
    + rewrite (feed_select_Done _ _ Hs). cbn [snd record trace].
      rewrite callbacks_app, Hcb. reflexivity.
    + rewrite (feed_select_BlockReadyChan _ _ Hs).
      destruct (blockWaitTime (api s3) <=? 0); cbn [snd];
        unfold afterPush; cbn [record trace set_ticker];
        rewrite ?callbacks_app, Hcb; cbn; now rewrite ?app_nil_r.
    + rewrite (feed_select_TickerC _ _ Hs). cbn [snd record trace].
      rewrite callbacks_app, Hcb. reflexivity.
Qed.

Lemma feed_iteration_with_failed_recovery_witness :
  feed_body 1 nodeDownInLoop
  = feed_select
      (afterFailedReconnect "connection refused"
         (snd (reconnect
                 (record (Log Error msgSyncError
                            (Some (Wrap "EOF" (msgFetching "127.0.0.1:13110"))))
                    (snd (waitForSync 1 false nodeDownInLoop)))))) /\
  callbacks (trace (snd (feed_body 1 nodeDownInLoop))) = [] ++ [30 * Second].
Proof.
  pose proof (feed_iteration_with_failed_recovery
                1 nodeDownInLoop
                (Wrap "EOF" (msgFetching "127.0.0.1:13110"))
                (snd (waitForSync 1 false nodeDownInLoop))
                "connection refused"
                (snd (reconnect
                        (record (Log Error msgSyncError
                                   (Some (Wrap "EOF"
                                            (msgFetching "127.0.0.1:13110"))))
                           (snd (waitForSync 1 false nodeDownInLoop)))))
                eq_refl eq_refl) as (H1 & _ & _ & _ & H5).
  split; [exact H1|].
  exact (H5 TickerC _ eq_refl).
Defined.

(** ** Push and tick *)

(** When nothing is ready, the select wakes up later than now. *)
Lemma wakeAt_ge cases s t : wakeAt cases s = Some t -> now s <= t.
Proof.
  unfold wakeAt. destruct (existsb (isReady s (now s)) cases) eqn:E.
  - intros H; injection H as <-. lia.
  - intros H. apply earliest_In in H. apply in_map_iff in H as (c & Hd & Hin).
    assert (Hc : isReady s (now s) c = false).
    { destruct (isReady s (now s) c) eqn:Hr; [|reflexivity].
      assert (Hex : existsb (isReady s (now s)) cases = true)
        by (apply existsb_exists; eauto).
      congruence. }
    destruct c; cbn [due isReady] in *.
    + rewrite Hd in Hc. apply Z.leb_gt in Hc. lia.
    + destruct (blockReadyChan s) as [|a l]; [discriminate|].
      injection Hd as ->. apply Z.leb_gt in Hc. lia.
    + injection Hd as <-. unfold advance in Hc.
      destruct (Z.leb_spec (next (ticker s)) (now s)); [discriminate | lia].
Qed.

(** A tick is not received before the deadline of an empty ticker. *)
Lemma tick_not_before_deadline s t :
  slot (ticker s) = false ->
  isReady s t TickerC = true ->
  next (ticker s) <= t.
Proof.
  intros Hs Hr. cbn [isReady] in Hr. unfold advance in Hr.
  destruct (Z.leb_spec (next (ticker s)) t); [assumption | congruence].
Qed.

(** The push case: the callback, then the reset, which re-arms the
    deadline a full period ahead and leaves the slot as it is. *)
Lemma afterPush_spec s :
  trace (afterPush s)
  = trace s ++ [(now s, BlockReadyCb);
                (now s, TickerReset (blockWaitTime (api s)))] /\
  next (ticker (afterPush s)) = now s + blockWaitTime (api s) /\
  slot (ticker (afterPush s)) = slot (advance (now s) (ticker s)) /\
  now (afterPush s) = now s.
Proof.
  unfold afterPush. cbn [record trace set_ticker ticker now api resetTicker
                           next slot].
  rewrite <- app_assoc. repeat split; reflexivity.
Qed.

(** The tick case: the callback and no reset; the deadline is the one
    the runtime had set. *)
Lemma afterTick_spec t q s :
  trace (record BlockReadyCb (woken TickerC t q s))
  = trace s ++ [(t, Recv TickerC); (t, BlockReadyCb)] /\
  next (ticker (record BlockReadyCb (woken TickerC t q s)))
  = next (advance t (ticker s)) /\
  period (ticker (record BlockReadyCb (woken TickerC t q s)))
  = period (advance t (ticker s)).
Proof.
  cbn [record trace now woken receive set_ticker set_now set_node ticker
         drainTicker next period].
  rewrite <- app_assoc. repeat split; reflexivity.
Qed.

Section AfterPush.

(** A notification was taken at the instant [T], the period being [W]. *)
Variables T W : Z.

Lemma lateTicks_app d1 d2 :
  lateTicks T W d1 -> lateTicks T W d2 -> lateTicks T W (d1 ++ d2).
Proof.
  intros H1 H2. unfold lateTicks. rewrite ticks_app.
  apply Forall_app. split; assumption.
Qed.

Lemma lateTicks_plain d :
  Forall (fun te => plain (snd te)) d -> lateTicks T W d.
Proof.
  intros H. unfold lateTicks. rewrite plain_ticks by assumption. constructor.
Qed.

Lemma rearmed_Quiet s s1 : rearmed T W s -> Quiet s s1 -> rearmed T W s1.
Proof.
  intros (Hw & Hn & Hj) Hq.
  pose proof (quiet_now _ _ Hq). pose proof (quiet_ticker _ _ Hq) as Htk.
  repeat split.
  - now rewrite (quiet_wait _ _ Hq).
  - lia.
  - destruct Hj as [Hj|[Hs Hd]]; [left; lia | right].
    rewrite Htk. auto.
Qed.

Lemma feed_body_RearmedLoop fuel s s' :
  feed_body fuel s = (Ret Continue, s') -> RearmedLoop T W s s'.
Proof.
  intros Hb Hinv. apply feed_body_Iter in Hb.
  inversion Hb as [o s1 Hq [Ho|[msg Ho]]|
                   |s1 t n q Hq Hw Hp Hr|s1 t n q Hq Hw Hp Hr Hpos|]; subst;
    try discriminate.
  - (* a tick is taken *)
    destruct (rearmed_Quiet _ _ Hinv Hq) as (Hbw & Hn & Hj).
    pose proof (wakeAt_ge _ _ _ Hw) as Hge.
    assert (Ht : T + W <= t).
    { destruct Hj as [Hj|[Hs Hd]]; [lia|].
      pose proof (tick_not_before_deadline s1 t Hs Hr). lia. }
    destruct Hq as [(d1 & E1 & P1) _ _ _ _ _ _ _]. split.
    + repeat split.
      * cbn [record api]. now rewrite woken_api.
      * cbn [record now]. rewrite woken_now. lia.
      * left. cbn [record now]. rewrite woken_now. exact Ht.
    + exists (d1 ++ [(t, Recv TickerC); (t, BlockReadyCb)]). split.
      * cbn [record trace now]. rewrite woken_trace, woken_now, E1.
        now rewrite <- !app_assoc.
      * apply lateTicks_app; [now apply lateTicks_plain|].
        repeat constructor. exact Ht.
  - (* a notification is taken *)
    destruct (rearmed_Quiet _ _ Hinv Hq) as (Hbw & Hn & Hj).
    pose proof (wakeAt_ge _ _ _ Hw) as Hge.
    destruct Hq as [(d1 & E1 & P1) _ _ _ _ _ _ _].
    destruct (afterPush_spec (woken BlockReadyChan t q s1))
      as (Etr & Enext & Eslot & Enow).
    rewrite woken_now, woken_api in *. split.
    + repeat split.
      * unfold afterPush. cbn [record set_ticker api]. now rewrite woken_api.
      * rewrite Enow. lia.
      * rewrite Enow, Enext, Eslot.
        destruct Hj as [Hj|[Hs Hd]]; [left; lia|].
        destruct (Z.le_gt_cases (T + W) t) as [Hl|Hl]; [left; exact Hl | right].
        split; [|lia].
        cbn [woken receive record set_chan set_now set_node ticker].
        unfold advance.
        destruct (Z.leb_spec (next (ticker s1)) t); [lia | exact Hs].
    + exists (d1 ++ [(t, Recv BlockReadyChan); (t, BlockReadyCb);
                     (t, TickerReset (blockWaitTime (api s1)))]). split.
      * rewrite Etr, woken_trace, E1. now rewrite <- !app_assoc.
      * apply lateTicks_app; [now apply lateTicks_plain | constructor].
Qed.

Lemma feed_body_RearmedEnd fuel s o s' :
  feed_body fuel s = (o, s') -> o <> Ret Continue ->
  RearmedEnd T W s (ended o) s'.
Proof.
  intros Hb Hne Hinv. apply feed_body_Iter in Hb.
  inversion Hb as [o1 s1 Hq Ho|s1 t n q Hq Hw Hp Hr
                   | | |s1 t n q Hq Hw Hp Hr Hpos]; subst;
    try (now contradiction Hne);
    destruct Hq as [(d1 & E1 & P1) _ _ _ _ _ _ _].
  - exists d1. split; [exact E1 | now apply lateTicks_plain].
  - exists (d1 ++ [(t, Recv Done); (t, Log Warn msgFeedCancelled None)]). split.
    + cbn [record trace now]. rewrite woken_trace, woken_now, E1.
      now rewrite <- !app_assoc.
    + apply lateTicks_app; [now apply lateTicks_plain | constructor].
  - exists (d1 ++ [(t, Recv BlockReadyChan); (t, BlockReadyCb)]). split.
    + cbn [record trace now]. rewrite woken_trace, woken_now, E1.
      now rewrite <- !app_assoc.
    + apply lateTicks_app; [now apply lateTicks_plain | constructor].
Qed.

(** After a notification taken at [T] with no tick waiting, whatever the
    loop does next, it receives no tick before [T + W]. *)
Lemma no_tick_before_fresh_interval fuel n s :
  rearmed T W s ->
  exists d,
    trace (snd (for_ n (feed_body fuel) s)) = trace s ++ d /\ lateTicks T W d.
Proof.
  apply (for_rule (feed_body fuel) (RearmedLoop T W) (RearmedEnd T W)).
  - apply feed_body_RearmedLoop.
  - apply feed_body_RearmedEnd.
  - intros s0 _. exists []. split; [now rewrite app_nil_r | constructor].
  - intros s1 s2 o s3 H12 H23 Hinv.
    destruct (H12 Hinv) as (Hinv2 & d1 & E1 & L1).
    destruct (H23 Hinv2) as (d2 & E2 & L2).
    exists (d1 ++ d2). split.
    + rewrite E2, E1. now rewrite app_assoc.
    + now apply lateTicks_app.
Qed.

End AfterPush.

(** The state after a push handled with no tick waiting is re-armed. *)
Lemma afterPush_rearmed s :
  0 <= blockWaitTime (api s) ->
  slot (advance (now s) (ticker s)) = false ->
  rearmed (now s) (blockWaitTime (api s)) (afterPush s).
Proof.
  intros Hpos Hs.
  destruct (afterPush_spec s) as (_ & Enext & Eslot & Enow).
  repeat split.
  - rewrite Enow. lia.
  - right. rewrite Enext, Eslot. split; [exact Hs | lia].
Qed.

(** ** Scenario B, and a notification taken after a tick *)

(** Scenario B: one callback at 5 s, the next one at 35 s, and from then
    on every 30 s. *)
Example callbacks_of_scenario_B :
  callbacks (trace (snd (startBlockTemplateListener 3 pushAtFive)))
  = [5 * Second; 35 * Second; 65 * Second] /\
  recvs (trace (snd (startBlockTemplateListener 3 pushAtFive)))
  = [BlockReadyChan; TickerC; TickerC].
Proof. split; vm_compute; reflexivity. Qed.

(** C1.  The code at an input on which it departs from the claim.  The
    notification is taken at 5 s: the callback is invoked and the ticker
    is reset, its deadline now 8 s.  The tick sent at 3 s is still in
    the channel of the ticker, which [Reset] does not empty: the next
    select takes it at once, and the callback is invoked by the timer
    at 5 s, not at 8 s or later. *)
Theorem stale_tick_follows_push :
  trace (snd (startBlockTemplateListener 2 pushAfterTick))
  = [(0, Rpc RegisterForNewBlockTemplateNotifications);
     (0, Rpc GetInfo);
     (0, Log Warn msgNotSynced None);
     (0, Sleep (5 * Second));
     (5 * Second, Rpc GetInfo);
     (5 * Second, Recv BlockReadyChan);
     (5 * Second, BlockReadyCb);
     (5 * Second, TickerReset (3 * Second));
     (5 * Second, Rpc GetInfo);
     (5 * Second, Recv TickerC);
     (5 * Second, BlockReadyCb)] /\
  ticks (trace (snd (startBlockTemplateListener 2 pushAfterTick)))
  = [5 * Second] /\
  next (ticker (snd (startBlockTemplateListener 2 pushAfterTick)))
  = 8 * Second.
Proof. repeat split; vm_compute; reflexivity. Qed.

(** * Further properties *)

(** ** The manager is left as it was constructed *)

Lemma Kept_refl s : Kept s s.
Proof. intros _. reflexivity. Qed.

Lemma Kept_trans s1 s2 s3 : Kept s1 s2 -> Kept s2 s3 -> Kept s1 s3.
Proof.
  intros H12 H23 Hc. rewrite <- (H12 Hc). apply H23. now rewrite (H12 Hc).
Qed.

Lemma kept_emit e : preserves Kept (emit e).
Proof. intros s _. reflexivity. Qed.

Lemma kept_log l msg err : preserves Kept (log l msg err).
Proof. intros s _. reflexivity. Qed.

Lemma kept_sleep d : preserves Kept (sleep d).
Proof. intros s _. reflexivity. Qed.

Lemma kept_ask {A} (q : Node -> list A) set call :
  preserves Kept (ask q set call).
Proof. intros s _. unfold ask. destruct (q (node s)); reflexivity. Qed.

Lemma kept_select cases : preserves Kept (select cases).
Proof.
  intros s _. unfold select.
  destruct (wakeAt cases s); [|reflexivity].
  destruct (pickQ (node s)); [reflexivity|].
  cbn [snd]. now rewrite receive_api.
Qed.

Lemma kept_NewTicker d : preserves Kept (time_NewTicker d).
Proof. intros s _. unfold time_NewTicker. destruct (d <=? 0); reflexivity. Qed.

Lemma kept_Reset d : preserves Kept (ticker_Reset d).
Proof. intros s _. unfold ticker_Reset. destruct (d <=? 0); reflexivity. Qed.

Lemma kept_set_chan {A} (a : A) (f : State -> list Z) :
  preserves Kept (fun s => (Ret a, set_chan (f s) s)).
Proof. intros s _. reflexivity. Qed.

Lemma kept_reconnect : preserves Kept reconnect.
Proof.
  intros s Hc. unfold reconnect, bind, getApi, pyrind_Reconnect, onClient,
    bind, getApi, ask.
  destruct (pyrind (api s)) eqn:E; [|now contradiction Hc].
  rewrite E. destruct (reconnectQ (node s)); reflexivity.
Qed.

Create HintDb kept.

#[local] Hint Resolve kept_emit kept_log kept_sleep kept_ask kept_select
  kept_NewTicker kept_Reset kept_set_chan kept_reconnect : kept.

Ltac keeping := frame Kept_refl Kept_trans ltac:(auto with kept).

Lemma kept_waitForSync fuel verbose : preserves Kept (waitForSync fuel verbose).
Proof. unfold waitForSync, waitForSync_body, pyrind_GetInfo. keeping. Qed.

#[local] Hint Resolve kept_waitForSync : kept.

Lemma kept_feed fuel : preserves Kept (startBlockTemplateListener fuel).
Proof.
  unfold startBlockTemplateListener, feed_body, feed_recover, feed_select,
    pyrind_RegisterForNewBlockTemplateNotifications, blockReadyCb,
    makeBlockReadyChan.
  keeping.
Qed.

Lemma kept_stats fuel : preserves Kept (startStatsThread fuel).
Proof.
  unfold startStatsThread, stats_body, stats_tick, pyrind_GetBlockDAGInfo,
    pyrind_EstimateNetworkHashesPerSecond.
  keeping.
Qed.

Lemma kept_Start fuel : preserves Kept (Start fuel).
Proof. unfold Start. keeping. Qed.

Lemma kept_GetBlockTemplate version client :
  preserves Kept (PyrinApi_GetBlockTemplate version client).
Proof. unfold PyrinApi_GetBlockTemplate, pyrind_GetBlockTemplate. keeping. Qed.

(** X1.  [NewPyrinApi] dials the address once.  When that fails it
    returns the error as it is and no manager.  When it succeeds the
    manager has the address, the wait time and the client it was given,
    and no method changes any of its fields afterwards: [reconnect],
    [waitForSync], [Start], the two loops and [GetBlockTemplate] leave
    the struct exactly as constructed. *)
Theorem constructed_manager_is_never_modified :
  forall (addr : string) (wait : Duration) (s0 : State),
    rpcs (trace (snd (NewPyrinApi addr wait s0)))
    = rpcs (trace s0) ++ match dialQ (node s0) with
                         | [] => []
                         | _ => [NewRPCClient addr]
                         end /\
    (forall err q,
        dialQ (node s0) = inr err :: q ->
        fst (NewPyrinApi addr wait s0) = Ret (inr err)) /\
    (forall client q,
        dialQ (node s0) = inl client :: q ->
        let ks := {| address := addr; blockWaitTime := wait;
                     pyrind := Some client; connected := true |} in
        fst (NewPyrinApi addr wait s0) = Ret (inl ks) /\
        forall (fuel : nat) (verbose : bool) (version : string)
               (ctx : StratumContext) (s : State),
          api s = ks ->
          api (snd (reconnect s)) = ks /\
          api (snd (waitForSync fuel verbose s)) = ks /\
          api (snd (Start fuel s)) = ks /\
          api (snd (startBlockTemplateListener fuel s)) = ks /\
          api (snd (startStatsThread fuel s)) = ks /\
          api (snd (PyrinApi_GetBlockTemplate version ctx s)) = ks).
Proof.
  intros addr wait s0. repeat apply conj.
  - unfold NewPyrinApi, bind, rpcclient_NewRPCClient, ask.
    destruct (dialQ (node s0)) as [|[c|err] q]; cbn [snd record trace ret].
    + now rewrite app_nil_r.
    + rewrite rpcs_app. reflexivity.
    + rewrite rpcs_app. reflexivity.
  - intros err q Hq. unfold NewPyrinApi, bind, rpcclient_NewRPCClient, ask.
    rewrite Hq. reflexivity.
  - intros client q Hq ks. split.
    + unfold NewPyrinApi, bind, rpcclient_NewRPCClient, ask.
      rewrite Hq. reflexivity.
    + intros fuel verbose version ctx s Hs.
      assert (Hc : pyrind (api s) <> None) by (rewrite Hs; discriminate).
      rewrite <- Hs. repeat apply conj.
      * now apply kept_reconnect.
      * now apply kept_waitForSync.
      * now apply kept_Start.
      * now apply kept_feed.
      * now apply kept_stats.
      * now apply kept_GetBlockTemplate.
Qed.

Lemma constructed_manager_is_never_modified_witness :
  fst (NewPyrinApi "127.0.0.1:13110" (30 * Second) nodeAccepts)
  = Ret (inl (manager "127.0.0.1:13110" (30 * Second))) /\
  api (snd (Start 1 nodeAccepts)) = manager "127.0.0.1:13110" (30 * Second).
Proof.
  destruct (proj2 (proj2 (constructed_manager_is_never_modified
                            "127.0.0.1:13110" (30 * Second) nodeAccepts))
              (Client "127.0.0.1:13110") [] eq_refl) as (H1 & H2).
  split; [exact H1|].
  exact (proj1 (proj2 (proj2 (H2 1%nat true ""
                                 {| WalletAddr := ""; RemoteApp := "" |}
                                 nodeAccepts eq_refl)))).
Defined.

(** ** reconnect *)

Lemma reconnect_with_client s c r q :
  pyrind (api s) = Some c ->
  reconnectQ (node s) = r :: q ->
  reconnect s
  = (Ret r, record (Rpc Reconnect) (set_node (set_reconnectQ q (node s)) s)).
Proof.
  intros Hc Hq. unfold reconnect, bind, getApi, pyrind_Reconnect, onClient,
    bind, getApi, ask.
  rewrite Hc, Hc, Hq. reflexivity.
Qed.

Lemma reconnect_dial_failed s err q :
  pyrind (api s) = None ->
  dialQ (node s) = inr err :: q ->
  reconnect s
  = (Ret (Some err),
     record (Rpc (NewRPCClient (address (api s))))
       (set_node (set_dialQ q (node s)) s)).
Proof.
  intros Hc Hq. unfold reconnect, bind, getApi, rpcclient_NewRPCClient, ask.
  rewrite Hc, Hq. reflexivity.
Qed.

Lemma reconnect_dial_succeeded s client q :
  pyrind (api s) = None ->
  dialQ (node s) = inl client :: q ->
  reconnect s
  = (Ret None,
     set_api (set_pyrind (Some client) (api s))
       (record (Rpc (NewRPCClient (address (api s))))
          (set_node (set_dialQ q (node s)) s))).
Proof.
  intros Hc Hq. unfold reconnect, bind, getApi, rpcclient_NewRPCClient, ask.
  rewrite Hc, Hq. reflexivity.
Qed.

(** X2.  [reconnect] with a client asks that client to reconnect, returns
    its answer as it is and leaves the manager alone: it never dials.
    Without a client it dials the stored address: a failure is returned
    as it is and leaves the manager without client, so that the call can
    be made again; a success stores the new client and returns nil, and
    the next [reconnect] goes through that client. *)
Theorem reconnect_dials_only_without_client :
  forall (s : State),
    (forall c r q,
        pyrind (api s) = Some c ->
        reconnectQ (node s) = r :: q ->
        fst (reconnect s) = Ret r /\
        api (snd (reconnect s)) = api s /\
        rpcs (trace (snd (reconnect s))) = rpcs (trace s) ++ [Reconnect]) /\
    (forall err q,
        pyrind (api s) = None ->
        dialQ (node s) = inr err :: q ->
        fst (reconnect s) = Ret (Some err) /\
        api (snd (reconnect s)) = api s /\
        rpcs (trace (snd (reconnect s)))
        = rpcs (trace s) ++ [NewRPCClient (address (api s))]) /\
    (forall client q,
        pyrind (api s) = None ->
        dialQ (node s) = inl client :: q ->
        fst (reconnect s) = Ret None /\
        api (snd (reconnect s)) = set_pyrind (Some client) (api s) /\
        rpcs (trace (snd (reconnect s)))
        = rpcs (trace s) ++ [NewRPCClient (address (api s))] /\
        forall r q',
          reconnectQ (node s) = r :: q' ->
          fst (reconnect (snd (reconnect s))) = Ret r /\
          api (snd (reconnect (snd (reconnect s))))
          = set_pyrind (Some client) (api s) /\
          rpcs (trace (snd (reconnect (snd (reconnect s)))))
          = rpcs (trace s) ++ [NewRPCClient (address (api s)); Reconnect]).
Proof.
  intros s. repeat apply conj.
  - intros c r q Hc Hq. rewrite (reconnect_with_client s c r q Hc Hq).
    cbn [fst snd record api trace set_node]. rewrite rpcs_app. auto.
  - intros err q Hc Hq. rewrite (reconnect_dial_failed s err q Hc Hq).
    cbn [fst snd record api trace set_node]. rewrite rpcs_app. auto.
  - intros client q Hc Hq. rewrite (reconnect_dial_succeeded s client q Hc Hq).
    cbn [fst snd record api trace set_node set_api]. rewrite rpcs_app.
    split; [reflexivity|]. split; [reflexivity|]. split; [reflexivity|].
    intros r q' Hr.
    erewrite reconnect_with_client by (cbn; eauto).
    cbn [fst snd record api trace set_node set_api].
    rewrite !rpcs_app, <- app_assoc. auto.
Qed.

Lemma reconnect_dials_only_without_client_witness :
  fst (reconnect clientLost) = Ret (Some "connection refused") /\
  api (snd (reconnect clientLost)) = api clientLost /\
  rpcs (trace (snd (reconnect clientLost)))
  = rpcs (trace clientLost) ++ [NewRPCClient (address (api clientLost))].
Proof.
  exact (proj1 (proj2 (reconnect_dials_only_without_client clientLost))
           "connection refused" [inl (Client "127.0.0.1:13110")]
           eq_refl eq_refl).
Defined.

(** ** GetBlockTemplate *)

(** X3.  [GetBlockTemplate] makes one call on the node, with the wallet
    address of the session and a description made of its application
    name and of the version of the bridge.  The template of the node is
    returned untouched; an error is returned wrapped, with no template.
    The manager, the clock, the ticker and the notification channel are
    left alone. *)
Theorem GetBlockTemplate_passes_template_or_wraps_error :
  forall (version : string) (ctx : StratumContext) (s : State)
         (c : RPCClient) (r : result BlockTemplate)
         (q : list (result BlockTemplate)),
    pyrind (api s) = Some c ->
    templateQ (node s) = r :: q ->
    fst (PyrinApi_GetBlockTemplate version ctx s)
    = Ret match r with
          | inl template => inl template
          | inr err => inr (Wrap err msgTemplate)
          end /\
    trace (snd (PyrinApi_GetBlockTemplate version ctx s))
    = trace s
      ++ [(now s,
           Rpc (GetBlockTemplate (WalletAddr ctx)
                  (String.append "'"
                     (String.append (RemoteApp ctx)
                        (String.append
                           "' via pyrin-network/pyrin-stratum-bridge_"
                           version)))))] /\
    templateQ (node (snd (PyrinApi_GetBlockTemplate version ctx s))) = q /\
    api (snd (PyrinApi_GetBlockTemplate version ctx s)) = api s /\
    now (snd (PyrinApi_GetBlockTemplate version ctx s)) = now s /\
    ticker (snd (PyrinApi_GetBlockTemplate version ctx s)) = ticker s /\
    blockReadyChan (snd (PyrinApi_GetBlockTemplate version ctx s))
    = blockReadyChan s.
Proof.
  intros version ctx s c r q Hc Hq.
  unfold PyrinApi_GetBlockTemplate, pyrind_GetBlockTemplate.
  rewrite (bind_Ret _ _ _ _ _ (onClient_ask templateQ _ _ s c r q Hc Hq)).
  destruct r as [template|err]; repeat split.
Qed.

Lemma GetBlockTemplate_passes_template_or_wraps_error_witness :
  fst (PyrinApi_GetBlockTemplate "v1.0"
         {| WalletAddr := "pyrin:qq"; RemoteApp := "miner" |} templateFails)
  = Ret (inr (Wrap "timeout" msgTemplate)).
Proof.
  exact (proj1 (GetBlockTemplate_passes_template_or_wraps_error
                  "v1.0" {| WalletAddr := "pyrin:qq"; RemoteApp := "miner" |}
                  templateFails (Client "127.0.0.1:13110") (inr "timeout") []
                  eq_refl eq_refl)).
Defined.

(** ** An iteration whose recovery succeeds *)

(** A [reconnect] that returns has made one call and taken no time. *)
Lemma reconnect_Ret s r s' :
  reconnect s = (Ret r, s') ->
  now s' = now s /\
  sleeps (trace s') = sleeps (trace s) /\
  callbacks (trace s') = callbacks (trace s) /\
  (rpcs (trace s') = rpcs (trace s) ++ [Reconnect] \/
   rpcs (trace s') = rpcs (trace s) ++ [NewRPCClient (address (api s))]).
Proof.
  unfold reconnect, bind, getApi, pyrind_Reconnect, onClient, bind, getApi,
    rpcclient_NewRPCClient, ask.
  destruct (pyrind (api s)) eqn:E.
  - rewrite E. destruct (reconnectQ (node s)); [discriminate|].
    intros H; injection H as _ <-.
    cbn [record set_node trace now].
    rewrite sleeps_app, callbacks_app, rpcs_app. cbn.
    rewrite !app_nil_r. auto.
  - destruct (dialQ (node s)) as [|[client|err] q]; [discriminate| |];
      intros H; injection H as _ <-;
      cbn [record set_node set_api trace now];
      rewrite sleeps_app, callbacks_app, rpcs_app; cbn;
      rewrite !app_nil_r; auto.
Qed.

(** X4.  An iteration of the feed goes to its select straight after the
    sync check when the check passes, and straight after the
    reconnection when the check fails and the reconnection succeeds.  In
    the second case nothing is slept for the reconnection, the sync
    state is not asked again before the select, and no callback is
    invoked before it. *)
Theorem feed_iteration_goes_on_after_recovery :
  forall (fuel : nat) (s s1 : State),
    (waitForSync fuel false s = (Ret None, s1) ->
     feed_body fuel s = feed_select s1) /\
    (forall e s2,
        waitForSync fuel false s = (Ret (Some e), s1) ->
        reconnect (record (Log Error msgSyncError (Some e)) s1)
        = (Ret None, s2) ->
        feed_body fuel s = feed_select s2 /\
        now s2 = now s1 /\
        sleeps (trace s2) = sleeps (trace s1) /\
        callbacks (trace s2) = callbacks (trace s) /\
        (rpcs (trace s2) = rpcs (trace s1) ++ [Reconnect] \/
         rpcs (trace s2)
         = rpcs (trace s1) ++ [NewRPCClient (address (api s1))])).
Proof.
  intros fuel s s1. split.
  - intros Hw. unfold feed_body, feed_recover.
    assert (Hrec : (err <- waitForSync fuel false ;;
                    match err with
                    | None => ret tt
                    | Some e =>
                        log Error msgSyncError (Some e) ;;
                        err' <- reconnect ;;
                        match err' with
                        | None => ret tt
                        | Some e' =>
                            log Error msgReconnectError (Some e') ;;
                            sleep (5 * Second)
                        end
                    end) s = (Ret tt, s1))
      by (now rewrite (bind_Ret _ _ _ _ _ Hw)).
    now rewrite (bind_Ret _ _ _ _ _ Hrec).
  - intros e s2 Hw Hr.
    assert (Hrec : feed_recover fuel s = (Ret tt, s2)).
    { unfold feed_recover. rewrite (bind_Ret _ _ _ _ _ Hw).
      erewrite bind_Ret by reflexivity.
      rewrite (bind_Ret _ _ _ _ _ Hr). reflexivity. }
    destruct (reconnect_Ret _ _ _ Hr) as (Hn & Hs & Hc & Hrpc).
    cbn [record now trace api] in Hn, Hs, Hc, Hrpc.
    rewrite sleeps_app, app_nil_r in Hs.
    rewrite callbacks_app, app_nil_r in Hc.
    rewrite rpcs_app, app_nil_r in Hrpc.
    repeat split; auto.
    + unfold feed_body. now rewrite (bind_Ret _ _ _ _ _ Hrec).
    + rewrite Hc.
      pose proof (quiet_waitForSync fuel false s) as H. rewrite Hw in H.
      destruct (Quiet_Silent _ _ H) as (d & E & _ & Cd).
      cbn [snd] in E. rewrite E, callbacks_app, Cd. apply app_nil_r.
Qed.

Lemma feed_iteration_goes_on_after_recovery_witness :
  feed_body 1 nodeComesBack
  = feed_select
      (snd (reconnect
              (record (Log Error msgSyncError
                         (Some (Wrap "EOF" (msgFetching "127.0.0.1:13110"))))
                 (snd (waitForSync 1 false nodeComesBack))))).
Proof.
  exact (proj1 (proj2 (feed_iteration_goes_on_after_recovery
                         1 nodeComesBack
                         (snd (waitForSync 1 false nodeComesBack)))
                  (Wrap "EOF" (msgFetching "127.0.0.1:13110")) _
                  eq_refl eq_refl)).
Defined.

(** ** How the feed starts *)

Lemma register_answered s c r q :
  pyrind (api s) = Some c ->
  registerQ (node s) = r :: q ->
  pyrind_RegisterForNewBlockTemplateNotifications s
  = (Ret r,
     let s1 := record (Rpc RegisterForNewBlockTemplateNotifications)
                 (set_node (set_registerQ q (node s)) s) in
     match r with
     | Some _ => s1
     | None => set_chan (pushAt (node s1)) s1
     end).
Proof.
  intros Hc Hq.
  unfold pyrind_RegisterForNewBlockTemplateNotifications, onClient.
  unfold bind, getApi, ask. rewrite Hc, Hq.
  destruct r; reflexivity.
Qed.

(** With a client and a positive wait time the loop is entered. *)
Lemma feed_start_loop fuel s c r q :
  pyrind (api s) = Some c ->
  registerQ (node s) = r :: q ->
  0 < blockWaitTime (api s) ->
  startBlockTemplateListener fuel s
  = for_ fuel (feed_body fuel) (feedReady r q s).
Proof.
  intros Hc Hq Hpos. unfold startBlockTemplateListener.
  rewrite (bind_Ret _ _ s tt (set_chan [] s) eq_refl).
  rewrite (bind_Ret _ _ _ _ _ (register_answered (set_chan [] s) c r q Hc Hq)).
  destruct r as [err|]; cbv zeta.
  - erewrite bind_Ret by reflexivity.
    erewrite bind_Ret by reflexivity.
    erewrite bind_Ret by (apply NewTicker_positive; exact Hpos).
    reflexivity.
  - erewrite bind_Ret by reflexivity.
    erewrite bind_Ret by reflexivity.
    erewrite bind_Ret by (apply NewTicker_positive; exact Hpos).
    reflexivity.
Qed.

(** With a wait time that is not positive, [time.NewTicker] panics. *)
Lemma feed_start_panic fuel s c r q :
  pyrind (api s) = Some c ->
  registerQ (node s) = r :: q ->
  blockWaitTime (api s) <= 0 ->
  startBlockTemplateListener fuel s
  = (Panic nonPositiveNewTicker, registered r q s).
Proof.
  intros Hc Hq Hneg. unfold startBlockTemplateListener.
  rewrite (bind_Ret _ _ s tt (set_chan [] s) eq_refl).
  rewrite (bind_Ret _ _ _ _ _ (register_answered (set_chan [] s) c r q Hc Hq)).
  assert (Hp : forall s0, blockWaitTime (api s0) = blockWaitTime (api s) ->
                          time_NewTicker (blockWaitTime (api s0)) s0
                          = (Panic nonPositiveNewTicker, s0)).
  { intros s0 E. unfold time_NewTicker. rewrite E.
    destruct (Z.leb_spec (blockWaitTime (api s)) 0); [reflexivity | lia]. }
  destruct r as [err|]; cbv zeta.
  - erewrite bind_Ret by reflexivity.
    erewrite bind_Ret by reflexivity.
    erewrite bind_Panic by (apply Hp; reflexivity).
    reflexivity.
  - erewrite bind_Ret by reflexivity.
    erewrite bind_Ret by reflexivity.
    erewrite bind_Panic by (apply Hp; reflexivity).
    reflexivity.
Qed.

Lemma kept_feed_body fuel : preserves Kept (feed_body fuel).
Proof.
  unfold feed_body, feed_recover, feed_select, blockReadyCb. keeping.
Qed.

(** The loop does not panic while the client is there and the wait time
    is positive. *)
Lemma feed_loop_no_panic fuel n s :
  pyrind (api s) <> None ->
  0 < blockWaitTime (api s) ->
  forall msg, fst (for_ n (feed_body fuel) s) <> Panic msg.
Proof.
  intros Hc Hpos.
  apply (for_rule (feed_body fuel)
           (fun s s' => pyrind (api s) <> None /\ 0 < blockWaitTime (api s) ->
                        pyrind (api s') <> None /\ 0 < blockWaitTime (api s'))
           (fun s o _ => pyrind (api s) <> None /\ 0 < blockWaitTime (api s) ->
                         forall msg, o <> Panic msg)).
  - intros s0 s' Hb [H1 H2].
    pose proof (kept_feed_body fuel s0 H1) as Hk. rewrite Hb in Hk.
    cbn [snd] in Hk. rewrite Hk. auto.
  - intros s0 o s' Hb Hne [H1 H2] msg Ho.
    destruct o as [[|[]]| |]; cbn in Ho; try discriminate.
    injection Ho as ->.
    now apply (feed_body_Iter_safe fuel s0 _ s' H1 H2 Hb msg).
  - intros s0 _ msg. discriminate.
  - intros s1 s2 o s3 H12 H23 H1. apply H23, H12, H1.
  - auto.
Qed.

Lemma feedReady_api r q s : api (feedReady r q s) = api s.
Proof. destruct r; reflexivity. Qed.

Lemma registered_trace r q s :
  exists d,
    trace (registered r q s) = trace s ++ d /\
    Forall (fun te => plain (snd te)) d /\
    rpcs d = [RegisterForNewBlockTemplateNotifications].
Proof.
  destruct r as [err|].
  - exists [(now s, Rpc RegisterForNewBlockTemplateNotifications);
            (now s, Log Error msgRegister None)].
    split; [|split; [repeat constructor | reflexivity]].
    cbn [registered record trace set_node set_chan now].
    now rewrite <- app_assoc.
  - exists [(now s, Rpc RegisterForNewBlockTemplateNotifications)].
    split; [reflexivity | split; [repeat constructor | reflexivity]].
Qed.

Lemma feedReady_trace r q s :
  trace (feedReady r q s) = trace (registered r q s).
Proof. reflexivity. Qed.

(** X5.  With its client and an answer to its registration, the feed
    panics exactly when the wait time of the manager is not positive.
    It then panics in [time.NewTicker], after the registration and
    before the first iteration: no sync check is made and no callback
    invoked.  With a positive wait time no panic ever comes out of the
    loop. *)
Theorem feed_panics_exactly_on_non_positive_wait :
  forall (fuel : nat) (s : State) (c : RPCClient) (r : option error)
         (q : list (option error)),
    pyrind (api s) = Some c ->
    registerQ (node s) = r :: q ->
    ((exists msg, fst (startBlockTemplateListener fuel s) = Panic msg) <->
     blockWaitTime (api s) <= 0) /\
    (blockWaitTime (api s) <= 0 ->
     fst (startBlockTemplateListener fuel s) = Panic nonPositiveNewTicker /\
     rpcs (trace (snd (startBlockTemplateListener fuel s)))
     = rpcs (trace s) ++ [RegisterForNewBlockTemplateNotifications] /\
     callbacks (trace (snd (startBlockTemplateListener fuel s)))
     = callbacks (trace s)).
Proof.
  intros fuel s c r q Hc Hq.
  assert (Hneg : blockWaitTime (api s) <= 0 ->
                 fst (startBlockTemplateListener fuel s)
                 = Panic nonPositiveNewTicker /\
                 rpcs (trace (snd (startBlockTemplateListener fuel s)))
                 = rpcs (trace s) ++ [RegisterForNewBlockTemplateNotifications] /\
                 callbacks (trace (snd (startBlockTemplateListener fuel s)))
                 = callbacks (trace s)).
  { intros Hle. rewrite (feed_start_panic fuel s c r q Hc Hq Hle).
    cbn [fst snd]. destruct (registered_trace r q s) as (d & E & P & R).
    rewrite E, rpcs_app, callbacks_app, R, (plain_callbacks d P), app_nil_r.
    auto. }
  split; [|exact Hneg]. split.
  - intros (msg & Hp).
    destruct (Z.le_gt_cases (blockWaitTime (api s)) 0) as [Hle|Hgt];
      [exact Hle|].
    exfalso. rewrite (feed_start_loop fuel s c r q Hc Hq) in Hp by lia.
    apply (feed_loop_no_panic fuel fuel (feedReady r q s)) with (msg := msg).
    + rewrite feedReady_api, Hc. discriminate.
    + rewrite feedReady_api. lia.
    + exact Hp.
  - intros Hle. exists nonPositiveNewTicker. apply (Hneg Hle).
Qed.

Lemma feed_panics_exactly_on_non_positive_wait_witness :
  fst (startBlockTemplateListener 1 zeroWait) = Panic nonPositiveNewTicker /\
  rpcs (trace (snd (startBlockTemplateListener 1 zeroWait)))
  = rpcs (trace zeroWait) ++ [RegisterForNewBlockTemplateNotifications] /\
  callbacks (trace (snd (startBlockTemplateListener 1 zeroWait)))
  = callbacks (trace zeroWait).
Proof.
  assert (Hle : blockWaitTime (api zeroWait) <= 0) by (cbn; lia).
  exact (proj2 (feed_panics_exactly_on_non_positive_wait
                  1 zeroWait (Client "127.0.0.1:13110") None []
                  eq_refl eq_refl) Hle).
Defined.

(** ** One callback for each notification or tick taken *)

Lemma wakes_app a b : wakes (a ++ b) = wakes a ++ wakes b.
Proof. apply flat_map_app. Qed.

Lemma pushes_app a b : pushes (a ++ b) = pushes a ++ pushes b.
Proof. apply flat_map_app. Qed.

Lemma resets_app a b : resets (a ++ b) = resets a ++ resets b.
Proof. apply flat_map_app. Qed.

Lemma plain_wakes d : Forall (fun te => plain (snd te)) d -> wakes d = [].
Proof.
  induction 1 as [|[t e] d He _ IH]; [reflexivity|].
  cbn [wakes flat_map snd] in *. fold (wakes d). rewrite IH.
  destruct e; cbn in He; try contradiction; reflexivity.
Qed.

Lemma plain_pushes d : Forall (fun te => plain (snd te)) d -> pushes d = [].
Proof.
  induction 1 as [|[t e] d He _ IH]; [reflexivity|].
  cbn [pushes flat_map snd] in *. fold (pushes d). rewrite IH.
  destruct e; cbn in He; try contradiction; reflexivity.
Qed.

Lemma plain_resets d : Forall (fun te => plain (snd te)) d -> resets d = [].
Proof.
  induction 1 as [|[t e] d He _ IH]; [reflexivity|].
  cbn [resets flat_map snd] in *. fold (resets d). rewrite IH.
  destruct e; cbn in He; try contradiction; reflexivity.
Qed.

(** What an iteration adds to the trace, by the way it goes. *)
Lemma Iter_trace s o s' :
  Iter s o s' ->
  exists d1 d2,
    trace s' = trace s ++ d1 ++ d2 /\
    Forall (fun te => plain (snd te)) d1 /\
    ((d2 = [] /\ (o = Pending \/ exists msg, o = Panic msg)) \/
     (exists t, d2 = [(t, Recv Done); (t, Log Warn msgFeedCancelled None)] /\
                o = Ret (Break tt)) \/
     (exists t, d2 = [(t, Recv TickerC); (t, BlockReadyCb)] /\
                o = Ret Continue) \/
     (exists t w, d2 = [(t, Recv BlockReadyChan); (t, BlockReadyCb);
                        (t, TickerReset w)] /\
                  o = Ret Continue) \/
     (exists t, d2 = [(t, Recv BlockReadyChan); (t, BlockReadyCb)] /\
                o = Panic nonPositiveReset)).
Proof.
  intros H.
  inversion H as [o1 s1 Hq Ho|s1 t n q Hq Hw Hp Hr|s1 t n q Hq Hw Hp Hr
                  |s1 t n q Hq Hw Hp Hr Hpos|s1 t n q Hq Hw Hp Hr Hpos]; subst;
    destruct Hq as [(d1 & E1 & P1) _ _ _ _ _ _ _]; exists d1.
  - exists []. rewrite app_nil_r. split; [exact E1|]. split; [exact P1|].
    left. auto.
  - eexists. split; [|split; [exact P1|]].
    + cbn [record trace now]. rewrite woken_trace, woken_now, E1.
      rewrite <- !app_assoc. reflexivity.
    + right; left. exists t. split; reflexivity.
  - eexists. split; [|split; [exact P1|]].
    + cbn [record trace now]. rewrite woken_trace, woken_now, E1.
      rewrite <- !app_assoc. reflexivity.
    + right; right; left. exists t. split; reflexivity.
  - eexists. split; [|split; [exact P1|]].
    + unfold afterPush. cbn [record trace now set_ticker api].
      rewrite woken_trace, woken_now, woken_api, E1.
      rewrite <- !app_assoc. reflexivity.
    + right; right; right; left.
      exists t, (blockWaitTime (api s1)). split; reflexivity.
  - eexists. split; [|split; [exact P1|]].
    + cbn [record trace now]. rewrite woken_trace, woken_now, E1.
      rewrite <- !app_assoc. reflexivity.
    + right; right; right; right. exists t. split; reflexivity.
Qed.

(** In what the loop adds to the trace the callbacks are the notifications
    and ticks taken, and the resets the notifications taken, but for
    the reset that panicked. *)
Lemma feed_loop_one_callback_per_wake fuel n s :
  exists d,
    trace (snd (for_ n (feed_body fuel) s)) = trace s ++ d /\
    callbacks d = wakes d /\
    (fst (for_ n (feed_body fuel) s) <> Panic nonPositiveReset ->
     resets d = pushes d).
Proof.
  apply (for_rule (feed_body fuel)
           (fun s s' => exists d, trace s' = trace s ++ d /\
                                  callbacks d = wakes d /\
                                  resets d = pushes d)
           (fun s o s' => exists d, trace s' = trace s ++ d /\
                                    callbacks d = wakes d /\
                                    (o <> Panic nonPositiveReset ->
                                     resets d = pushes d))).
  - intros s0 s' Hb. apply feed_body_Iter in Hb.
    destruct (Iter_trace _ _ _ Hb) as (d1 & d2 & E & P & Hcase).
    exists (d1 ++ d2). split; [exact E|].
    rewrite callbacks_app, wakes_app, resets_app, pushes_app,
      (plain_callbacks d1 P), (plain_wakes d1 P), (plain_resets d1 P),
      (plain_pushes d1 P).
    destruct Hcase as [[-> _]|[(t & -> & Ho)|[(t & -> & Ho)
                      |[(t & w & -> & Ho)|(t & -> & Ho)]]]];
      try discriminate; split; reflexivity.
  - intros s0 o s' Hb Hne. apply feed_body_Iter in Hb.
    destruct (Iter_trace _ _ _ Hb) as (d1 & d2 & E & P & Hcase).
    exists (d1 ++ d2). split; [exact E|].
    rewrite callbacks_app, wakes_app, resets_app, pushes_app,
      (plain_callbacks d1 P), (plain_wakes d1 P), (plain_resets d1 P),
      (plain_pushes d1 P).
    destruct Hcase as [[-> _]|[(t & -> & Ho)|[(t & -> & Ho)
                      |[(t & w & -> & Ho)|(t & -> & Ho)]]]];
      subst; (split; [reflexivity|]); cbn; intros Hp; try reflexivity.
    now contradiction Hp.
  - intros s0. exists []. rewrite app_nil_r. repeat split.
  - intros s1 s2 o s3 (d1 & E1 & C1 & R1) (d2 & E2 & C2 & R2).
    exists (d1 ++ d2). split; [rewrite E2, E1; now rewrite app_assoc|].
    rewrite callbacks_app, wakes_app, resets_app, pushes_app, C1, C2, R1.
    split; [reflexivity|]. intros Hp. now rewrite (R2 Hp).
Qed.

(** The feed either enters its loop, from the state [feedReady], or
    stops before it, having made calls and logged at most. *)
Lemma feed_start_cases fuel s :
  (exists r q,
      startBlockTemplateListener fuel s
      = for_ fuel (feed_body fuel) (feedReady r q s) /\
      registerQ (node s) = r :: q /\
      pyrind (api s) <> None /\ 0 < blockWaitTime (api s)) \/
  (exists o s1 d,
      startBlockTemplateListener fuel s = (o, s1) /\
      trace s1 = trace s ++ d /\
      Forall (fun te => plain (snd te)) d /\
      (o = Pending \/ o = Panic nilDeref \/ o = Panic nonPositiveNewTicker)).
Proof.
  destruct (pyrind (api s)) as [c|] eqn:Hc.
  - destruct (registerQ (node s)) as [|r q] eqn:Hq.
    + right. exists Pending, (set_chan [] s), []. repeat split.
      * unfold startBlockTemplateListener.
        rewrite (bind_Ret _ _ s tt (set_chan [] s) eq_refl).
        apply bind_Pending.
        unfold pyrind_RegisterForNewBlockTemplateNotifications, onClient.
        unfold bind, getApi, ask. cbn [api set_chan].
        rewrite Hc. cbn [node set_chan]. rewrite Hq. reflexivity.
      * cbn. now rewrite app_nil_r.
      * constructor.
      * auto.
    + destruct (Z.le_gt_cases (blockWaitTime (api s)) 0) as [Hle|Hgt].
      * right. destruct (registered_trace r q s) as (d & E & P & _).
        exists (Panic nonPositiveNewTicker), (registered r q s), d.
        rewrite (feed_start_panic fuel s c r q Hc Hq Hle).
        repeat split; auto.
      * left. exists r, q.
        rewrite (feed_start_loop fuel s c r q Hc Hq) by lia.
        repeat split; [congruence | lia].
  - right. exists (Panic nilDeref), (set_chan [] s), []. repeat split.
    + unfold startBlockTemplateListener.
      rewrite (bind_Ret _ _ s tt (set_chan [] s) eq_refl).
      apply bind_Panic.
      unfold pyrind_RegisterForNewBlockTemplateNotifications.
      now apply onClient_nil.
    + cbn. now rewrite app_nil_r.
    + constructor.
    + auto.
Qed.

(** X6.  In every run of the feed the callback is invoked once, at the
    same instant, for each notification or tick that a select takes,
    and at no other moment; the ticker is reset once for each
    notification taken, and never for a tick. *)
Theorem feed_invokes_one_callback_per_event :
  forall (fuel : nat) (s : State),
    exists d,
      trace (snd (startBlockTemplateListener fuel s)) = trace s ++ d /\
      callbacks d = wakes d /\
      resets d = pushes d.
Proof.
  intros fuel s.
  destruct (feed_start_cases fuel s)
    as [(r & q & E & Hq & Hc & Hpos)|(o & s1 & d & E & Et & P & _)].
  - rewrite E.
    destruct (feed_loop_one_callback_per_wake fuel fuel (feedReady r q s))
      as (d & Ed & Cd & Rd).
    destruct (registered_trace r q s) as (d0 & E0 & P0 & _).
    exists (d0 ++ d). split; [|split].
    + rewrite Ed, feedReady_trace, E0. now rewrite app_assoc.
    + rewrite callbacks_app, wakes_app, (plain_callbacks d0 P0),
        (plain_wakes d0 P0). exact Cd.
    + rewrite resets_app, pushes_app, (plain_resets d0 P0),
        (plain_pushes d0 P0). apply Rd.
      apply feed_loop_no_panic; rewrite feedReady_api; assumption.
  - rewrite E. exists d. cbn [snd]. split; [exact Et|].
    now rewrite (plain_callbacks d P), (plain_wakes d P), (plain_resets d P),
      (plain_pushes d P).
Qed.

(** ** The notifications are taken one by one *)





(** ** The sync state is asked before every select *)

Lemma syncChecks_app a b : syncChecks (a ++ b) = syncChecks a ++ syncChecks b.
Proof. apply flat_map_app. Qed.

Lemma waitForSync_body_nil s :
  pyrind (api s) = None -> waitForSync_body s = (Panic nilDeref, s).
Proof.
  intros Hc. unfold waitForSync_body, pyrind_GetInfo.
  erewrite bind_Ret by reflexivity.
  now rewrite (bind_Panic _ _ _ _ _ (onClient_nil _ s Hc)).
Qed.

Lemma waitForSync_body_unanswered s c :
  pyrind (api s) = Some c -> infoQ (node s) = [] ->
  waitForSync_body s = (Pending, s).
Proof.
  intros Hc Hq. unfold waitForSync_body, pyrind_GetInfo.
  erewrite bind_Ret by reflexivity.
  now rewrite (bind_Pending _ _ _ _
                 (onClient_ask_empty infoQ set_infoQ GetInfo s c Hc Hq)).
Qed.

(** The loop of [waitForSync] does not return without having asked. *)
Lemma for_waitForSync_body_asks n : forall s r s',
  for_ n waitForSync_body s = (Ret r, s') ->
  (List.length (syncChecks (trace s))
   < List.length (syncChecks (trace s')))%nat.
Proof.
  induction n as [|n IH]; intros s r s' H; [discriminate|].
  destruct (pyrind (api s)) as [c|] eqn:Hc.
  - destruct (infoQ (node s)) as [|[[[|]]|err] q] eqn:Hq.
    + cbn [for_] in H.
      rewrite (bind_Pending _ _ _ _
                 (waitForSync_body_unanswered s c Hc Hq)) in H.
      discriminate.
    + rewrite (for_Break _ _ _ _ _
                 (waitForSync_body_synced s c q Hc Hq)) in H.
      injection H as _ <-. cbn [record trace set_node].
      rewrite syncChecks_app, length_app. cbn. lia.
    + rewrite (for_Continue _ _ _ _
                 (waitForSync_body_unsynced s c q Hc Hq)) in H.
      apply IH in H. unfold afterUnsynced in H.
      cbn [record trace set_node set_now] in H.
      rewrite !syncChecks_app, !length_app in H. cbn in H. lia.
    + rewrite (for_Break _ _ _ _ _
                 (waitForSync_body_failed s c err q Hc Hq)) in H.
      injection H as _ <-. cbn [record trace set_node].
      rewrite syncChecks_app, length_app. cbn. lia.
  - cbn [for_] in H.
    rewrite (bind_Panic _ _ _ _ _ (waitForSync_body_nil s Hc)) in H.
    discriminate.
Qed.

Lemma noted_syncChecks verbose msg s :
  syncChecks (trace (noted verbose msg s)) = syncChecks (trace s).
Proof.
  destruct verbose; [|reflexivity].
  cbn [noted record trace]. rewrite syncChecks_app. apply app_nil_r.
Qed.

Lemma waitForSync_asks fuel verbose s r s' :
  waitForSync fuel verbose s = (Ret r, s') ->
  (List.length (syncChecks (trace s))
   < List.length (syncChecks (trace s')))%nat.
Proof.
  rewrite waitForSync_unfold.
  destruct (for_ fuel waitForSync_body (noted verbose msgChecking s))
    as [[[e|]| |] s1] eqn:E; intros H; try discriminate;
    injection H as _ <-; apply for_waitForSync_body_asks in E;
    rewrite ?noted_syncChecks in *; exact E.
Qed.

Lemma Quiet_syncChecks s s' :
  Quiet s s' ->
  (List.length (syncChecks (trace s))
   <= List.length (syncChecks (trace s')))%nat.
Proof.
  intros [(d & E & _) _ _ _ _ _ _ _].
  rewrite E, syncChecks_app, length_app. lia.
Qed.

Lemma feed_recover_asks fuel s s1 :
  feed_recover fuel s = (Ret tt, s1) ->
  (List.length (syncChecks (trace s))
   < List.length (syncChecks (trace s1)))%nat.
Proof.
  unfold feed_recover. unfold bind at 1.
  destruct (waitForSync fuel false s) as [[e| |] s0] eqn:Ew; try discriminate.
  apply waitForSync_asks in Ew.
  intros H.
  assert (Hq : Quiet s0 s1).
  { assert (Hm : quiet (match e with
                        | None => ret tt
                        | Some e0 =>
                            log Error msgSyncError (Some e0) ;;
                            err' <- reconnect ;;
                            match err' with
                            | None => ret tt
                            | Some e' =>
                                log Error msgReconnectError (Some e') ;;
                                sleep (5 * Second)
                            end
                        end)) by quiets.
    specialize (Hm s0). now rewrite H in Hm. }
  apply Quiet_syncChecks in Hq. lia.
Qed.

(** The select of an iteration asks nothing and invokes the callback
    once at most. *)
Lemma feed_select_trace s o s' :
  feed_select s = (o, s') ->
  exists d,
    trace s' = trace s ++ d /\ syncChecks d = [] /\
    (List.length (callbacks d) <= 1)%nat.
Proof.
  intros Hb.
  destruct (select feedCases s) as [[c| |] s2] eqn:Es.
  - destruct (select_Ret _ _ _ _ Es) as (t & n & q & _ & _ & _ & _ & ->).
    fold (woken c t q s) in *.
    destruct c.
    + rewrite (feed_select_Done _ _ Es) in Hb. injection Hb as _ <-.
      exists [(t, Recv Done); (t, Log Warn msgFeedCancelled None)].
      cbn [record trace now]. rewrite woken_trace, woken_now, <- app_assoc.
      repeat split; cbn; lia.
    + rewrite (feed_select_BlockReadyChan _ _ Es) in Hb.
      destruct (blockWaitTime (api (woken BlockReadyChan t q s)) <=? 0);
        injection Hb as _ <-.
      * exists [(t, Recv BlockReadyChan); (t, BlockReadyCb)].
        cbn [record trace now]. rewrite woken_trace, woken_now, <- app_assoc.
        repeat split; cbn; lia.
      * exists [(t, Recv BlockReadyChan); (t, BlockReadyCb);
                (t, TickerReset (blockWaitTime (api s)))].
        unfold afterPush. cbn [record trace now set_ticker api].
        rewrite woken_trace, woken_now, woken_api, <- !app_assoc.
        repeat split; cbn; lia.
    + rewrite (feed_select_TickerC _ _ Es) in Hb. injection Hb as _ <-.
      exists [(t, Recv TickerC); (t, BlockReadyCb)].
      cbn [record trace now]. rewrite woken_trace, woken_now, <- app_assoc.
      repeat split; cbn; lia.
  - assert (Ho : forall c, @Panic Chan msg <> Ret c) by discriminate.
    destruct (select_not_Ret _ _ _ _ Es Ho) as [Habs _]. discriminate.
  - assert (Ho : forall c, @Pending Chan <> Ret c) by discriminate.
    rewrite (feed_select_Pending _ _ _ Es Ho) in Hb. injection Hb as _ <-.
    exists []. rewrite app_nil_r. repeat split; cbn; lia.
Qed.

(** What an iteration adds: at least one sync check for a callback. *)
Lemma feed_body_asks_first fuel s o s' :
  feed_body fuel s = (o, s') ->
  exists d,
    trace s' = trace s ++ d /\
    (List.length (callbacks d) <= List.length (syncChecks d))%nat.
Proof.
  intros Hb.
  destruct (feed_body_inv fuel s)
    as (s1 & Hq & [(o1 & _ & _ & _ & E)|[Hr E]]).
  - rewrite E in Hb. injection Hb as _ <-.
    destruct Hq as [(d & Ed & P) _ _ _ _ _ _ _].
    exists d. split; [exact Ed|]. rewrite (plain_callbacks d P). cbn. lia.
  - rewrite E in Hb. apply feed_recover_asks in Hr.
    destruct Hq as [(d1 & E1 & P1) _ _ _ _ _ _ _].
    destruct (feed_select_trace _ _ _ Hb) as (d2 & E2 & S2 & C2).
    exists (d1 ++ d2). split; [rewrite E2, E1; now rewrite app_assoc|].
    rewrite E1, syncChecks_app, length_app in Hr.
    rewrite callbacks_app, syncChecks_app, !length_app,
      (plain_callbacks d1 P1), S2. cbn. lia.
Qed.

(** X8.  The feed does not invoke the callback without having asked the
    sync state of the node: what any run of it adds to the trace holds
    at least as many sync checks as callbacks. *)
Theorem feed_checks_sync_before_every_callback :
  forall (fuel : nat) (s : State),
    exists d,
      trace (snd (startBlockTemplateListener fuel s)) = trace s ++ d /\
      (List.length (callbacks d) <= List.length (syncChecks d))%nat.
Proof.
  intros fuel s.
  assert (Hloop : forall n s0,
             exists d,
               trace (snd (for_ n (feed_body fuel) s0)) = trace s0 ++ d /\
               (List.length (callbacks d) <= List.length (syncChecks d))%nat).
  { intros n.
    apply (for_rule (feed_body fuel)
             (fun s s' => exists d, trace s' = trace s ++ d /\
                (List.length (callbacks d) <= List.length (syncChecks d))%nat)
             (fun s (_ : Outcome unit) s' =>
                exists d, trace s' = trace s ++ d /\
                (List.length (callbacks d) <= List.length (syncChecks d))%nat)).
    - intros s0 s' Hb. exact (feed_body_asks_first fuel _ _ _ Hb).
    - intros s0 o s' Hb _. exact (feed_body_asks_first fuel _ _ _ Hb).
    - intros s0. exists []. rewrite app_nil_r. split; [reflexivity | cbn; lia].
    - intros s1 s2 o s3 (d1 & E1 & L1) (d2 & E2 & L2).
      exists (d1 ++ d2). split; [rewrite E2, E1; now rewrite app_assoc|].
      rewrite callbacks_app, syncChecks_app, !length_app. lia. }
  destruct (feed_start_cases fuel s)
    as [(r & q & E & Hq & Hc & Hpos)|(o & s1 & d & E & Et & P & _)].
  - rewrite E. destruct (Hloop fuel (feedReady r q s)) as (d & Ed & Ld).
    destruct (registered_trace r q s) as (d0 & E0 & P0 & _).
    exists (d0 ++ d). split.
    + rewrite Ed, feedReady_trace, E0. now rewrite app_assoc.
    + rewrite callbacks_app, syncChecks_app, !length_app,
        (plain_callbacks d0 P0). cbn. lia.
  - rewrite E. exists d. cbn [snd]. split; [exact Et|].
    rewrite (plain_callbacks d P). cbn. lia.
Qed.

(** ** The stats poller *)

Lemma stats_tick_nil s :
  pyrind (api s) = None -> stats_tick s = (Panic nilDeref, s).
Proof.
  intros Hc. unfold stats_tick, pyrind_GetBlockDAGInfo.
  now rewrite (bind_Panic _ _ _ _ _ (onClient_nil _ s Hc)).
Qed.

(** What a tick adds to the trace. *)
Lemma stats_tick_trace s o s' :
  stats_tick s = (o, s') ->
  exists d,
    trace s' = trace s ++ d /\
    callbacks d = [] /\ sleeps d = [] /\ ticks d = [] /\
    Forall statsCall (rpcs d) /\
    (List.length (samples d) <= 1)%nat /\ (List.length (rpcs d) <= 2)%nat.
Proof.
  intros Ht.
  destruct (pyrind (api s)) as [c|] eqn:Hc.
  - pose proof (stats_tick_cases s c Hc) as H. rewrite Ht in H.
    inversion H; subst; unfold askedHash, askedDag; cbn;
      rewrite <- ?app_assoc;
      first [ eexists; split; [reflexivity|]
            | exists []; split; [now rewrite app_nil_r|] ];
      cbn; repeat split; auto; try lia;
      repeat (constructor; cbn; auto).
  - rewrite (stats_tick_nil s Hc) in Ht. injection Ht as _ <-.
    exists []. rewrite app_nil_r. cbn. repeat split; auto.
Qed.

Lemma polling_nil : polling [].
Proof. unfold polling. cbn. repeat split; auto. Qed.

Lemma polling_app a b : polling a -> polling b -> polling (a ++ b).
Proof.
  intros (Ca & Sa & Fa & Na & Ra) (Cb & Sb & Fb & Nb & Rb).
  unfold polling.
  rewrite callbacks_app, sleeps_app, rpcs_app, samples_app, ticks_app,
    !length_app, Ca, Cb, Sa, Sb.
  repeat split; [apply Forall_app; split; assumption | lia | lia].
Qed.

(** What an iteration of the stats poller adds to the trace. *)
Lemma stats_body_polling s o s' :
  stats_body s = (o, s') ->
  exists d, trace s' = trace s ++ d /\ polling d.
Proof.
  intros Hb. unfold stats_body in Hb.
  destruct (select [Done; TickerC] s) as [[c| |] s1] eqn:Es.
  - rewrite (bind_Ret _ _ _ _ _ Es) in Hb.
    destruct (select_Ret _ _ _ _ Es) as (t & n & q & _ & _ & Hin & _ & ->).
    fold (woken c t q s) in *.
    destruct c.
    + injection Hb as _ <-.
      exists [(t, Recv Done); (t, Log Warn msgStatsCancelled None)]. split.
      * cbn [record trace now]. rewrite woken_trace, woken_now.
        now rewrite <- app_assoc.
      * unfold polling. cbn. repeat split; auto.
    + cbn in Hin. destruct Hin as [H|[H|[]]]; discriminate.
    + destruct (stats_tick_trace _ _ _ Hb)
        as (d & Ed & Cd & Sd & Td & Fd & Nd & Rd).
      exists ([(t, Recv TickerC)] ++ d). split.
      * rewrite Ed, woken_trace. now rewrite <- app_assoc.
      * unfold polling.
        rewrite callbacks_app, sleeps_app, rpcs_app, samples_app, ticks_app,
          !length_app, Cd, Sd, Td.
        cbn. repeat split; auto; lia.
  - assert (Ho : forall c, @Panic Chan msg <> Ret c) by discriminate.
    destruct (select_not_Ret _ _ _ _ Es Ho) as [Habs _]. discriminate.
  - rewrite (bind_Pending _ _ _ _ Es) in Hb. injection Hb as _ <-.
    assert (Ho : forall c, @Pending Chan <> Ret c) by discriminate.
    destruct (select_not_Ret _ _ _ _ Es Ho) as [_ ->].
    exists []. rewrite app_nil_r. split; [reflexivity | apply polling_nil].
Qed.

(** X9.  The stats poller keeps to its two queries: in every run it
    never invokes the work-ready callback and never sleeps, it calls
    nothing on the node but GetBlockDAGInfo and
    EstimateNetworkHashesPerSecond with a window of 1000, it makes two
    calls a tick at most and records one sample a tick at most. *)
Theorem stats_poller_only_polls :
  forall (fuel : nat) (s : State),
    exists d,
      trace (snd (startStatsThread fuel s)) = trace s ++ d /\ polling d.
Proof.
  intros fuel s. unfold startStatsThread.
  assert (Hloop : forall n s0,
             exists d,
               trace (snd (for_ n stats_body s0)) = trace s0 ++ d /\
               polling d).
  { intros n.
    apply (for_rule stats_body
             (fun s s' => exists d, trace s' = trace s ++ d /\ polling d)
             (fun s (_ : Outcome unit) s' =>
                exists d, trace s' = trace s ++ d /\ polling d)).
    - intros s0 s' Hb. exact (stats_body_polling _ _ _ Hb).
    - intros s0 o s' Hb _. exact (stats_body_polling _ _ _ Hb).
    - intros s0. exists []. rewrite app_nil_r.
      split; [reflexivity | apply polling_nil].
    - intros s1 s2 o s3 (d1 & E1 & L1) (d2 & E2 & L2).
      exists (d1 ++ d2). split; [rewrite E2, E1; now rewrite app_assoc|].
      now apply polling_app. }
  assert (Hpos : 0 < 30 * Second) by (unfold Second; lia).
  unfold bind. rewrite (NewTicker_positive _ s Hpos).
  destruct (Hloop fuel (set_ticker (newTicker (now s) (30 * Second)) s))
    as (d & Ed & Pd).
  exists d. split; [exact Ed | exact Pd].
Qed.

(** The DAG answers left are those there were, or their tail. *)
Lemma stats_tick_tipped s o s' :
  pyrind (api s) <> None -> Forall tipped (dagQ (node s)) ->
  stats_tick s = (o, s') ->
  (forall msg, o <> Panic msg) /\
  pyrind (api s') <> None /\ Forall tipped (dagQ (node s')).
Proof.
  intros Hc Hq Ht.
  destruct (pyrind (api s)) as [c|] eqn:Ec; [|now contradiction Hc].
  pose proof (stats_tick_cases s c Ec) as H. rewrite Ht in H.
  inversion H; subst; unfold askedHash, askedDag;
    cbn [record api node set_node dagQ set_dagQ set_hashQ];
    try match goal with
        | E : dagQ (node s) = _ :: _ |- _ =>
            rewrite E in Hq; inversion Hq; subst
        end;
    try (repeat split; [discriminate | congruence | assumption]).
  match goal with
  | Ht : tipped (inl _), E : TipHashes _ = [] |- _ =>
      cbn in Ht; now contradiction (Ht E)
  end.
Qed.

Lemma stats_body_tipped s o s' :
  pyrind (api s) <> None -> Forall tipped (dagQ (node s)) ->
  stats_body s = (o, s') ->
  (forall msg, o <> Panic msg) /\
  pyrind (api s') <> None /\ Forall tipped (dagQ (node s')).
Proof.
  intros Hc Hq Hb. unfold stats_body in Hb.
  destruct (select [Done; TickerC] s) as [[c| |] s1] eqn:Es.
  - rewrite (bind_Ret _ _ _ _ _ Es) in Hb.
    destruct (select_Ret _ _ _ _ Es) as (t & n & q & _ & _ & Hin & _ & ->).
    assert (Hc1 : pyrind (api (receive c t
                     (set_node (set_pickQ q (node s)) s))) <> None)
      by now rewrite receive_api.
    assert (Hq1 : Forall tipped (dagQ (node (receive c t
                     (set_node (set_pickQ q (node s)) s)))))
      by now destruct c.
    destruct c.
    + injection Hb as <- <-.
      repeat split; [discriminate | exact Hc1 | exact Hq1].
    + cbn in Hin. destruct Hin as [H|[H|[]]]; discriminate.
    + exact (stats_tick_tipped _ _ _ Hc1 Hq1 Hb).
  - assert (Ho : forall c, @Panic Chan msg <> Ret c) by discriminate.
    destruct (select_not_Ret _ _ _ _ Es Ho) as [Habs _]. discriminate.
  - rewrite (bind_Pending _ _ _ _ Es) in Hb. injection Hb as <- <-.
    assert (Ho : forall c, @Pending Chan <> Ret c) by discriminate.
    destruct (select_not_Ret _ _ _ _ Es Ho) as [_ ->].
    repeat split; [discriminate | exact Hc | exact Hq].
Qed.

(** X10.  The stats poller of a manager that has its client panics on a
    DAG answer without tips only: when every DAG answer the node will
    give is an error or has a tip, no run of the poller panics, whatever
    the estimates, the draws of the select and the cancellation. *)
Theorem stats_poller_panics_on_tipless_answer_only :
  forall (fuel : nat) (s : State) (msg : string),
    pyrind (api s) <> None ->
    Forall tipped (dagQ (node s)) ->
    fst (startStatsThread fuel s) <> Panic msg.
Proof.
  intros fuel s msg Hc Hq. unfold startStatsThread.
  assert (Hpos : 0 < 30 * Second) by (unfold Second; lia).
  unfold bind. rewrite (NewTicker_positive _ s Hpos).
  set (I := fun s : State =>
              pyrind (api s) <> None /\ Forall tipped (dagQ (node s))).
  assert (Hloop : forall n s0,
             I s0 -> forall m, fst (for_ n stats_body s0) <> Panic m).
  { intros n s0.
    apply (for_rule stats_body
             (fun s s' => I s -> I s')
             (fun s (o : Outcome unit) (_ : State) =>
                I s -> forall m, o <> Panic m)).
    - intros s1 s' Hb [H1 H2].
      destruct (stats_body_tipped _ _ _ H1 H2 Hb) as (_ & H3 & H4).
      now split.
    - intros s1 o s' Hb _ [H1 H2] m.
      destruct (stats_body_tipped _ _ _ H1 H2 Hb) as (Hn & _).
      destruct o as [[|a]| |]; cbn; try discriminate.
      intros E. injection E as ->. now contradiction (Hn m).
    - intros s1 _ m. discriminate.
    - intros s1 s2 o s3 HR HQ HI. apply HQ, HR, HI. }
  apply Hloop. split; [exact Hc | exact Hq].
Qed.

Lemma stats_poller_panics_on_tipless_answer_only_witness :
  pyrind (api pollsTwice) <> None /\
  Forall tipped (dagQ (node pollsTwice)) /\
  fst (startStatsThread 3 pollsTwice) <> Panic indexOutOfRange.
Proof.
  assert (Hc : pyrind (api pollsTwice) <> None) by discriminate.
  assert (Hq : Forall tipped (dagQ (node pollsTwice))).
  { repeat constructor. cbn. discriminate. }
  split; [exact Hc|]. split; [exact Hq|].
  exact (stats_poller_panics_on_tipless_answer_only
           3 pollsTwice indexOutOfRange Hc Hq).
Defined.

(** ** The period of the feed *)

Lemma everyPeriod_S t w n :
  everyPeriod t w (S n) = (t + w) :: everyPeriod (t + w) w n.
Proof.
  unfold everyPeriod. cbn [seq map]. f_equal; [lia|].
  rewrite <- seq_shift, map_map. apply map_ext. intros k. lia.
Qed.

(** The select of a steady feed sleeps until the tick and takes it. *)
Lemma select_steady w s p ps :
  0 < w ->
  pickQ (node s) = p :: ps ->
  cancelAt (node s) = None ->
  blockReadyChan s = [] ->
  ticker s = newTicker (now s) w ->
  select feedCases s = (Ret TickerC, woken TickerC (now s + w) ps s).
Proof.
  intros Hw Hp Hc Hb Ht.
  unfold select, wakeAt, feedCases, woken.
  cbn [existsb isReady map due]. rewrite Hc, Hb, Ht, Hp.
  unfold advance, newTicker. cbn [next slot period].
  destruct (Z.leb_spec (now s + w) (now s)); [lia|].
  cbn [slot orb earliest hd_error]. cbv beta iota zeta.
  cbn [filter isReady]. rewrite Hc, Hb, Ht.
  unfold advance. cbn [next slot period].
  rewrite Z.leb_refl. cbn [slot List.length nth].
  rewrite Nat.mod_1_r. reflexivity.
Qed.

(** An iteration of a steady feed: one sync check, one tick a period
    later, one callback; the feed is steady again. *)
Lemma feed_body_steady m w n s :
  0 < w -> steady w (S n) s ->
  exists s',
    feed_body (S m) s = (Ret Continue, s') /\
    steady w n s' /\ now s' = now s + w /\
    trace s'
    = trace s ++ [(now s, Rpc GetInfo); (now s + w, Recv TickerC);
                  (now s + w, BlockReadyCb)].
Proof.
  intros Hw (Hc & (rest & Hi) & Hp & Hk & Hb & Ht).
  destruct (pyrind (api s)) as [c|] eqn:Ec; [clear Hc|now contradiction Hc].
  destruct (pickQ (node s)) as [|p ps] eqn:Ep; [cbn in Hp; lia|].
  cbn [repeat app] in Hi.
  set (q := repeat synced n ++ rest) in *.
  assert (Hwait : waitForSync (S m) false s = (Ret None, answered q s)).
  { rewrite waitForSync_unfold. cbn [noted].
    now rewrite (for_Break _ _ _ _ _ (waitForSync_body_synced s c q Ec Hi)). }
  assert (Hrec : feed_recover (S m) s = (Ret tt, answered q s)).
  { unfold feed_recover. now rewrite (bind_Ret _ _ _ _ _ Hwait). }
  assert (Hsel : select feedCases (answered q s)
                 = (Ret TickerC,
                    woken TickerC (now (answered q s) + w) ps (answered q s))).
  { apply select_steady with (p := p); auto. }
  cbn [answered record now set_node] in Hsel.
  exists (record BlockReadyCb (woken TickerC (now s + w) ps (answered q s))).
  split; [|split; [|split]].
  - unfold feed_body. rewrite (bind_Ret _ _ _ _ _ Hrec).
    exact (feed_select_TickerC _ _ Hsel).
  - unfold steady, woken, receive, answered.
    cbn [record api node now ticker blockReadyChan set_node set_now
         set_ticker set_infoQ set_pickQ infoQ pickQ cancelAt pyrind].
    rewrite Ec, Ht, Hk, Hb. cbn in Hp.
    repeat split; [discriminate | now exists rest | lia |].
    unfold drainTicker, advance, newTicker. cbn [next period slot].
    rewrite Z.leb_refl. cbn [next period]. f_equal.
    rewrite Z.sub_diag, Z.div_0_l by lia. lia.
  - cbn [record now]. apply woken_now.
  - cbn [record trace now]. rewrite woken_trace, woken_now.
    cbn [answered record trace now set_node]. now rewrite <- !app_assoc.
Qed.

Lemma feed_loop_steady m w : forall n s,
  0 < w -> steady w n s ->
  exists d,
    trace (snd (for_ n (feed_body (S m)) s)) = trace s ++ d /\
    callbacks d = everyPeriod (now s) w n /\
    ticks d = everyPeriod (now s) w n /\
    rpcs d = repeat GetInfo n /\
    sleeps d = [] /\
    fst (for_ n (feed_body (S m)) s) = Pending.
Proof.
  induction n as [|n IH]; intros s Hw Hs.
  - exists []. cbn. rewrite app_nil_r. repeat split.
  - destruct (feed_body_steady m w n s Hw Hs) as (s1 & Hb & Hs1 & Hn & Et).
    rewrite (for_Continue _ _ _ _ Hb).
    destruct (IH s1 Hw Hs1) as (d & Ed & Cd & Td & Rd & Sd & Ho).
    exists ([(now s, Rpc GetInfo); (now s + w, Recv TickerC);
             (now s + w, BlockReadyCb)] ++ d).
    rewrite Ed, Et, <- app_assoc, callbacks_app, ticks_app, rpcs_app,
      sleeps_app, Cd, Td, Rd, Sd, Hn, everyPeriod_S.
    repeat split. exact Ho.
Qed.

(** X11.  On a node that stays synced and sends no notification, a feed
    that is not cancelled invokes the callback once every
    [blockWaitTime]: in a run of [n] iterations the callbacks are those
    of the ticks, at the instants [t + w], ..., [t + n w] counted from
    the start [t] of the feed, with one sync check before each and no
    sleep; this holds whether or not the registration was accepted. *)
Theorem feed_invokes_callback_every_wait_time :
  forall (n : nat) (s : State) (r : option error) (q : list (option error))
         (rest : list (result GetInfoResponse)),
    pyrind (api s) <> None ->
    0 < blockWaitTime (api s) ->
    registerQ (node s) = r :: q ->
    (r = None -> pushAt (node s) = []) ->
    cancelAt (node s) = None ->
    infoQ (node s) = repeat synced n ++ rest ->
    (n <= List.length (pickQ (node s)))%nat ->
    exists d0 d,
      trace (snd (startBlockTemplateListener n s)) = trace s ++ d0 ++ d /\
      Forall (fun te => plain (snd te)) d0 /\
      callbacks d = everyPeriod (now s) (blockWaitTime (api s)) n /\
      ticks d = callbacks d /\
      rpcs d = repeat GetInfo n /\
      sleeps d = [].
Proof.
  intros n s r q rest Hc Hw Hq Hpush Hk Hi Hp.
  destruct (pyrind (api s)) as [c|] eqn:Ec; [clear Hc|now contradiction Hc].
  rewrite (feed_start_loop n s c r q Ec Hq Hw).
  destruct (registered_trace r q s) as (d0 & E0 & P0 & _).
  exists d0.
  destruct n as [|m].
  - exists []. cbn [for_ pending snd].
    rewrite feedReady_trace, E0, app_nil_r.
    repeat split. exact P0.
  - assert (Hs : steady (blockWaitTime (api s)) (S m) (feedReady r q s)).
    { unfold steady, feedReady, registered.
      destruct r as [e|];
        cbn [record api node now ticker blockReadyChan set_node set_ticker
             set_chan set_registerQ infoQ pickQ cancelAt pushAt];
        rewrite ?Ec, ?Hk, ?Hi, ?(Hpush eq_refl);
        (repeat split; [discriminate | now exists rest | exact Hp]). }
    destruct (feed_loop_steady m _ (S m) _ Hw Hs)
      as (d & Ed & Cd & Td & Rd & Sd & _).
    exists d. rewrite Ed, feedReady_trace, E0, <- app_assoc.
    assert (Hn : now (feedReady r q s) = now s) by (now destruct r).
    rewrite Hn in Cd, Td.
    repeat split; auto. congruence.
Qed.

Lemma feed_invokes_callback_every_wait_time_witness :
  exists d0 d,
    trace (snd (startBlockTemplateListener 3 quietNode))
    = trace quietNode ++ d0 ++ d /\
    Forall (fun te => plain (snd te)) d0 /\
    callbacks d = [2 * Second; 4 * Second; 6 * Second] /\
    ticks d = callbacks d /\
    rpcs d = repeat GetInfo 3 /\
    sleeps d = [].
Proof.
  apply (feed_invokes_callback_every_wait_time
           3 quietNode None [] []);
    try reflexivity; try discriminate; cbn; lia.
Defined.

(** ** The flag of [waitForSync] *)

Lemma withoutInfo_app a b :
  withoutInfo (a ++ b) = withoutInfo a ++ withoutInfo b.
Proof. apply filter_app. Qed.

Lemma sameButInfo_refl s : sameButInfo s s.
Proof. repeat split. Qed.

Lemma sameButInfo_noted msg s1 s2 :
  sameButInfo s1 s2 -> sameButInfo (noted true msg s1) (noted false msg s2).
Proof.
  intros (Ea & En & Et & Ek & Eb & Er).
  unfold sameButInfo.
  cbn [noted record api node now ticker blockReadyChan trace].
  rewrite withoutInfo_app. cbn. rewrite app_nil_r. repeat split; assumption.
Qed.

(** The body of the loop does not read the trace. *)
Lemma waitForSync_body_sameButInfo s1 s2 :
  sameButInfo s1 s2 ->
  fst (waitForSync_body s1) = fst (waitForSync_body s2) /\
  sameButInfo (snd (waitForSync_body s1)) (snd (waitForSync_body s2)).
Proof.
  intros (Ea & En & Et & Ek & Eb & Er).
  destruct (pyrind (api s2)) as [c|] eqn:Hc.
  - assert (Hc1 : pyrind (api s1) = Some c) by (now rewrite Ea).
    destruct (infoQ (node s2)) as [|[[[|]]|err] q] eqn:Hq.
    + assert (Hq1 : infoQ (node s1) = []) by (now rewrite En).
      rewrite (waitForSync_body_unanswered s1 c Hc1 Hq1),
        (waitForSync_body_unanswered s2 c Hc Hq).
      repeat split; assumption.
    + assert (Hq1 : infoQ (node s1) = synced :: q) by (now rewrite En).
      rewrite (waitForSync_body_synced s1 c q Hc1 Hq1),
        (waitForSync_body_synced s2 c q Hc Hq).
      unfold sameButInfo.
      cbn [fst snd record api node now ticker blockReadyChan trace set_node].
      rewrite !withoutInfo_app, Er, En, Et, ?Ea. repeat split; assumption.
    + assert (Hq1 : infoQ (node s1) = unsynced :: q) by (now rewrite En).
      rewrite (waitForSync_body_unsynced s1 c q Hc1 Hq1),
        (waitForSync_body_unsynced s2 c q Hc Hq).
      unfold sameButInfo, afterUnsynced.
      cbn [fst snd record api node now ticker blockReadyChan trace set_node
           set_now].
      rewrite !withoutInfo_app, Er, En, Et, ?Ea. repeat split; assumption.
    + assert (Hq1 : infoQ (node s1) = failed err :: q) by (now rewrite En).
      rewrite (waitForSync_body_failed s1 c err q Hc1 Hq1),
        (waitForSync_body_failed s2 c err q Hc Hq).
      unfold sameButInfo.
      cbn [fst snd record api node now ticker blockReadyChan trace set_node].
      rewrite !withoutInfo_app, Er, En, Et, ?Ea. repeat split; assumption.
  - assert (Hc1 : pyrind (api s1) = None) by (now rewrite Ea).
    rewrite (waitForSync_body_nil s1 Hc1), (waitForSync_body_nil s2 Hc).
    repeat split; assumption.
Qed.

Lemma for_waitForSync_body_sameButInfo n : forall s1 s2,
  sameButInfo s1 s2 ->
  fst (for_ n waitForSync_body s1) = fst (for_ n waitForSync_body s2) /\
  sameButInfo (snd (for_ n waitForSync_body s1))
    (snd (for_ n waitForSync_body s2)).
Proof.
  induction n as [|n IH]; intros s1 s2 H; [now split|].
  destruct (waitForSync_body_sameButInfo s1 s2 H) as [Ho Hs].
  cbn [for_]. unfold bind.
  destruct (waitForSync_body s1) as [o1 t1], (waitForSync_body s2) as [o2 t2].
  cbn [fst snd] in Ho, Hs. subst o2.
  destruct o1 as [[|a]| |]; cbn [fst snd]; auto.
Qed.

(** X12.  The flag of [waitForSync] changes what is logged and nothing
    else: with and without it the result is the same, and so are the
    manager, the node, the clock, the ticker, the channel and the trace
    but for the lines logged at the level Info. *)
Theorem waitForSync_flag_only_logs :
  forall (fuel : nat) (s : State),
    fst (waitForSync fuel true s) = fst (waitForSync fuel false s) /\
    sameButInfo (snd (waitForSync fuel true s))
      (snd (waitForSync fuel false s)).
Proof.
  intros fuel s. rewrite !waitForSync_unfold.
  destruct (for_waitForSync_body_sameButInfo fuel
              (noted true msgChecking s) (noted false msgChecking s)
              (sameButInfo_noted _ _ _ (sameButInfo_refl s))) as [Ho Hs].
  destruct (for_ fuel waitForSync_body (noted true msgChecking s))
    as [o1 t1],
    (for_ fuel waitForSync_body (noted false msgChecking s)) as [o2 t2].
  cbn [fst snd] in Ho, Hs. subst o2.
  destruct o1 as [[e|]| |]; cbn [fst snd]; split; auto.
  now apply sameButInfo_noted.
Qed.

(** ** The client of the constructor is the only one dialled *)

Lemma dials_app a b : dials (a ++ b) = dials a ++ dials b.
Proof. apply flat_map_app. Qed.

Lemma Undialled_refl s : Undialled s s.
Proof. intros Hc. split; [exact Hc|]. exists []. now rewrite app_nil_r. Qed.

Lemma Undialled_trans s1 s2 s3 :
  Undialled s1 s2 -> Undialled s2 s3 -> Undialled s1 s3.
Proof.
  intros H12 H23 Hc.
  destruct (H12 Hc) as (Hc2 & d1 & E1 & D1).
  destruct (H23 Hc2) as (Hc3 & d2 & E2 & D2).
  split; [exact Hc3|]. exists (d1 ++ d2).
  rewrite E2, E1, dials_app, D1, D2. now rewrite app_assoc.
Qed.

Lemma undialled_emit e : dials [(0, e)] = [] -> preserves Undialled (emit e).
Proof.
  intros He s Hc. split; [exact Hc|]. exists [(now s, e)].
  split; [reflexivity | exact He].
Qed.

Lemma undialled_log l msg err : preserves Undialled (log l msg err).
Proof. now apply undialled_emit. Qed.

Lemma undialled_sleep d : preserves Undialled (sleep d).
Proof.
  intros s Hc. split; [exact Hc|]. exists [(now s, Sleep d)].
  split; reflexivity.
Qed.

Lemma undialled_ask {A} (q : Node -> list A) set call :
  dials [(0, Rpc call)] = [] -> preserves Undialled (ask q set call).
Proof.
  intros He s Hc. unfold ask. destruct (q (node s)) as [|r rest].
  - apply Undialled_refl, Hc.
  - split; [exact Hc|]. exists [(now s, Rpc call)].
    split; [reflexivity | exact He].
Qed.

Lemma undialled_select cases : preserves Undialled (select cases).
Proof.
  intros s Hc. unfold select.
  destruct (wakeAt cases s) as [t|]; [|apply Undialled_refl, Hc].
  destruct (pickQ (node s)) as [|n q]; [apply Undialled_refl, Hc|].
  cbn [snd]. split; [now rewrite receive_api|].
  eexists. split; [rewrite receive_trace; reflexivity|].
  now destruct (nth _ _ _).
Qed.

Lemma undialled_NewTicker d : preserves Undialled (time_NewTicker d).
Proof.
  intros s Hc. unfold time_NewTicker.
  destruct (d <=? 0); [apply Undialled_refl, Hc|].
  split; [exact Hc|]. exists []. cbn. now rewrite app_nil_r.
Qed.

Lemma undialled_Reset d : preserves Undialled (ticker_Reset d).
Proof.
  intros s Hc. unfold ticker_Reset.
  destruct (d <=? 0); [apply Undialled_refl, Hc|].
  split; [exact Hc|]. exists [(now s, TickerReset d)]. split; reflexivity.
Qed.

Lemma undialled_set_chan {A} (a : A) (f : State -> list Z) :
  preserves Undialled (fun s => (Ret a, set_chan (f s) s)).
Proof.
  intros s Hc. split; [exact Hc|]. exists []. cbn. now rewrite app_nil_r.
Qed.

(** With its client, [reconnect] goes through it. *)
Lemma undialled_reconnect : preserves Undialled reconnect.
Proof.
  intros s Hc.
  destruct (pyrind (api s)) as [c|] eqn:Ec; [|now contradiction Hc].
  destruct (reconnectQ (node s)) as [|r q] eqn:Eq.
  - unfold reconnect, bind, getApi, pyrind_Reconnect, onClient, bind, getApi,
      ask.
    rewrite Ec, Ec, Eq. cbn [snd]. split; [congruence|].
    exists []. now rewrite app_nil_r.
  - rewrite (reconnect_with_client s c r q Ec Eq).
    split; [cbn; congruence|].
    exists [(now s, Rpc Reconnect)]. split; reflexivity.
Qed.

Create HintDb undialled.

#[local] Hint Resolve undialled_emit undialled_log undialled_sleep
  undialled_ask undialled_select undialled_NewTicker undialled_Reset
  undialled_set_chan undialled_reconnect : undialled.

Ltac undialling :=
  frame Undialled_refl Undialled_trans ltac:(auto with undialled).

Lemma undialled_waitForSync fuel verbose :
  preserves Undialled (waitForSync fuel verbose).
Proof. unfold waitForSync, waitForSync_body, pyrind_GetInfo. undialling. Qed.

#[local] Hint Resolve undialled_waitForSync : undialled.

Lemma undialled_feed fuel :
  preserves Undialled (startBlockTemplateListener fuel).
Proof.
  unfold startBlockTemplateListener, feed_body, feed_recover, feed_select,
    pyrind_RegisterForNewBlockTemplateNotifications, blockReadyCb,
    makeBlockReadyChan.
  undialling.
Qed.

Lemma undialled_stats fuel : preserves Undialled (startStatsThread fuel).
Proof.
  unfold startStatsThread, stats_body, stats_tick, pyrind_GetBlockDAGInfo,
    pyrind_EstimateNetworkHashesPerSecond.
  undialling.
Qed.

Lemma undialled_Start fuel : preserves Undialled (Start fuel).
Proof. unfold Start. undialling. Qed.

Lemma undialled_GetBlockTemplate version client :
  preserves Undialled (PyrinApi_GetBlockTemplate version client).
Proof.
  unfold PyrinApi_GetBlockTemplate, pyrind_GetBlockTemplate. undialling.
Qed.

(** X13.  The client of the constructor is the only one a manager ever
    dials: from a state in which the manager has its client, no run of
    [reconnect], [waitForSync], [Start], the feed, the stats poller or
    [GetBlockTemplate] calls [NewRPCClient], however often the node
    fails and the feed reconnects, and the manager has a client at the
    end of each. *)
Theorem no_method_dials_again :
  forall (fuel : nat) (verbose : bool) (version : string)
         (client : StratumContext) (s : State),
    pyrind (api s) <> None ->
    noDial s (snd (reconnect s)) /\
    noDial s (snd (waitForSync fuel verbose s)) /\
    noDial s (snd (Start fuel s)) /\
    noDial s (snd (startBlockTemplateListener fuel s)) /\
    noDial s (snd (startStatsThread fuel s)) /\
    noDial s (snd (PyrinApi_GetBlockTemplate version client s)).
Proof.
  intros fuel verbose version client s Hc.
  split; [exact (undialled_reconnect s Hc)|].
  split; [exact (undialled_waitForSync fuel verbose s Hc)|].
  split; [exact (undialled_Start fuel s Hc)|].
  split; [exact (undialled_feed fuel s Hc)|].
  split; [exact (undialled_stats fuel s Hc)|].
  exact (undialled_GetBlockTemplate version client s Hc).
Qed.

Lemma no_method_dials_again_witness :
  pyrind (api nodeDownInLoop) <> None /\
  noDial nodeDownInLoop (snd (startBlockTemplateListener 2 nodeDownInLoop)).
Proof.
  assert (Hc : pyrind (api nodeDownInLoop) <> None) by discriminate.
  split; [exact Hc|].
  exact (proj1 (proj2 (proj2 (proj2
           (no_method_dials_again 2 false "v1"
              {| WalletAddr := "pyrin:wallet"; RemoteApp := "miner" |}
              nodeDownInLoop Hc))))).
Defined.
